(** * ts2dart: the facade converter and the declaration transpiler

    A shallow embedding of [lib/facade_converter.ts] (class [FacadeConverter])
    and of the declaration transpiler (class [DeclarationTranspiler]), with
    the properties of their call, type-name, parameter-list, variable-list,
    generic-scope and enum-member handling. *)

From Stdlib Require Import ZArith Ascii String List Bool Lia.
From stdpp Require Import base gmap strings list fin_maps.

Set Warnings "-register-all".

Local Open Scope Z_scope.
Local Open Scope string_scope.

(** ** JavaScript values returned by the boolean-typed methods

    [maybeHandleCall] and [handlePropertyAccess] are declared [boolean] but
    return whatever [handler && !handler(..)] evaluates to, or nothing at
    all. *)

Inductive JSVal : Set :=
| VUndefined
| VNull
| VBool (b : bool)
(** any other value (a number, a string, an object, a function), of which
    only the truthiness is kept *)
| VOther (isTruthy : bool).

Definition truthy (v : JSVal) : bool :=
  match v with
  | VBool b => b
  | VUndefined | VNull => false
  | VOther isTruthy => isTruthy
  end.

(** [!v] *)
Definition jsNot (v : JSVal) : JSVal := VBool (negb (truthy v)).

(** ** Syntax trees *)

Inductive SyntaxKind : Set :=
| Identifier
| QualifiedName
| PropertyAccessExpression
| CallExpression
| NewExpression
| ObjectBindingPattern
| ArrayBindingPattern
| Parameter_
| VariableDeclaration
| VariableDeclarationList
| EnumDeclaration
| EnumMember
| FunctionDeclaration
| FunctionExpression
| ArrowFunction
| MethodDeclaration
| MethodSignature
| GetAccessor
| SetAccessor
| Constructor
| Block
| TypeReference
| OtherKind (code : nat).

#[global] Instance SyntaxKind_eq_dec : EqDecision SyntaxKind.
Proof. solve_decision. Defined.

(** A node is a JavaScript object: which properties are present depends on
    its kind, so every child property is optional.  [id] stands for the
    identity of the object ([===] on nodes compares identities).  The
    [parent] back-reference is not a field: see [SourceTree]. *)
Inductive Node : Type := mkNode {
  id : nat;
  kind : SyntaxKind;
  flags : Z;
  text : string;
  name : option Node;
  expression : option Node;
  arguments : list Node;
  type : option Node;
  initializer : option Node;
  questionToken : option Node;
  typeParameters : option (list Node);
  parameters : list Node;
  body : option Node;
  declarations : list Node;
}.

(** [a === b] on nodes. *)
Definition sameNode (a b : Node) : bool := Nat.eqb (id a) (id b).

(** Back-references and the origin of a node:
    [n.parent] and [n.getSourceFile().fileName]. *)
Record SourceTree := {
  parent : Node -> option Node;
  sourceFileName : Node -> string;
}.

(** ** The type checker, as far as the converter uses it *)

Record Symbol := {
  sym_id : nat;
  sym_flags : Z;
  sym_name : string;
  valueDeclaration : option Node;
  sym_declarations : option (list Node);
}.

(** [a === b] on symbols. *)
Definition sameSymbol (a b : option Symbol) : bool :=
  match a, b with
  | Some x, Some y => Nat.eqb (sym_id x) (sym_id y)
  | None, None => true
  | _, _ => false
  end.

Record TsType := {
  ty_flags : Z;
  ty_symbol : option Symbol;
}.

Record TypeChecker := {
  getSymbolAtLocation : Node -> option Symbol;
  getAliasedSymbol : Symbol -> Symbol;
  getFullyQualifiedName : Symbol -> string;
  getTypeAtLocation : Node -> option TsType;
}.

(** The numeric constants of the [typescript] library that the code masks
    flags with. *)
Record TsLib := {
  SymbolFlags_Alias : Z;
  SymbolFlags_Class : Z;
  SymbolFlags_Function : Z;
  SymbolFlags_Variable : Z;
  TypeFlags_TypeParameter : Z;
  NodeFlags_Const : Z;
}.

(** ** Program state, outcomes and the monad *)

(** What the transpiler and its collaborators write: the emitted tokens,
    the reported diagnostics, and the generic-method depth counter of the
    facade converter. *)
Record World := {
  output : list string;
  errors : list (Node * string);
  genericMethodDeclDepth : Z;
}.

Inductive Exn : Set :=
| TypeError
| Error (msg : string).

Inductive Outcome (A : Type) : Type :=
| Normal (a : A)
| Throw (e : Exn)
| OutOfFuel.
Arguments Normal {A} a.
Arguments Throw {A} e.
Arguments OutOfFuel {A}.

(** Code outside this development (the driver's [visit], the rule bodies)
    acts on the world only, and either returns or throws. *)
Inductive Completion (A : Type) : Type :=
| Returned (a : A)
| Raised (e : Exn).
Arguments Returned {A} a.
Arguments Raised {A} e.

Definition W (A : Type) : Type := World -> Completion A * World.

Definition outcomeOf {A} (c : Completion A) : Outcome A :=
  match c with
  | Returned a => Normal a
  | Raised e => Throw e
  end.

(** The converter's own code additionally leaves a record of the two kinds
    of calls the properties count: the nodes handed to the checker's
    [getSymbolAtLocation] and the nodes for which a rule was invoked, most
    recent first. *)
Record State := {
  world : World;
  symbolLookups : list Node;
  ruleCalls : list Node;
}.

Definition M (A : Type) : Type := State -> Outcome A * State.

Definition ret {A} (a : A) : M A := fun s => (Normal a, s).

Definition bind {A B} (m : M A) (k : A -> M B) : M B :=
  fun s =>
    match m s with
    | (Normal a, s') => k a s'
    | (Throw e, s') => (Throw e, s')
    | (OutOfFuel, s') => (OutOfFuel, s')
    end.

Definition throw {A} (e : Exn) : M A := fun s => (Throw e, s).

Definition outOfFuel {A} : M A := fun s => (OutOfFuel, s).

Declare Scope m_scope.
Delimit Scope m_scope with M.
Notation "x <- c1 ;; c2" := (bind c1 (fun x => c2))
  (at level 100, c1 at next level, right associativity) : m_scope.
Notation "c1 ;; c2" := (bind c1 (fun _ => c2))
  (at level 100, right associativity) : m_scope.
Local Open Scope m_scope.

(** [try { body } finally { fin }] *)
Definition tryFinally {A} (body : M A) (fin : M unit) : M A :=
  fun s =>
    match body s with
    | (Normal a, s1) =>
        match fin s1 with
        | (Normal _, s2) => (Normal a, s2)
        | (Throw e, s2) => (Throw e, s2)
        | (OutOfFuel, s2) => (OutOfFuel, s2)
        end
    | (Throw e, s1) =>
        match fin s1 with
        | (Normal _, s2) => (Throw e, s2)
        | (Throw e', s2) => (Throw e', s2)
        | (OutOfFuel, s2) => (OutOfFuel, s2)
        end
    | (OutOfFuel, s1) => (OutOfFuel, s1)
    end.

(** Dereferencing [undefined] throws. *)
Definition req {A} (o : option A) : M A :=
  match o with
  | Some a => ret a
  | None => throw TypeError
  end.

Definition modifyWorld (f : World -> World) : M unit :=
  fun s => (Normal tt,
            {| world := f (world s);
               symbolLookups := symbolLookups s;
               ruleCalls := ruleCalls s |}).

Definition liftW {A} (w : W A) : M A :=
  fun s =>
    let '(c, w') := w (world s) in
    (outcomeOf c,
     {| world := w'; symbolLookups := symbolLookups s; ruleCalls := ruleCalls s |}).

(** A computation that neither reads nor writes the state. *)
Definition liftC {A} (c : Completion A) : M A := fun s => (outcomeOf c, s).

(** ** The runtime behind the tables

    The tables of the converter are object literals, and the source reads
    them with [m[key]] without asking [hasOwnProperty]: a key that is not a
    property of the table itself is looked up on its prototype,
    [Object.prototype], and the read can hand back a member of the runtime
    ([m['constructor']] is the function [Object]).  The runtime is not part
    of the repository; what the reads of the source find in it, and what the
    source then does with what it found, is asked of a [Runtime]. *)
Record Runtime := {
(** the values of the runtime, [undefined] included *)
  Alien : Type;
(** [o[key]] for an object literal [o] that has no own property [key]: the
    member of [Object.prototype], or [undefined]; a getter may throw *)
  inherited : string -> Completion Alien;
(** [x[key]] for a truthy [x] *)
  alienGet : Alien -> string -> Completion Alien;
(** [x.hasOwnProperty(key)] for a truthy [x] *)
  alienHasOwn : Alien -> string -> Completion bool;
(** [x(args)], a [TypeError] when [x] is not a function; an argument is a
    node or [null] *)
  alienCall : Alien -> list (option Node) -> W JSVal;
(** [x] as a returned value *)
  alienVal : Alien -> JSVal;
(** the token that [emit(x)] writes *)
  alienText : Alien -> string;
}.

(** ** [base.TranspilerBase] *)

(** Modelled from the spec: [emit] of base.ts, which is not under src/.
    Emission appends one token to the output. *)
Definition emit (s : string) : M unit :=
  modifyWorld (fun w =>
    {| output := output w ++ [s];
       errors := errors w;
       genericMethodDeclDepth := genericMethodDeclDepth w |}).

(** Modelled from the spec: [reportError] of base.ts, which is not under
    src/.  Section 7: every error is reported at the offending node and
    does not abort the run; errors are accumulated and traversal goes on. *)
Definition reportError (n : Node) (msg : string) : M unit :=
  modifyWorld (fun w =>
    {| output := output w;
       errors := errors w ++ [(n, msg)];
       genericMethodDeclDepth := genericMethodDeclDepth w |}).

(** Modelled from the spec: [ident] of base.ts, which is not under src/.
    The textual name of an identifier (sections 4.3 and 8), and [null]
    ([None]) for a node that is not one.  Qualified names do not occur where
    it is used below. *)
Definition ident (n : Node) : option string :=
  if decide (kind n = Identifier) then Some (text n) else None.

(** A string or [null] used where JavaScript wants a string: as a property
    key, in a template literal, as an emitted token. *)
Definition jsStr (o : option string) : string := default "null" o.

(** The members of the base class that stay abstract: the driver's
    dispatch and its list traversal, the flag test and the path helper. *)
Record TranspilerBase := {
  visit : Node -> W unit;
  visitList : list Node -> W unit;
  hasFlag : Node -> Z -> bool;
  getRelativeFileName : string -> string;
}.

(** ** Strings *)

(** [s.lastIndexOf(c)], [-1] when [c] does not occur. *)
Fixpoint lastIndexOfFrom (c : ascii) (s : string) (i acc : Z) : Z :=
  match s with
  | EmptyString => acc
  | String a rest => lastIndexOfFrom c rest (i + 1) (if Ascii.eqb a c then i else acc)
  end.

Definition lastIndexOf (c : ascii) (s : string) : Z := lastIndexOfFrom c s 0 (-1).

(** [s.substring(start)] for [0 <= start]. *)
Definition substringFrom (start : Z) (s : string) : string :=
  String.substring (Z.to_nat start) (String.length s - Z.to_nat start) s.

(** [propName.substring(propName.lastIndexOf('.') + 1)] *)
Definition lastSegment (propName : string) : string :=
  substringFrom (lastIndexOf "."%char propName + 1) propName.

(** [s.replace(/(\.d)?\.ts$/, '')]: the leftmost position from which the
    rest of the string is [.d.ts] or [.ts] is where the string is cut. *)
Fixpoint stripTsSuffix (s : string) : string :=
  if String.eqb s ".d.ts" then EmptyString
  else if String.eqb s ".ts" then EmptyString
  else match s with
       | EmptyString => EmptyString
       | String a rest => String a (stripTsSuffix rest)
       end.

(** The [(\.\.\/)*] part of [FACADE_NODE_MODULES_PREFIX]. *)
Fixpoint skipParentDirs (s : string) : string :=
  match s with
  | String "."%char (String "."%char (String "/"%char rest)) => skipParentDirs rest
  | _ => s
  end.

(** [s.replace(FACADE_NODE_MODULES_PREFIX, '')] with
    [FACADE_NODE_MODULES_PREFIX = /^(\.\.\/)*node_modules\//]. *)
Definition stripNodeModulesPrefix (s : string) : string :=
  let r := skipParentDirs s in
  if String.prefix "node_modules/" r
  then String.substring 13 (String.length r - 13) r
  else s.

(** ** The rule tables of [FacadeConverter] *)

(** A call rule gets the call and its receiver ([null] for a plain function
    call) and returns its continuation flag: truthy asks the caller to go on
    with default emission. *)
Definition CallHandler : Type := Node -> option Node -> W JSVal.
Definition PropertyHandler : Type := Node -> W JSVal.

(** What [getHandler] hands back: the entry registered in the table,
    [null], or whatever else the read of the property found (a member of
    the runtime, [undefined] when there is none). *)
Inductive Lookup (V T : Type) : Type :=
| Found (t : T)
| IsNull
| Foreign (x : V).
Arguments Found {V T} t.
Arguments IsNull {V T}.
Arguments Foreign {V T} x.

(** [Object.keys(m)] *)
Definition Object_keys {T} (m : gmap string T) : list string := (map_to_list m).*1.

(** [merge(...args)]: later arguments overwrite earlier ones. *)
Definition merge {T} (args : list (gmap string T)) : gmap string T :=
  foldl (fun returnObject arg =>
           foldl (fun returnObject kv => <[kv.1 := kv.2]> returnObject)
                 returnObject (map_to_list arg))
        ∅ args.

(** [extractPropertyNames(m, candidates)]; the result is the updated
    [candidates] object, used as a set of keys. *)
Definition extractPropertyNames {T} (m : gmap string (gmap string T))
    (candidates : gset string) : gset string :=
  foldl (fun candidates fileName =>
           match m !! fileName with
           | Some file =>
               foldl (fun candidates propName => {[ propName ]} ∪ candidates)
                     candidates
                     (lastSegment <$> Object_keys file)
           | None => candidates
           end)
        candidates (Object_keys m).

(** [candidates.hasOwnProperty(key)] *)
Definition hasOwnProperty (candidates : gset string) (key : string) : bool :=
  bool_decide (key ∈ candidates).

Record FacadeConverter := {
  tc : option TypeChecker;
  candidateProperties : gset string;
  candidateTypes : gset string;
(** [s.replace(this.typingsRootRegex, '')]; the regular expression is
    compiled from the [typingsRoot] argument and stays abstract. *)
  stripTypingsRoot : string -> string;
  TS_TO_DART_TYPENAMES : gmap string (gmap string string);
  callHandlerReplaceNew : gmap string (gmap string bool);
  callHandlers : gmap string (gmap string CallHandler);
  propertyHandlers : gmap string (gmap string PropertyHandler);
}.

(** The constructor, given the values of the field initialisers. *)
Definition newFacadeConverter
    (typeNames : gmap string (gmap string string))
    (replaceNew : gmap string (gmap string bool))
    (calls : gmap string (gmap string CallHandler))
    (props : gmap string (gmap string PropertyHandler))
    (typingsRoot : string -> string) : FacadeConverter :=
  let candidateProperties := extractPropertyNames calls ∅ in
  let candidateProperties := extractPropertyNames props candidateProperties in
  let candidateTypes := extractPropertyNames typeNames ∅ in
  {| tc := None;
     candidateProperties := candidateProperties;
     candidateTypes := candidateTypes;
     stripTypingsRoot := typingsRoot;
     TS_TO_DART_TYPENAMES := typeNames;
     callHandlerReplaceNew := replaceNew;
     callHandlers := calls;
     propertyHandlers := props |}.

Definition setTypeChecker (fc : FacadeConverter) (checker : TypeChecker) : FacadeConverter :=
  {| tc := Some checker;
     candidateProperties := candidateProperties fc;
     candidateTypes := candidateTypes fc;
     stripTypingsRoot := stripTypingsRoot fc;
     TS_TO_DART_TYPENAMES := TS_TO_DART_TYPENAMES fc;
     callHandlerReplaceNew := callHandlerReplaceNew fc;
     callHandlers := callHandlers fc;
     propertyHandlers := propertyHandlers fc |}.

(** *** The tables of the source, rule bodies left abstract

    Each rule body is named by the key it is declared under; the bodies of
    [es6Promises] and [es6Collections] are shared between the modules that
    list them. *)
Section RuleData.
Variable callRule : string -> CallHandler.
Variable propertyRule : string -> PropertyHandler.

Definition rulesOf {T} (body : string -> T) (keys : list string) : gmap string T :=
  list_to_map ((fun k => (k, body k)) <$> keys).

Definition stdlibTypeReplacements : gmap string string :=
  list_to_map
    [("Date", "DateTime"); ("Array", "List"); ("XMLHttpRequest", "HttpRequest");
     ("Uint8Array", "Uint8List"); ("ArrayBuffer", "ByteBuffer"); ("Promise", "Future");
     ("Node", "dynamic"); ("Text", "dynamic"); ("Element", "dynamic");
     ("Event", "dynamic"); ("HTMLElement", "dynamic"); ("HTMLAnchorElement", "dynamic");
     ("HTMLStyleElement", "dynamic"); ("HTMLInputElement", "dynamic");
     ("HTMLDocument", "dynamic"); ("History", "dynamic"); ("Location", "dynamic")].

Definition source_TS_TO_DART_TYPENAMES : gmap string (gmap string string) :=
  list_to_map
    [("lib", stdlibTypeReplacements);
     ("lib.es6", stdlibTypeReplacements);
     ("angular2/src/facade/lang", {[ "Date" := "DateTime" ]});
     ("rxjs/Observable", {[ "Observable" := "Stream" ]});
     ("es6-promise/es6-promise", {[ "Promise" := "Future" ]});
     ("es6-shim/es6-shim", {[ "Promise" := "Future" ]})].

Definition es6Promises : gmap string CallHandler :=
  rulesOf callRule ["Promise.catch"; "Promise.then"; "Promise"].

Definition stdlibHandlers : gmap string CallHandler :=
  merge [es6Promises;
         rulesOf callRule
           ["Array.push"; "Array.pop"; "Array.shift"; "Array.unshift"; "Array.map";
            "Array.filter"; "Array.some"; "Array.slice"; "Array.splice";
            "Array.concat"; "Array.join"; "Array.reduce"; "ArrayConstructor.isArray";
            "RegExp.test"; "RegExp.exec"; "String.substr"]].

Definition es6Collections : gmap string CallHandler :=
  rulesOf callRule
    ["Map.set"; "Map.get"; "Map.has"; "Map.delete"; "Map.forEach"; "Array.find"].

Definition source_callHandlerReplaceNew : gmap string (gmap string bool) :=
  list_to_map
    [("es6-promise/es6-promise", {[ "Promise" := true ]});
     ("es6-shim/es6-shim", {[ "Promise" := true ]})].

Definition source_callHandlers : gmap string (gmap string CallHandler) :=
  list_to_map
    [("lib", stdlibHandlers);
     ("lib.es6", stdlibHandlers);
     ("es6-promise/es6-promise", es6Promises);
     ("es6-shim/es6-shim", merge [es6Promises; es6Collections]);
     ("es6-collections/es6-collections", es6Collections);
     ("angular2/manual_typings/globals", es6Collections);
     ("angular2/src/facade/collection", rulesOf callRule ["Map"]);
     ("angular2/src/core/di/forward_ref", rulesOf callRule ["forwardRef"]);
     ("angular2/src/facade/lang", rulesOf callRule ["CONST_EXPR"; "normalizeBlank"])].

Definition es6CollectionsProp : gmap string PropertyHandler :=
  rulesOf propertyRule ["Map.size"].

Definition es6PromisesProp : gmap string PropertyHandler :=
  rulesOf propertyRule ["resolve"; "reject"].

Definition source_propertyHandlers : gmap string (gmap string PropertyHandler) :=
  list_to_map
    [("es6-shim/es6-shim", es6CollectionsProp);
     ("es6-collections/es6-collections", es6CollectionsProp);
     ("es6-promise/es6-promise", es6PromisesProp)].

(** [new FacadeConverter(transpiler)] with the default, empty typings
    root, whose regular expression matches the empty prefix. *)
Definition sourceFacadeConverter : FacadeConverter :=
  newFacadeConverter source_TS_TO_DART_TYPENAMES source_callHandlerReplaceNew
    source_callHandlers source_propertyHandlers (fun s => s).
End RuleData.

(** ** The methods of [FacadeConverter] *)

Record FileAndName := {
  fileName : string;
  qname : string;
}.

(** [this.genericMethodDeclDepth] *)
Definition getDepth : M Z := fun s => (Normal (genericMethodDeclDepth (world s)), s).

Definition setDepth (d : Z) : M unit :=
  modifyWorld (fun w =>
    {| output := output w; errors := errors w; genericMethodDeclDepth := d |}).

(** [checker.getSymbolAtLocation(n)], noted in [symbolLookups]. *)
Definition lookupSymbol (checker : TypeChecker) (n : Node) : M (option Symbol) :=
  fun s => (Normal (getSymbolAtLocation checker n),
            {| world := world s;
               symbolLookups := n :: symbolLookups s;
               ruleCalls := ruleCalls s |}).

(** [handler(..)] for the rule looked up for node [n], noted in
    [ruleCalls]. *)
Definition invokeRule {A} (n : Node) (body : W A) : M A :=
  fun s => liftW body {| world := world s;
                         symbolLookups := symbolLookups s;
                         ruleCalls := n :: ruleCalls s |}.

(** [x & mask] is truthy.  Flags and masks are non-negative 31-bit values,
    on which JavaScript's 32-bit [&] is [Z.land]. *)
Definition masked (x mask : Z) : bool := negb (Z.eqb (Z.land x mask) 0).

(** The message of [reportMissingType], with [ident] between double
    quotes. *)
Definition missingTypeMessage (ident : string) : string :=
  "Untyped property access to " ++ String "034"%char ident
    ++ String "034"%char " which could be "
    ++ "a special ts2dart builtin. "
    ++ "Please add type declarations to disambiguate.".

Section FacadeConverterMethods.
Context (base : TranspilerBase) (lib : TsLib) (ast : SourceTree) (rt : Runtime).
Variable fc : FacadeConverter.

(** [pushTypeParameterNames(n)] *)
Definition pushTypeParameterNames (n : Node) : M unit :=
  match typeParameters n with
  | None => ret tt
  | Some _ => d <- getDepth ;; setDepth (d + 1)
  end.

(** [popTypeParameterNames(n)] *)
Definition popTypeParameterNames (n : Node) : M unit :=
  match typeParameters n with
  | None => ret tt
  | Some _ => d <- getDepth ;; setDepth (d - 1)
  end.

(** [reportMissingType(n, ident)] *)
Definition reportMissingType (n : Node) (ident : string) : M unit :=
  reportError n (missingTypeMessage ident).

(** The loop [while (symbol.flags & ts.SymbolFlags.Alias) symbol =
    this.tc.getAliasedSymbol(symbol)] of [getFileAndName], which the
    source does not bound. *)
Fixpoint followAliases (fuel : nat) (symbol : Symbol) : M Symbol :=
  if masked (sym_flags symbol) (SymbolFlags_Alias lib) then
    match fuel with
    | O => outOfFuel
    | S fuel' =>
        checker <- req (tc fc) ;;
        followAliases fuel' (getAliasedSymbol checker symbol)
    end
  else ret symbol.

(** The declaration [getFileAndName] settles on: the value declaration,
    else the first declaration. *)
Definition representativeDeclaration (symbol : Symbol) : option Node :=
  match valueDeclaration symbol with
  | Some decl => Some decl
  | None =>
      match sym_declarations symbol with
      | None | Some [] => None
      | Some (decl :: _) => Some decl
      end
  end.

(** [getFileAndName(n, originalSymbol)] *)
Definition getFileAndName (fuel : nat) (n : Node) (originalSymbol : Symbol)
    : M (option FileAndName) :=
  symbol <- followAliases fuel originalSymbol ;;
  match representativeDeclaration symbol with
  | None =>
      reportError n ("no declarations for symbol " ++ sym_name originalSymbol) ;;
      ret None
  | Some decl =>
      let fileName := sourceFileName ast decl in
      let canonicalFileName :=
        stripTypingsRoot fc
          (stripNodeModulesPrefix
             (stripTsSuffix (getRelativeFileName base fileName))) in
      checker <- req (tc fc) ;;
      let qname := getFullyQualifiedName checker symbol in
      let qname :=
        if masked (sym_flags symbol)
             (Z.lor (Z.lor (SymbolFlags_Class lib) (SymbolFlags_Function lib))
                    (SymbolFlags_Variable lib))
        then sym_name symbol
        else qname in
      ret (Some {| fileName := canonicalFileName; qname := qname |})
  end.

(** [getHandler(n, symbol, m)] *)
Definition getHandler {T} (fuel : nat) (n : Node) (symbol : Symbol)
    (m : gmap string (gmap string T)) : M (Lookup (Alien rt) T) :=
  loc <- getFileAndName fuel n symbol ;;
  match loc with
  | None => ret IsNull
  | Some loc =>
      match m !! fileName loc with
      | Some fileSubs =>
          match fileSubs !! qname loc with
          | Some handler => ret (Found handler)
          | None =>
              x <- liftC (inherited rt (qname loc)) ;;
              ret (Foreign x)
          end
      | None =>
          fileSubs <- liftC (inherited rt (fileName loc)) ;;
          if negb (truthy (alienVal rt fileSubs)) then ret IsNull
          else
            x <- liftC (alienGet rt fileSubs (qname loc)) ;;
            ret (Foreign x)
      end
  end.

(** [handler && !handler(args)] for a [handler] that is not a registered
    rule. *)
Definition callForeign (handler : Alien rt) (args : list (option Node)) : M JSVal :=
  if negb (truthy (alienVal rt handler)) then ret (alienVal rt handler)
  else
    r <- liftW (alienCall rt handler args) ;;
    ret (jsNot r).

(** [getCallInformation(c)]: the pair of [context] and [symbol]. *)
Definition getCallInformation (c : Node) : M (option Node * option Symbol) :=
  expr <- req (expression c) ;;
  if decide (kind expr = Identifier) then
    let ident := jsStr (ident expr) in
    if negb (hasOwnProperty (candidateProperties fc) ident) then ret (None, None)
    else
      checker <- req (tc fc) ;;
      symbol <- lookupSymbol checker expr ;;
      match symbol with
      | None => reportMissingType c ident ;; ret (None, None)
      | Some _ => ret (None, symbol)
      end
  else if decide (kind expr = PropertyAccessExpression) then
    let pa := expr in
    paName <- req (name pa) ;;
    let ident := jsStr (ident paName) in
    if negb (hasOwnProperty (candidateProperties fc) ident) then ret (None, None)
    else
      checker <- req (tc fc) ;;
      symbol <- lookupSymbol checker pa ;;
      match symbol with
      | None => ret (None, None)
      | Some _ => ret (expression pa, symbol)
      end
  else ret (None, None).

(** [maybeHandleCall(c)] *)
Definition maybeHandleCall (fuel : nat) (c : Node) : M JSVal :=
  match tc fc with
  | None => ret (VBool false)
  | Some _ =>
      info <- getCallInformation c ;;
      let context := info.1 in
      match info.2 with
      | None => ret (VBool false)
      | Some symbol =>
          handler <- getHandler fuel c symbol (callHandlers fc) ;;
          match handler with
          | IsNull => ret VNull
          | Found handler =>
              r <- invokeRule c (handler c context) ;;
              ret (jsNot r)
          | Foreign handler => callForeign handler [Some c; context]
          end
      end
  end.

(** [handlePropertyAccess(pa)] *)
Definition handlePropertyAccess (fuel : nat) (pa : Node) : M JSVal :=
  match tc fc with
  | None => ret VUndefined
  | Some checker =>
      paName <- req (name pa) ;;
      let ident := text paName in
      if negb (hasOwnProperty (candidateProperties fc) ident) then ret (VBool false)
      else
        symbol <- lookupSymbol checker paName ;;
        match symbol with
        | None => reportMissingType pa ident ;; ret (VBool false)
        | Some symbol =>
            handler <- getHandler fuel pa symbol (propertyHandlers fc) ;;
            match handler with
            | IsNull => ret VNull
            | Found handler =>
                r <- invokeRule pa (handler pa) ;;
                ret (jsNot r)
            | Foreign handler => callForeign handler [Some pa]
            end
        end
  end.

(** [shouldEmitNew(c)] *)
Definition shouldEmitNew (fuel : nat) (c : Node) : M bool :=
  match tc fc with
  | None => ret true
  | Some _ =>
      ci <- getCallInformation c ;;
      match ci.2 with
      | None => ret true
      | Some symbol =>
          loc <- getFileAndName fuel c symbol ;;
          match loc with
          | None => ret true
          | Some loc =>
              match callHandlerReplaceNew fc !! fileName loc with
              | Some fileSubs =>
                  match fileSubs !! qname loc with
                  | Some replace => ret (negb replace)
                  | None =>
                      x <- liftC (inherited rt (qname loc)) ;;
                      ret (negb (truthy (alienVal rt x)))
                  end
              | None =>
                  fileSubs <- liftC (inherited rt (fileName loc)) ;;
                  if negb (truthy (alienVal rt fileSubs)) then ret true
                  else
                    x <- liftC (alienGet rt fileSubs (qname loc)) ;;
                    ret (negb (truthy (alienVal rt x)))
              end
          end
      end
  end.

(** [symbol.declarations.some(d => d.parent.kind ===
    ts.SyntaxKind.FunctionDeclaration)] *)
Fixpoint someDeclaredByFunction (ds : list Node) : M bool :=
  match ds with
  | [] => ret false
  | d :: rest =>
      p <- req (parent ast d) ;;
      if decide (kind p = FunctionDeclaration) then ret true
      else someDeclaredByFunction rest
  end.

(** [isGenericMethodTypeParameterName(name)] *)
Definition isGenericMethodTypeParameterName (name : Node) : M bool :=
  depth <- getDepth ;;
  match tc fc with
  | None => ret false
  | Some checker =>
      if Z.eqb depth 0 then ret false
      else
        match getTypeAtLocation checker name with
        | None => ret false
        | Some t =>
            if negb (masked (ty_flags t) (TypeFlags_TypeParameter lib)) then ret false
            else
              symbol <- lookupSymbol checker name ;;
              if negb (sameSymbol symbol (ty_symbol t)) then ret false
              else
                symbol <- req symbol ;;
                ds <- req (sym_declarations symbol) ;;
                someDeclaredByFunction ds
        end
  end.

(** [visitTypeName(typeName)] *)
Definition visitTypeName (fuel : nat) (typeName : Node) : M unit :=
  if negb (bool_decide (kind typeName = Identifier)) then liftW (visit base typeName)
  else
    let ident := jsStr (ident typeName) in
    generic <- isGenericMethodTypeParameterName typeName ;;
    if generic then
      emit "dynamic/*=" ;; emit ident ;; emit "*/"
    else
      match tc fc with
      | Some checker =>
          if hasOwnProperty (candidateTypes fc) ident then
            symbol <- lookupSymbol checker typeName ;;
            match symbol with
            | None => reportMissingType typeName ident
            | Some symbol =>
                fileAndName <- getFileAndName fuel typeName symbol ;;
                match fileAndName with
                | Some fileAndName =>
                    match TS_TO_DART_TYPENAMES fc !! fileName fileAndName with
                    | Some fileSubs =>
                        match fileSubs !! qname fileAndName with
                        | Some replacement => emit replacement
                        | None => emit ident
                        end
                    | None =>
                        fileSubs <- liftC (inherited rt (fileName fileAndName)) ;;
                        if negb (truthy (alienVal rt fileSubs)) then emit ident
                        else
                          own <- liftC (alienHasOwn rt fileSubs (qname fileAndName)) ;;
                          if own then
                            x <- liftC (alienGet rt fileSubs (qname fileAndName)) ;;
                            emit (alienText rt x)
                          else emit ident
                    end
                | None => emit ident
                end
            end
          else emit ident
      | None => emit ident
      end.

(** [isNamedType(node, fileName, qname)] *)
Definition isNamedType (fuel : nat) (node : Node) (fileName' qname' : string) : M bool :=
  checker <- req (tc fc) ;;
  t <- req (getTypeAtLocation checker node) ;;
  match ty_symbol t with
  | None => ret false
  | Some symbol =>
      actual <- getFileAndName fuel node symbol ;;
      actual <- req actual ;;
      if String.eqb fileName' "lib"
         && negb (String.eqb (fileName actual) "lib" || String.eqb (fileName actual) "lib.es6")
      then ret false
      else if negb (String.eqb fileName' (fileName actual)) then ret false
      else ret (String.eqb qname' (qname actual))
  end.

(** [isConstCall(node)] for a node that is there. *)
Definition isConstCall (node : Node) : M bool :=
  if decide (kind node = CallExpression) then
    callee <- req (expression node) ;;
    ret (bool_decide (ident callee = Some "CONST_EXPR"))
  else ret false.
End FacadeConverterMethods.

(** ** The methods of [DeclarationTranspiler] *)

(** [xs.join(sep)] *)
Fixpoint join (sep : string) (xs : list string) : string :=
  match xs with
  | [] => EmptyString
  | [x] => x
  | x :: rest => x ++ sep ++ join sep rest
  end.

(** [!!o] for an optional child. *)
Definition present {A} (o : option A) : bool :=
  match o with Some _ => true | None => false end.

Section DeclarationTranspilerMethods.
Context (base : TranspilerBase) (lib : TsLib) (ast : SourceTree).
Variable fc : FacadeConverter.
(** The cases of [visitNode]'s [switch] that are not spelled out below. *)
Variable remainingCases : Node -> M bool.

Definition msgCannotBeTyped : string :=
  "Variables in a declaration list of more than one variable cannot by typed".

(** [visitVariableDeclarationType(varDecl)] *)
Definition visitVariableDeclarationType (varDecl : Node) : M unit :=
  declList <- req (parent ast varDecl) ;;
  let firstDecl := head (declarations declList) in
  let msg := msgCannotBeTyped in
  let isFinal := hasFlag base declList (NodeFlags_Const lib) in
  isConst <- (match initializer varDecl with
              | Some init => if isFinal then isConstCall init else ret false
              | None => ret false
              end) ;;
  if match firstDecl with Some first => sameNode first varDecl | None => false end then
    (if isConst then emit "const"
     else if isFinal then emit "final"
     else ret tt) ;;
    match type varDecl with
    | None => if negb isFinal then emit "var" else ret tt
    | Some ty =>
        if (1 <? length (declarations declList))%nat then reportError varDecl msg
        else liftW (visit base ty)
    end
  else
    match type varDecl with
    | Some _ => reportError varDecl msg
    | None => ret tt
    end.

(** [parameters[i].initializer || parameters[i].questionToken] *)
Definition isOpt (p : Node) : bool :=
  present (initializer p) || present (questionToken p).

(** The loop of [visitParameters] that advances [firstInitParamIdx]; it
    runs at most [parameters.length] times. *)
Fixpoint scanParameters (steps : nat) (parameters : list Node)
    (firstInitParamIdx : nat) : M nat :=
  match steps with
  | O => ret firstInitParamIdx
  | S steps' =>
      match parameters !! firstInitParamIdx with
      | None => ret firstInitParamIdx
      | Some p =>
          if isOpt p then
            pname <- req (name p) ;;
            if negb (bool_decide (kind pname = ObjectBindingPattern))
            then ret firstInitParamIdx
            else scanParameters steps' parameters (S firstInitParamIdx)
          else scanParameters steps' parameters (S firstInitParamIdx)
      end
  end.

(** [visitParameters(parameters)] *)
Definition visitParameters (parameters : list Node) : M unit :=
  emit "(" ;;
  firstInitParamIdx <- scanParameters (length parameters) parameters 0 ;;
  (if negb (firstInitParamIdx =? 0)%nat then
     let requiredParams := take firstInitParamIdx parameters in
     liftW (visitList base requiredParams)
   else ret tt) ;;
  (if negb (firstInitParamIdx =? length parameters)%nat then
     (if negb (firstInitParamIdx =? 0)%nat then emit "," else ret tt) ;;
     let positionalOptional := drop firstInitParamIdx parameters in
     emit "[" ;;
     liftW (visitList base positionalOptional) ;;
     emit "]"
   else ret tt) ;;
  emit ")".

(** [fn.typeParameters.map(p => base.ident(p.name))]; [join] prints a
    [null] element as the empty string. *)
Fixpoint typeParameterNames (ps : list Node) : M (list string) :=
  match ps with
  | [] => ret []
  | p :: rest =>
      pname <- req (name p) ;;
      names <- typeParameterNames rest ;;
      ret (default EmptyString (ident pname) :: names)
  end.

(** The [try] block of [visitFunctionLike]. *)
Definition visitFunctionLikeBody (fn : Node) (accessor : option string) : M unit :=
  (match type fn with
   | Some ty =>
       if bool_decide (kind fn = ArrowFunction) || bool_decide (kind fn = FunctionExpression)
       then emit "/*" ;; liftW (visit base ty) ;; emit "*/"
       else liftW (visit base ty)
   | None => ret tt
   end) ;;
  (match accessor with Some a => emit a | None => ret tt end) ;;
  (match name fn with Some n => liftW (visit base n) | None => ret tt end) ;;
  (match typeParameters fn with
   | Some tps =>
       emit "/*<" ;;
       names <- typeParameterNames tps ;;
       emit (join ", " names) ;;
       emit ">*/"
   | None => ret tt
   end) ;;
  (if negb (bool_decide (accessor = Some "get")) then visitParameters (parameters fn)
   else if (0 <? length (parameters fn))%nat
        then reportError fn "getter should not accept parameters"
        else ret tt) ;;
  match body fn with
  | Some b => liftW (visit base b)
  | None => emit ";"
  end.

(** [visitFunctionLike(fn, accessor)] *)
Definition visitFunctionLike (fn : Node) (accessor : option string) : M unit :=
  pushTypeParameterNames fn ;;
  tryFinally (visitFunctionLikeBody fn accessor) (popTypeParameterNames fn).

(** [visitNode(node)], for the kinds whose case is spelled out here. *)
Definition visitNode (node : Node) : M bool :=
  match kind node with
  | VariableDeclarationList =>
      liftW (visitList base (declarations node)) ;;
      ret true
  | VariableDeclaration =>
      let varDecl := node in
      visitVariableDeclarationType varDecl ;;
      vname <- req (name varDecl) ;;
      liftW (visit base vname) ;;
      (match initializer varDecl with
       | Some init => emit "=" ;; liftW (visit base init)
       | None => ret tt
       end) ;;
      ret true
  | EnumMember =>
      let member := node in
      mname <- req (name member) ;;
      liftW (visit base mname) ;;
      (if present (initializer member)
       then reportError node "enum initializers are not supported"
       else ret tt) ;;
      ret true
  | ArrowFunction =>
      let arrowFunc := node in
      b <- req (body arrowFunc) ;;
      (if bool_decide (kind b = Block) then visitFunctionLike arrowFunc None
       else
         visitParameters (parameters arrowFunc) ;;
         emit "=>" ;;
         liftW (visit base b)) ;;
      ret true
  | FunctionExpression =>
      visitFunctionLike node None ;;
      ret true
  | _ => remainingCases node
  end.
End DeclarationTranspilerMethods.

(** ** The rules of the source

    The bodies of the rules registered in [callHandlers] and
    [propertyHandlers].  A rule is a method of the converter that is run by
    the driver, so it is written over the world alone. *)

Definition retW {A} (a : A) : W A := fun w => (Returned a, w).

Definition bindW {A B} (m : W A) (k : A -> W B) : W B :=
  fun w =>
    match m w with
    | (Returned a, w') => k a w'
    | (Raised e, w') => (Raised e, w')
    end.

Definition raiseW {A} (e : Exn) : W A := fun w => (Raised e, w).

Declare Scope w_scope.
Delimit Scope w_scope with W.
Notation "x <- c1 ;; c2" := (bindW c1 (fun x => c2))
  (at level 100, c1 at next level, right associativity) : w_scope.
Notation "c1 ;; c2" := (bindW c1 (fun _ => c2))
  (at level 100, right associativity) : w_scope.

(** Dereferencing [undefined] throws. *)
Definition reqW {A} (o : option A) : W A :=
  match o with
  | Some a => retW a
  | None => raiseW TypeError
  end.

(** [emit] and [reportError], as in [base.TranspilerBase] above. *)
Definition emitW (s : string) : W unit :=
  fun w => (Returned tt,
            {| output := output w ++ [s];
               errors := errors w;
               genericMethodDeclDepth := genericMethodDeclDepth w |}).

Definition reportErrorW (n : Node) (msg : string) : W unit :=
  fun w => (Returned tt,
            {| output := output w;
               errors := errors w ++ [(n, msg)];
               genericMethodDeclDepth := genericMethodDeclDepth w |}).

(** A rule whose body has no [return] with a value returns [undefined]. *)
Definition voidRule (body : W unit) : W JSVal := (body ;; retW VUndefined)%W.

Section SourceRules.
Context (base : TranspilerBase).
(** What the driver does when [visit] is handed [undefined] or [null]. *)
Variable visitMissing : W unit.
(** What the driver does when [visitList] is handed a list that starts with
    [null], followed by the given nodes. *)
Variable visitListAfterNull : list Node -> W unit.
(** [this.isNamedType(arg, 'lib', 'Array')], run from within a rule. *)
Variable isArray : Node -> W bool.
(** [getAncestor(n, kind)] of the base class. *)
Variable getAncestor : Node -> SyntaxKind -> option Node.
(** [c.typeArguments] *)
Variable typeArguments : Node -> option (list Node).
(** The [Promise] rule once it has found a [new] expression: assertions on
    the executor and the emission of the completer. *)
Variable promiseConstruction : Node -> option Node -> W unit.

(** [this.visit(x)] for an [x] that may be missing. *)
Definition visitOpt (x : option Node) : W unit :=
  match x with
  | Some n => visit base n
  | None => visitMissing
  end.

(** [this.visitList([context, ...rest])] *)
Definition visitListWith (context : option Node) (rest : list Node) : W unit :=
  match context with
  | Some n => visitList base (n :: rest)
  | None => visitListAfterNull rest
  end.

(** [isConstCall(node)] for a node that may be missing, within a rule. *)
Definition isConstCallW (node : option Node) : W bool :=
  match node with
  | None => retW false
  | Some node =>
      if decide (kind node = CallExpression) then
        (callee <- reqW (expression node) ;;
         retW (bool_decide (ident callee = Some "CONST_EXPR")))%W
      else retW false
  end.

(** [isInsideConstExpr(node)] *)
Definition isInsideConstExpr (node : Node) : W bool :=
  isConstCallW (getAncestor node CallExpression).

(** [emitCall(name, args)] *)
Definition emitCall (name : string) (args : option (list Node)) : W unit :=
  (emitW name ;;
   emitW "(" ;;
   match args with
   | Some args => visitList base args
   | None => retW tt
   end ;;
   emitW ")")%W.

(** [emitCall(name, [context, ...rest])] *)
Definition emitCallWith (name : string) (context : option Node) (rest : list Node) : W unit :=
  (emitW name ;;
   emitW "(" ;;
   visitListWith context rest ;;
   emitW ")")%W.

(** [emitMethodCall(name, args)] *)
Definition emitMethodCall (name : string) (args : option (list Node)) : W unit :=
  (emitW "." ;; emitCall name args)%W.

(** *** [es6Promises] *)

Definition rule_Promise_catch : CallHandler := fun c context =>
  voidRule
    (visitOpt context ;;
     emitW ".catchError(" ;;
     visitList base (arguments c) ;;
     emitW ")")%W.

Definition rule_Promise_then : CallHandler := fun c context =>
  voidRule
    (visitOpt context ;;
     emitW ".then(" ;;
     visitOpt (arguments c !! 0%nat) ;;
     emitW ")" ;;
     if (1 <? length (arguments c))%nat then
       emitW ".catchError(" ;;
       visitOpt (arguments c !! 1%nat) ;;
       emitW ")"
     else retW tt)%W.

Definition rule_Promise : CallHandler := fun c context =>
  if negb (bool_decide (kind c = NewExpression)) then retW (VBool true)
  else voidRule (promiseConstruction c context).

(** *** [stdlibHandlers] *)

Definition rule_Array_push : CallHandler := fun c context =>
  voidRule (visitOpt context ;; emitMethodCall "add" (Some (arguments c)))%W.

Definition rule_Array_pop : CallHandler := fun c context =>
  voidRule (visitOpt context ;; emitMethodCall "removeLast" None)%W.

Definition rule_Array_shift : CallHandler := fun c context =>
  voidRule (visitOpt context ;; emitW ". removeAt ( 0 )")%W.

Definition rule_Array_unshift : CallHandler := fun c context =>
  voidRule
    (emitW "(" ;;
     visitOpt context ;;
     if (length (arguments c) =? 1)%nat then
       emitW ".. insert ( 0," ;;
       visitOpt (arguments c !! 0%nat) ;;
       emitW ") ) . length"
     else
       emitW ".. insertAll ( 0, [" ;;
       visitList base (arguments c) ;;
       emitW "]) ) . length")%W.

Definition rule_Array_map : CallHandler := fun c context =>
  voidRule
    (visitOpt context ;;
     emitMethodCall "map" (Some (arguments c)) ;;
     emitMethodCall "toList" None)%W.

Definition rule_Array_filter : CallHandler := fun c context =>
  voidRule
    (visitOpt context ;;
     emitMethodCall "where" (Some (arguments c)) ;;
     emitMethodCall "toList" None)%W.

Definition rule_Array_some : CallHandler := fun c context =>
  voidRule (visitOpt context ;; emitMethodCall "any" (Some (arguments c)))%W.

Definition rule_Array_slice : CallHandler := fun c context =>
  voidRule (emitCallWith "ListWrapper.slice" context (arguments c)).

Definition rule_Array_splice : CallHandler := fun c context =>
  voidRule (emitCallWith "ListWrapper.splice" context (arguments c)).

(** The callback of [c.arguments.forEach] in the rule of [Array.concat]. *)
Fixpoint concatArguments (args : list Node) : W unit :=
  match args with
  | [] => retW tt
  | arg :: rest =>
      (isArr <- isArray arg ;;
       (if negb isArr then reportErrorW arg "Array.concat only takes Array arguments"
        else retW tt) ;;
       emitW ".. addAll (" ;;
       visit base arg ;;
       emitW ")" ;;
       concatArguments rest)%W
  end.

Definition rule_Array_concat : CallHandler := fun c context =>
  voidRule
    (emitW "( new List . from (" ;;
     visitOpt context ;;
     emitW ")" ;;
     concatArguments (arguments c) ;;
     emitW ")")%W.

Definition rule_Array_join : CallHandler := fun c context =>
  voidRule
    (visitOpt context ;;
     if (0 <? length (arguments c))%nat then emitMethodCall "join" (Some (arguments c))
     else emitW (". join ( " ++ String "034"%char ("," ++ String "034"%char " )")))%W.

Definition rule_Array_reduce : CallHandler := fun c context =>
  voidRule
    (visitOpt context ;;
     match arguments c with
     | a0 :: a1 :: _ => emitMethodCall "fold" (Some [a1; a0])
     | _ =>
         emitW ". fold ( null ," ;;
         visitOpt (arguments c !! 0%nat) ;;
         emitW ")"
     end)%W.

Definition rule_ArrayConstructor_isArray : CallHandler := fun c context =>
  voidRule
    (emitW "( (" ;;
     visitList base (arguments c) ;;
     emitW ")" ;;
     emitW "is List" ;;
     emitW ")")%W.

Definition rule_RegExp_test : CallHandler := fun c context =>
  voidRule (visitOpt context ;; emitMethodCall "hasMatch" (Some (arguments c)))%W.

Definition rule_RegExp_exec : CallHandler := fun c context =>
  voidRule
    (visitOpt context ;;
     emitMethodCall "allMatches" (Some (arguments c)) ;;
     emitMethodCall "toList" None)%W.

Definition rule_String_substr : CallHandler := fun c context =>
  voidRule
    (reportErrorW c
       "substr is unsupported, use substring (but beware of the different semantics!)" ;;
     visitOpt context ;;
     emitMethodCall "substr" (Some (arguments c)))%W.

(** *** [es6Collections] *)

Definition rule_Map_set : CallHandler := fun c context =>
  voidRule
    (visitOpt context ;;
     emitW "[" ;;
     visitOpt (arguments c !! 0%nat) ;;
     emitW "]" ;;
     emitW "=" ;;
     visitOpt (arguments c !! 1%nat))%W.

Definition rule_Map_get : CallHandler := fun c context =>
  voidRule
    (visitOpt context ;;
     emitW "[" ;;
     visitOpt (arguments c !! 0%nat) ;;
     emitW "]")%W.

Definition rule_Map_has : CallHandler := fun c context =>
  voidRule (visitOpt context ;; emitMethodCall "containsKey" (Some (arguments c)))%W.

Definition rule_Map_delete : CallHandler := fun c context =>
  voidRule
    (emitW "(" ;;
     visitOpt context ;;
     emitMethodCall "containsKey" (Some (arguments c)) ;;
     emitW "&& (" ;;
     visitOpt context ;;
     emitMethodCall "remove" (Some (arguments c)) ;;
     emitW "!= null || true ) )")%W.

(** The two function cases of the [switch] in the rule of [Map.forEach]; in
    the arrow case the fat arrow is kept unless the body is a block. *)
Definition forEachWithFunction (arrow : bool) (c : Node) (context : option Node) (cb : Node)
    : W unit :=
  let params := parameters cb in
  if negb (length params =? 2)%nat then
    reportErrorW c "Map.forEach callback requires exactly two arguments"
  else
    (visitOpt context ;;
     emitW ". forEach ( (" ;;
     visitOpt (params !! 1%nat) ;;
     emitW "," ;;
     visitOpt (params !! 0%nat) ;;
     emitW ")" ;;
     (if arrow then
        body <- reqW (body cb) ;;
        if negb (bool_decide (kind body = Block)) then emitW "=>" else retW tt
      else retW tt) ;;
     visitOpt (body cb) ;;
     emitW ")")%W.

Definition rule_Map_forEach : CallHandler := fun c context =>
  voidRule
    (cb <- reqW (arguments c !! 0%nat) ;;
     if decide (kind cb = FunctionExpression) then forEachWithFunction false c context cb
     else if decide (kind cb = ArrowFunction) then forEachWithFunction true c context cb
     else
       visitOpt context ;;
       emitW ". forEach ( ( k , v ) => (" ;;
       visit base cb ;;
       emitW ") ( v , k ) )")%W.

Definition rule_Array_find : CallHandler := fun c context =>
  voidRule
    (visitOpt context ;;
     emitW ". firstWhere (" ;;
     visitOpt (arguments c !! 0%nat) ;;
     emitW ", orElse : ( ) => null )")%W.

(** *** The rules declared inside [callHandlers] *)

Definition rule_Map : CallHandler := fun c context =>
  (inConst <- isInsideConstExpr c ;;
   if negb inConst then retW (VBool true)
   else
     (if (0 <? length (arguments c))%nat
      then reportErrorW c "Arguments on a Map constructor in a const are unsupported"
      else retW tt) ;;
     match typeArguments c with
     | Some targs => emitW "<" ;; visitList base targs ;; emitW ">"
     | None => retW tt
     end ;;
     emitW "{ }" ;;
     retW (VBool false))%W.

Definition rule_forwardRef : CallHandler := fun c context =>
  voidRule
    (callback <- reqW (arguments c !! 0%nat) ;;
     if negb (bool_decide (kind callback = ArrowFunction))
     then reportErrorW c "forwardRef takes only arrow functions"
     else visitOpt (body callback))%W.

Definition rule_CONST_EXPR : CallHandler := fun c context =>
  voidRule (visitList base (arguments c)).

Definition rule_normalizeBlank : CallHandler := fun c context =>
  voidRule (visitList base (arguments c)).

(** *** The property rules *)

Definition rule_Map_size : PropertyHandler := fun p =>
  voidRule (visitOpt (expression p) ;; emitW "." ;; emitW "length")%W.

Definition rule_resolve : PropertyHandler := fun p =>
  voidRule (visitOpt (expression p) ;; emitW ".value")%W.

Definition rule_reject : PropertyHandler := fun p =>
  voidRule (visitOpt (expression p) ;; emitW ".error")%W.

(** *** The rules by the key they are declared under *)

Definition sourceCallRules : list (string * CallHandler) :=
  [("Promise.catch", rule_Promise_catch);
   ("Promise.then", rule_Promise_then);
   ("Promise", rule_Promise);
   ("Array.push", rule_Array_push);
   ("Array.pop", rule_Array_pop);
   ("Array.shift", rule_Array_shift);
   ("Array.unshift", rule_Array_unshift);
   ("Array.map", rule_Array_map);
   ("Array.filter", rule_Array_filter);
   ("Array.some", rule_Array_some);
   ("Array.slice", rule_Array_slice);
   ("Array.splice", rule_Array_splice);
   ("Array.concat", rule_Array_concat);
   ("Array.join", rule_Array_join);
   ("Array.reduce", rule_Array_reduce);
   ("ArrayConstructor.isArray", rule_ArrayConstructor_isArray);
   ("RegExp.test", rule_RegExp_test);
   ("RegExp.exec", rule_RegExp_exec);
   ("String.substr", rule_String_substr);
   ("Map.set", rule_Map_set);
   ("Map.get", rule_Map_get);
   ("Map.has", rule_Map_has);
   ("Map.delete", rule_Map_delete);
   ("Map.forEach", rule_Map_forEach);
   ("Array.find", rule_Array_find);
   ("Map", rule_Map);
   ("forwardRef", rule_forwardRef);
   ("CONST_EXPR", rule_CONST_EXPR);
   ("normalizeBlank", rule_normalizeBlank)].

Definition sourcePropertyRules : list (string * PropertyHandler) :=
  [("Map.size", rule_Map_size);
   ("resolve", rule_resolve);
   ("reject", rule_reject)].

(** The first rule listed under [key]. *)
Fixpoint ruleNamed {T} (rules : list (string * T)) (key : string) : option T :=
  match rules with
  | [] => None
  | (k, rule) :: rest => if String.eqb k key then Some rule else ruleNamed rest key
  end.

(** The rule bodies as the tables want them; a key under which the source
    declares nothing gets a rule that does nothing. *)
Definition sourceCallRule (key : string) : CallHandler :=
  default (fun _ _ => retW VUndefined) (ruleNamed sourceCallRules key).

Definition sourcePropertyRule (key : string) : PropertyHandler :=
  default (fun _ => retW VUndefined) (ruleNamed sourcePropertyRules key).

(** [new FacadeConverter(transpiler)], rules included. *)
Definition theFacadeConverter : FacadeConverter :=
  sourceFacadeConverter sourceCallRule sourcePropertyRule.
End SourceRules.

(** ** [DeclarationTranspiler]: decorators *)

(** [!name] for a name that is a string or [null]. *)
Definition noName (name : option string) : bool :=
  match name with
  | None => true
  | Some s => String.eqb s EmptyString
  end.

Section Decorators.
Context (base : TranspilerBase).

(** The callback of [decorators.forEach] in [visitDecorators]. *)
Definition visitDecorator (d : Node) : M unit :=
  expr <- req (expression d) ;;
  let name := ident expr in
  name <- (if noName name && bool_decide (kind expr = CallExpression)
           then
             let callExpr := expr in
             callee <- req (expression callExpr) ;;
             ret (ident callee)
           else ret name) ;;
  if bool_decide (name = Some "CONST") then ret tt
  else
    emit "@" ;;
    liftW (visit base expr).

Fixpoint forEachDecorator (decorators : list Node) : M unit :=
  match decorators with
  | [] => ret tt
  | d :: rest => visitDecorator d ;; forEachDecorator rest
  end.

(** [visitDecorators(decorators)] *)
Definition visitDecorators (decorators : option (list Node)) : M unit :=
  match decorators with
  | None => ret tt
  | Some decorators => forEachDecorator decorators
  end.
End Decorators.

(** The decorator [d] is [@CONST] or [@CONST(..)]. *)
Definition isCONST (d : Node) : bool :=
  match expression d with
  | None => false
  | Some expr =>
      if decide (kind expr = Identifier) then String.eqb (text expr) "CONST"
      else if decide (kind expr = CallExpression) then
        match expression expr with
        | Some callee =>
            bool_decide (kind callee = Identifier) && String.eqb (text callee) "CONST"
        | None => false
        end
      else false
  end.

(** ** Concrete nodes, checkers and collaborators

    Small programs and a small checker on which the definitions above can
    be run. *)

Definition leaf (i : nat) (k : SyntaxKind) : Node :=
  {| id := i; kind := k; flags := 0; text := EmptyString; name := None;
     expression := None; arguments := []; type := None; initializer := None;
     questionToken := None; typeParameters := None; parameters := [];
     body := None; declarations := [] |}.

Definition identifierNode (i : nat) (t : string) : Node :=
  {| id := i; kind := Identifier; flags := 0; text := t; name := None;
     expression := None; arguments := []; type := None; initializer := None;
     questionToken := None; typeParameters := None; parameters := [];
     body := None; declarations := [] |}.

(** [receiver.member] *)
Definition propertyAccessNode (i : nat) (receiver member : Node) : Node :=
  {| id := i; kind := PropertyAccessExpression; flags := 0; text := EmptyString;
     name := Some member; expression := Some receiver; arguments := []; type := None;
     initializer := None; questionToken := None; typeParameters := None;
     parameters := []; body := None; declarations := [] |}.

(** [callee(args)] *)
Definition callNode (i : nat) (callee : Node) (args : list Node) : Node :=
  {| id := i; kind := CallExpression; flags := 0; text := EmptyString; name := None;
     expression := Some callee; arguments := args; type := None; initializer := None;
     questionToken := None; typeParameters := None; parameters := [];
     body := None; declarations := [] |}.

(** A parameter [pname], [pname?] or [pname = init]. *)
Definition parameterNode (i : nat) (pname : Node) (init question : option Node) : Node :=
  {| id := i; kind := Parameter_; flags := 0; text := EmptyString; name := Some pname;
     expression := None; arguments := []; type := None; initializer := init;
     questionToken := question; typeParameters := None; parameters := [];
     body := None; declarations := [] |}.

(** A declarator [vname : ty = init] of a variable declaration list. *)
Definition variableDeclarationNode (i : nat) (vname : Node) (ty init : option Node) : Node :=
  {| id := i; kind := VariableDeclaration; flags := 0; text := EmptyString;
     name := Some vname; expression := None; arguments := []; type := ty;
     initializer := init; questionToken := None; typeParameters := None;
     parameters := []; body := None; declarations := [] |}.

Definition variableDeclarationListNode (i : nat) (ds : list Node) : Node :=
  {| id := i; kind := VariableDeclarationList; flags := 0; text := EmptyString;
     name := None; expression := None; arguments := []; type := None;
     initializer := None; questionToken := None; typeParameters := None;
     parameters := []; body := None; declarations := ds |}.

Definition enumMemberNode (i : nat) (mname : Node) (init : option Node) : Node :=
  {| id := i; kind := EnumMember; flags := 0; text := EmptyString; name := Some mname;
     expression := None; arguments := []; type := None; initializer := init;
     questionToken := None; typeParameters := None; parameters := [];
     body := None; declarations := [] |}.

(** A function declaration [function fname<tps>(ps) body]. *)
Definition functionNode (i : nat) (fname : Node) (tps : option (list Node))
    (ps : list Node) (b : option Node) : Node :=
  {| id := i; kind := FunctionDeclaration; flags := 0; text := EmptyString;
     name := Some fname; expression := None; arguments := []; type := None;
     initializer := None; questionToken := None; typeParameters := tps;
     parameters := ps; body := b; declarations := [] |}.

Definition emptyWorld : World :=
  {| output := []; errors := []; genericMethodDeclDepth := 0 |}.

Definition initialState : State :=
  {| world := emptyWorld; symbolLookups := []; ruleCalls := [] |}.

(** A driver that prints the text of the node it is given, and throws on a
    node of kind [Block]. *)
Definition printingVisit (n : Node) : W unit :=
  fun w =>
    if bool_decide (kind n = Block) then (Raised (Error "unsupported"), w)
    else (Returned tt,
          {| output := output w ++ [text n];
             errors := errors w;
             genericMethodDeclDepth := genericMethodDeclDepth w |}).

Fixpoint printingVisitList (ns : list Node) : W unit :=
  fun w =>
    match ns with
    | [] => (Returned tt, w)
    | n :: rest =>
        match printingVisit (default n (name n)) w with
        | (Returned _, w') => printingVisitList rest w'
        | other => other
        end
    end.

Definition printingBase : TranspilerBase :=
  {| visit := printingVisit;
     visitList := printingVisitList;
     hasFlag := fun n mask => masked (flags n) mask;
     getRelativeFileName := fun s => s |}.

Definition sampleLib : TsLib :=
  {| SymbolFlags_Alias := 8388608;
     SymbolFlags_Class := 32;
     SymbolFlags_Function := 16;
     SymbolFlags_Variable := 3;
     TypeFlags_TypeParameter := 512;
     NodeFlags_Const := 32768 |}.

(** Rules that emit one token and return nothing, except the rule for
    [Promise], which declines. *)
Definition sampleCallRule (key : string) : CallHandler :=
  fun c context w =>
    if String.eqb key "Promise" then (Returned (VBool true), w)
    else (Returned VUndefined,
          {| output := output w ++ [key];
             errors := errors w;
             genericMethodDeclDepth := genericMethodDeclDepth w |}).

Definition samplePropertyRule (key : string) : PropertyHandler :=
  fun pa w =>
    (Returned VUndefined,
     {| output := output w ++ [key];
        errors := errors w;
        genericMethodDeclDepth := genericMethodDeclDepth w |}).

(** Every node sits in [lib.d.ts], except those with an odd identity, which
    sit in [lib.es6.d.ts]; nobody has a parent. *)
Definition sampleTree : SourceTree :=
  {| parent := fun _ => None;
     sourceFileName := fun n => if Nat.even (id n) then "lib.d.ts" else "lib.es6.d.ts" |}.

(** The method symbol [Array.push], declared by node 100 of [lib.d.ts]. *)
Definition pushSymbol : Symbol :=
  {| sym_id := 1; sym_flags := 8192; sym_name := "push";
     valueDeclaration := Some (leaf 100 MethodSignature);
     sym_declarations := Some [leaf 100 MethodSignature] |}.

(** The interface symbol [Array], declared by node 102 of [lib.d.ts]. *)
Definition arraySymbol : Symbol :=
  {| sym_id := 2; sym_flags := 64; sym_name := "Array";
     valueDeclaration := None;
     sym_declarations := Some [leaf 102 (OtherKind 0)] |}.

(** The interface symbol [Array] of the other standard library, declared
    by node 103 of [lib.es6.d.ts]. *)
Definition arrayEs6Symbol : Symbol :=
  {| sym_id := 4; sym_flags := 64; sym_name := "Array";
     valueDeclaration := None;
     sym_declarations := Some [leaf 103 (OtherKind 0)] |}.

(** The function symbol [Promise], declared by node 104 of [lib.d.ts]. *)
Definition promiseSymbol : Symbol :=
  {| sym_id := 3; sym_flags := 16; sym_name := "Promise";
     valueDeclaration := Some (leaf 104 FunctionDeclaration);
     sym_declarations := Some [leaf 104 FunctionDeclaration] |}.

(** A checker that knows the nodes 10 ([xs.push], the symbol [Array.push]),
    11 (an expression of type [Array]), 12 (the callee [Promise]), 15 (an
    expression of the type [Array] of [lib.es6.d.ts]) and nothing else. *)
Definition sampleChecker : TypeChecker :=
  {| getSymbolAtLocation := fun n =>
       if Nat.eqb (id n) 10 then Some pushSymbol
       else if Nat.eqb (id n) 12 then Some promiseSymbol
       else None;
     getAliasedSymbol := fun s => s;
     getFullyQualifiedName := fun s =>
       if Nat.eqb (sym_id s) 1 then "Array.push" else sym_name s;
     getTypeAtLocation := fun n =>
       if Nat.eqb (id n) 11 then Some {| ty_flags := 0; ty_symbol := Some arraySymbol |}
       else if Nat.eqb (id n) 15
       then Some {| ty_flags := 0; ty_symbol := Some arrayEs6Symbol |}
       else Some {| ty_flags := 0; ty_symbol := None |} |}.

Definition sampleConverter : FacadeConverter :=
  setTypeChecker (sourceFacadeConverter sampleCallRule samplePropertyRule) sampleChecker.

(** [xs.push] *)
Definition pushCallee : Node :=
  propertyAccessNode 10 (identifierNode 30 "xs") (identifierNode 31 "push").

(** [xs.push(x)] *)
Definition pushCall : Node := callNode 20 pushCallee [identifierNode 32 "x"].

(** The state in which handling [xs.push(x)] leaves the sample converter. *)
Definition pushCallHandled : State :=
  {| world := {| output := ["Array.push"]; errors := []; genericMethodDeclDepth := 0 |};
     symbolLookups := [pushCallee];
     ruleCalls := [pushCall] |}.

(** [Promise(x)] *)
Definition promiseCall : Node :=
  callNode 21 (identifierNode 12 "Promise") [identifierNode 32 "x"].

(** [xs.frob(x)] *)
Definition frobCall : Node :=
  callNode 22 (propertyAccessNode 13 (identifierNode 30 "xs") (identifierNode 33 "frob"))
           [identifierNode 32 "x"].

(** The slice of the standard runtime that the examples read:
    [Object.prototype.constructor] is the function [Object], [Object.is]
    compares its two arguments, [Object(x)] is the object [x], and every
    other read gives [undefined]. *)
Inductive StdValue : Set :=
| stdUndefined
| stdObject
| stdObjectIs.

Definition standardRuntime : Runtime :=
  {| Alien := StdValue;
     inherited := fun key =>
       Returned (if String.eqb key "constructor" then stdObject else stdUndefined);
     alienGet := fun x key =>
       Returned match x with
                | stdObject => if String.eqb key "is" then stdObjectIs else stdUndefined
                | _ => stdUndefined
                end;
     alienHasOwn := fun x key =>
       Returned match x with
                | stdObject => String.eqb key "is"
                | _ => false
                end;
     alienCall := fun x args w =>
       match x with
       | stdObjectIs =>
           match args with
           | [Some a; Some b] => (Returned (VBool (sameNode a b)), w)
           | _ => (Returned (VBool false), w)
           end
       | stdObject => (Returned (VOther true), w)
       | stdUndefined => (Raised TypeError, w)
       end;
     alienVal := fun x =>
       match x with
       | stdUndefined => VUndefined
       | _ => VOther true
       end;
     alienText := fun x =>
       match x with
       | stdUndefined => "undefined"
       | stdObject => "function Object() { [native code] }"
       | stdObjectIs => "function is() { [native code] }"
       end |}.

(** ** Notions the properties are stated with *)

(** The callee name that [getCallInformation] tests against the candidate
    set: the identifier of a direct call, the property name of a method
    call. *)
Definition calleeName (c : Node) : option string :=
  match expression c with
  | Some expr =>
      if decide (kind expr = Identifier) then Some (text expr)
      else if decide (kind expr = PropertyAccessExpression) then
        match name expr with
        | Some member => if decide (kind member = Identifier) then Some (text member) else None
        | None => None
        end
      else None
  | None => None
  end.

(** The symbol [n] alias steps away from [symbol]. *)
Fixpoint aliasTarget (checker : TypeChecker) (n : nat) (symbol : Symbol) : Symbol :=
  match n with
  | O => symbol
  | S n' => aliasTarget checker n' (getAliasedSymbol checker symbol)
  end.

(** A call rule is located for the call [c] in state [s]: a checker is set,
    [getCallInformation] understands the call, [getFileAndName] gives the
    callee's canonical key, and [callHandlers] has a rule under that key.
    [s2] is the state once the rule has been looked up. *)
Definition locatesCallRule (base : TranspilerBase) (lib : TsLib) (ast : SourceTree)
    (fc : FacadeConverter) (fuel : nat) (c : Node) (s : State)
    (handler : CallHandler) (context : option Node) (s2 : State) : Prop :=
  is_Some (tc fc)
  /\ exists symbol s1 loc fileSubs,
       getCallInformation fc c s = (Normal (context, Some symbol), s1)
       /\ getFileAndName base lib ast fc fuel c symbol s1 = (Normal (Some loc), s2)
       /\ callHandlers fc !! fileName loc = Some fileSubs
       /\ fileSubs !! qname loc = Some handler.

(** The read of the call-rule table for the call [c] finds no registered
    rule but a truthy member of the runtime, [x], which the source then
    calls in the rule's place.  [s2] is the state once the table has been
    read. *)
Definition locatesForeignCall (base : TranspilerBase) (lib : TsLib) (ast : SourceTree)
    (rt : Runtime) (fc : FacadeConverter) (fuel : nat) (c : Node) (s : State)
    (x : Alien rt) (context : option Node) (s2 : State) : Prop :=
  is_Some (tc fc)
  /\ exists symbol s1,
       getCallInformation fc c s = (Normal (context, Some symbol), s1)
       /\ getHandler base lib ast rt fc fuel c symbol (callHandlers fc) s1
          = (Normal (Foreign x), s2)
       /\ truthy (alienVal rt x) = true.

(** The state in which a call of a member of the runtime leaves the
    converter, when the call left the world [w]: no rule is recorded. *)
Definition afterForeign (s2 : State) (w : World) : State :=
  {| world := w; symbolLookups := symbolLookups s2; ruleCalls := ruleCalls s2 |}.

(** The state in which a rule looked up for node [n] leaves the converter,
    when the rule itself left the world [w]. *)
Definition afterRule (n : Node) (s2 : State) (w : World) : State :=
  {| world := w; symbolLookups := symbolLookups s2; ruleCalls := n :: ruleCalls s2 |}.

(** The state after one more token, one more diagnostic, one more question
    to the checker. *)
Definition emitted (s : State) (token : string) : State :=
  {| world := {| output := output (world s) ++ [token];
                 errors := errors (world s);
                 genericMethodDeclDepth := genericMethodDeclDepth (world s) |};
     symbolLookups := symbolLookups s;
     ruleCalls := ruleCalls s |}.

Definition reported (s : State) (n : Node) (msg : string) : State :=
  {| world := {| output := output (world s);
                 errors := errors (world s) ++ [(n, msg)];
                 genericMethodDeclDepth := genericMethodDeclDepth (world s) |};
     symbolLookups := symbolLookups s;
     ruleCalls := ruleCalls s |}.

Definition asked (s : State) (n : Node) : State :=
  {| world := world s; symbolLookups := n :: symbolLookups s; ruleCalls := ruleCalls s |}.

(** An unresolved candidate type name: the identifier [Promise] at a place
    the sample checker knows nothing about. *)
Definition unresolvedPromise : Node := identifierNode 40 "Promise".

(** An expression whose type is the [Array] of [lib.d.ts], and one whose
    type is the [Array] of [lib.es6.d.ts]. *)
Definition arrayExpression : Node := leaf 11 (OtherKind 1).
Definition arrayEs6Expression : Node := leaf 15 (OtherKind 1).




(** *** Generic scopes *)

(** The collaborator [w] leaves the depth counter as it found it, however
    it ends. *)
Definition keepsDepthW {A} (w : W A) : Prop :=
  forall w0 c w1, w w0 = (c, w1) -> genericMethodDeclDepth w1 = genericMethodDeclDepth w0.

(** [m] ends, by returning or by throwing, with the depth counter as it
    found it. *)
Definition steady {A} (m : M A) : Prop :=
  forall s o s', m s = (o, s') ->
    genericMethodDeclDepth (world s') = genericMethodDeclDepth (world s)
    /\ o <> OutOfFuel.

(** The state [s] with the depth counter at [d]. *)
Definition atDepth (s : State) (d : Z) : State :=
  {| world := {| output := output (world s);
                 errors := errors (world s);
                 genericMethodDeclDepth := d |};
     symbolLookups := symbolLookups s;
     ruleCalls := ruleCalls s |}.

(** By how much a function-like declaration deepens the generic scope. *)
Definition typeParameterScope (fn : Node) : Z :=
  if present (typeParameters fn) then 1 else 0.

(** A driver that keeps the counter and fails on blocks, and a generic
    function [function f<T>(x) { .. }] whose body is a block. *)
Definition typeParameterT : Node :=
  {| id := 52; kind := OtherKind 2; flags := 0; text := EmptyString;
     name := Some (identifierNode 56 "T"); expression := None; arguments := [];
     type := None; initializer := None; questionToken := None; typeParameters := None;
     parameters := []; body := None; declarations := [] |}.

Definition genericFunction : Node :=
  functionNode 50 (identifierNode 51 "f") (Some [typeParameterT])
    [parameterNode 53 (identifierNode 54 "x") None None]
    (Some (leaf 55 Block)).

(** *** Enum members *)

Definition msgEnumInitializer : string := "enum initializers are not supported".

(** The state [s] with the world [w] in place of its own. *)
Definition inWorld (s : State) (w : World) : State :=
  {| world := w; symbolLookups := symbolLookups s; ruleCalls := ruleCalls s |}.

(** [s] ends with [suffix]. *)
Fixpoint endsWith (suffix s : string) : bool :=
  String.eqb s suffix
  || match s with
     | EmptyString => false
     | String _ rest => endsWith suffix rest
     end.

(** Modelled from the spec: the error catalogue of section 7.  The kinds
    are the spec's; each is given the diagnostics of the source that fall
    under it, by their fixed text, or by their fixed beginning or end where
    the text carries a name. *)
Inductive ErrorKind : Set :=
| UnresolvedCandidateSymbol
| NoDeclarationForSymbol
| InvalidPropertyForNamedParameter
| MalformedVariableDeclarationList
| EmptyEnumUnsupported
| ConstEnumUnsupported
| ProtectedVisibilityUnsupported
| NamingConventionMismatch
| AmbiguousInitializer
| UnsupportedRestParameter.

Definition catalogueKind (msg : string) : option ErrorKind :=
  if String.prefix "Untyped property access to " msg then Some UnresolvedCandidateSymbol
  else if String.prefix "no declarations for symbol " msg then Some NoDeclarationForSymbol
  else if endsWith " used for named parameter definition must be a property" msg
  then Some InvalidPropertyForNamedParameter
  else if String.eqb msg "Variables in a declaration list of more than one variable cannot by typed"
  then Some MalformedVariableDeclarationList
  else if String.eqb msg "empty enums are not supported" then Some EmptyEnumUnsupported
  else if String.eqb msg "const enums are not supported" then Some ConstEnumUnsupported
  else if String.eqb msg "protected declarations are unsupported"
  then Some ProtectedVisibilityUnsupported
  else if String.prefix "private members must be prefixed with " msg
  then Some NamingConventionMismatch
  else if String.prefix "public members must not be prefixed with " msg
  then Some NamingConventionMismatch
  else if String.eqb msg "cannot have both an inner and outer initializer"
  then Some AmbiguousInitializer
  else if String.eqb msg "rest parameters are unsupported" then Some UnsupportedRestParameter
  else None.

(** The enum member [A = 1]. *)
Definition initializedMember : Node :=
  enumMemberNode 60 (identifierNode 61 "A") (Some (leaf 62 (OtherKind 3))).

(** *** Variable declaration lists *)

(** Whether a declarator of a [const] list is initialised by a call of
    [CONST_EXPR]. *)
Definition initializedByConstExpr (varDecl : Node) : bool :=
  match initializer varDecl with
  | Some init =>
      bool_decide (kind init = CallExpression)
      && match expression init with
         | Some callee => bool_decide (ident callee = Some "CONST_EXPR")
         | None => false
         end
  | None => false
  end.

(** The keyword that opens the declaration of the first declarator. *)
Definition leadingKeyword (base : TranspilerBase) (lib : TsLib) (declList varDecl : Node)
    : list string :=
  if hasFlag base declList (NodeFlags_Const lib) then
    if initializedByConstExpr varDecl then ["const"] else ["final"]
  else [].

(** A call expression used as an initializer has a callee. *)
Definition initializerWellFormed (varDecl : Node) : Prop :=
  forall init, initializer varDecl = Some init ->
    kind init = CallExpression -> is_Some (expression init).

(** The state [s] after the tokens [tokens]. *)
Definition emittedAll (s : State) (tokens : list string) : State :=
  {| world := {| output := output (world s) ++ tokens;
                 errors := errors (world s);
                 genericMethodDeclDepth := genericMethodDeclDepth (world s) |};
     symbolLookups := symbolLookups s;
     ruleCalls := ruleCalls s |}.

(** The declarators of [for (let i: number = 0, j: number = 1; ..)] and of
    [for (let k: number = 0; ..)]; nodes 70 and 75 are the lists. *)
Definition declaratorI : Node :=
  variableDeclarationNode 71 (identifierNode 72 "i") (Some (identifierNode 73 "number")) None.
Definition declaratorJ : Node :=
  variableDeclarationNode 74 (identifierNode 76 "j") (Some (identifierNode 73 "number")) None.
Definition declaratorK : Node :=
  variableDeclarationNode 77 (identifierNode 78 "k") (Some (identifierNode 73 "number")) None.
Definition listIJ : Node := variableDeclarationListNode 70 [declaratorI; declaratorJ].
Definition listK : Node := variableDeclarationListNode 75 [declaratorK].

Definition loopTree : SourceTree :=
  {| parent := fun n =>
       if Nat.eqb (id n) 71 || Nat.eqb (id n) 74 then Some listIJ
       else if Nat.eqb (id n) 77 then Some listK
       else None;
     sourceFileName := fun _ => "loop.ts" |}.

(** *** Parameter lists *)

(** The parameter's name is an object binding pattern. *)
Definition destructured (p : Node) : bool :=
  match name p with
  | Some pname => bool_decide (kind pname = ObjectBindingPattern)
  | None => false
  end.

(** The parameters the loop of [visitParameters] steps over: those without
    initializer and question mark, and the destructured ones. *)
Definition staysRequired (p : Node) : bool := negb (isOpt p) || destructured p.

(** The number of leading elements of [ps] that satisfy [f]. *)
Fixpoint leadingCount (f : Node -> bool) (ps : list Node) : nat :=
  match ps with
  | p :: rest => if f p then S (leadingCount f rest) else O
  | [] => O
  end.

(** The grouping in the words of the specification (sections 4.4 and 8):
    the required prefix is made of the leading parameters with neither
    initializer nor question mark whose name is not a destructuring pattern;
    the optional group is made of the remaining parameters that are not
    destructured. *)
Definition specRequired (p : Node) : bool :=
  negb (present (initializer p)) && negb (present (questionToken p)) && negb (destructured p).

Definition specRequiredPrefix (ps : list Node) : list Node :=
  take (leadingCount specRequired ps) ps.

Definition specOptionalGroup (ps : list Node) : list Node :=
  List.filter (fun p => negb (destructured p)) (drop (leadingCount specRequired ps) ps).

(** The parameters [{a, b}], [x?] and [y]. *)
Definition destructuredParam : Node :=
  parameterNode 80
    {| id := 81; kind := ObjectBindingPattern; flags := 0; text := "{a, b}";
       name := None; expression := None; arguments := []; type := None;
       initializer := None; questionToken := None; typeParameters := None;
       parameters := []; body := None; declarations := [] |}
    None None.
Definition optionalParam : Node :=
  parameterNode 82 (identifierNode 83 "x") None (Some (leaf 84 (OtherKind 4))).
Definition plainParam : Node := parameterNode 85 (identifierNode 86 "y") None None.

(** ** Further notions *)

(** [c] occurs in [s]. *)
Fixpoint occurs (c : ascii) (s : string) : bool :=
  match s with
  | EmptyString => false
  | String a rest => Ascii.eqb a c || occurs c rest
  end.

(** [n] times [../] *)
Fixpoint parentDirs (n : nat) : string :=
  match n with
  | O => EmptyString
  | S n' => "../" ++ parentDirs n'
  end.

(** A property rule is located for the property access [pa] in state [s]:
    a checker is set, the property name is a candidate, the checker finds
    its symbol, [getFileAndName] gives the symbol's canonical key, and
    [propertyHandlers] has a rule under that key.  [s2] is the state once
    the rule has been looked up. *)
Definition locatesPropertyRule (base : TranspilerBase) (lib : TsLib) (ast : SourceTree)
    (fc : FacadeConverter) (fuel : nat) (pa : Node) (s : State)
    (handler : PropertyHandler) (s2 : State) : Prop :=
  exists checker member symbol loc fileSubs,
    tc fc = Some checker
    /\ name pa = Some member
    /\ text member ∈ candidateProperties fc
    /\ getSymbolAtLocation checker member = Some symbol
    /\ getFileAndName base lib ast fc fuel pa symbol (asked s member) = (Normal (Some loc), s2)
    /\ propertyHandlers fc !! fileName loc = Some fileSubs
    /\ fileSubs !! qname loc = Some handler.

(** The read of the property-rule table for the property access [pa] finds
    no registered rule but a truthy member of the runtime, [x], which the
    source then calls in the rule's place. *)
Definition locatesForeignProperty (base : TranspilerBase) (lib : TsLib) (ast : SourceTree)
    (rt : Runtime) (fc : FacadeConverter) (fuel : nat) (pa : Node) (s : State)
    (x : Alien rt) (s2 : State) : Prop :=
  exists checker member symbol,
    tc fc = Some checker
    /\ name pa = Some member
    /\ text member ∈ candidateProperties fc
    /\ getSymbolAtLocation checker member = Some symbol
    /\ getHandler base lib ast rt fc fuel pa symbol (propertyHandlers fc) (asked s member)
       = (Normal (Foreign x), s2)
    /\ truthy (alienVal rt x) = true.

(** The text of the diagnostic for a symbol without declarations. *)
Definition noDeclarationsMessage (symbol : Symbol) : string :=
  "no declarations for symbol " ++ sym_name symbol.

(** The modules listed in [callHandlerReplaceNew]. *)
Definition isReplaceNewModule (module : string) : bool :=
  String.eqb module "es6-promise/es6-promise" || String.eqb module "es6-shim/es6-shim".

(** The read [callHandlerReplaceNew[fileName][qname]] of the table of the
    source finds something truthy at the key [loc]: in one of the two
    listed modules, the [true] registered for [Promise] or a truthy member
    of [Object.prototype] under the name; under any other module name, a
    truthy member of [Object.prototype] that has a truthy property under
    the name. *)
Definition replaceNewFound (rt : Runtime) (loc : FileAndName) : Prop :=
  (isReplaceNewModule (fileName loc) = true
   /\ (qname loc = "Promise"
       \/ exists x, qname loc <> "Promise"
                    /\ inherited rt (qname loc) = Returned x
                    /\ truthy (alienVal rt x) = true))
  \/ (isReplaceNewModule (fileName loc) = false
      /\ exists x y, inherited rt (fileName loc) = Returned x
                     /\ truthy (alienVal rt x) = true
                     /\ alienGet rt x (qname loc) = Returned y
                     /\ truthy (alienVal rt y) = true).

(** The keyword that opens the declaration of an untyped first
    declarator. *)
Definition untypedKeyword (base : TranspilerBase) (lib : TsLib) (declList varDecl : Node)
    : string :=
  if hasFlag base declList (NodeFlags_Const lib) then
    if initializedByConstExpr varDecl then "const" else "final"
  else "var".

(** The collaborator [m] only adds to what has been written: the tokens and
    the diagnostics it found are still there, in place, when it ends, and
    the depth counter is as it found it. *)
Definition extendsW {A} (m : W A) : Prop :=
  forall w c w', m w = (c, w') ->
    output w `prefix_of` output w'
    /\ errors w `prefix_of` errors w'
    /\ genericMethodDeclDepth w' = genericMethodDeclDepth w.

(** ** Further concrete inputs *)

(** An import alias of [Array.push]: an alias symbol with no declaration of
    its own. *)
Definition aliasSymbol : Symbol :=
  {| sym_id := 5; sym_flags := 8388608; sym_name := "P";
     valueDeclaration := None; sym_declarations := None |}.

(** A property symbol that has lost its declarations. *)
Definition bareSymbol : Symbol :=
  {| sym_id := 6; sym_flags := 4; sym_name := "ghost";
     valueDeclaration := None; sym_declarations := None |}.

(** The property symbol [Map.size], declared by node 201 of the typings of
    [es6-shim]. *)
Definition mapSizeSymbol : Symbol :=
  {| sym_id := 7; sym_flags := 4; sym_name := "size";
     valueDeclaration := Some (leaf 201 (OtherKind 5));
     sym_declarations := Some [leaf 201 (OtherKind 5)] |}.

(** The variable symbol [Map], declared by node 203 of the collection
    facade. *)
Definition mapSymbol : Symbol :=
  {| sym_id := 8; sym_flags := 2; sym_name := "Map";
     valueDeclaration := Some (leaf 203 VariableDeclaration);
     sym_declarations := Some [leaf 203 VariableDeclaration] |}.

(** The class symbol [Promise], declared by node 205 of the typings of
    [es6-shim]. *)
Definition es6PromiseSymbol : Symbol :=
  {| sym_id := 9; sym_flags := 32; sym_name := "Promise";
     valueDeclaration := Some (leaf 205 (OtherKind 6));
     sym_declarations := Some [leaf 205 (OtherKind 6)] |}.

(** The type parameter [T] of the function [f] above, declared by node 52. *)
Definition typeParameterSymbol : Symbol :=
  {| sym_id := 10; sym_flags := 262144; sym_name := "T";
     valueDeclaration := None;
     sym_declarations := Some [typeParameterT] |}.

(** The tree of a program that uses [es6-shim] and the collection facade;
    the type parameter [T] sits in the function [f]. *)
Definition shimTree : SourceTree :=
  {| parent := fun n => if Nat.eqb (id n) 52 then Some genericFunction else None;
     sourceFileName := fun n =>
       if Nat.eqb (id n) 201 || Nat.eqb (id n) 205
       then "../node_modules/es6-shim/es6-shim.d.ts"
       else if Nat.eqb (id n) 203 then "node_modules/angular2/src/facade/collection.ts"
       else "lib.d.ts" |}.

(** A checker for that program: node 120 names the alias, 121 [Map.size],
    122 the variable [Map], 123 the class [Promise], 124 the type parameter
    [T]; node 126 has a type whose symbol has lost its declarations. *)
Definition shimChecker : TypeChecker :=
  {| getSymbolAtLocation := fun n =>
       if Nat.eqb (id n) 120 then Some aliasSymbol
       else if Nat.eqb (id n) 121 then Some mapSizeSymbol
       else if Nat.eqb (id n) 122 then Some mapSymbol
       else if Nat.eqb (id n) 123 then Some es6PromiseSymbol
       else if Nat.eqb (id n) 124 then Some typeParameterSymbol
       else None;
     getAliasedSymbol := fun s => if Nat.eqb (sym_id s) 5 then pushSymbol else s;
     getFullyQualifiedName := fun s =>
       if Nat.eqb (sym_id s) 1 then "Array.push"
       else if Nat.eqb (sym_id s) 7 then "Map.size"
       else sym_name s;
     getTypeAtLocation := fun n =>
       if Nat.eqb (id n) 124
       then Some {| ty_flags := 512; ty_symbol := Some typeParameterSymbol |}
       else if Nat.eqb (id n) 126
       then Some {| ty_flags := 0; ty_symbol := Some bareSymbol |}
       else None |}.

(** The converter of the source with its own rules, run by the printing
    driver: a missing node prints nothing, every argument of [concat] is
    taken for an array, no call is inside a [CONST_EXPR], and calls have no
    type arguments. *)
Definition shimConverter : FacadeConverter :=
  setTypeChecker
    (theFacadeConverter printingBase (retW tt) printingVisitList (fun _ => retW true)
       (fun _ _ => None) (fun _ => None) (fun _ _ => retW tt))
    shimChecker.

(** [xs.frob], [xs.size] with a name the checker does not know, and
    [m.size] with one it knows. *)
Definition frobAccess : Node :=
  propertyAccessNode 13 (identifierNode 30 "xs") (identifierNode 33 "frob").

Definition unknownSizeAccess : Node :=
  propertyAccessNode 132 (identifierNode 30 "xs") (identifierNode 133 "size").

Definition sizeAccess : Node :=
  propertyAccessNode 134 (identifierNode 138 "m") (identifierNode 121 "size").

(** [push()] with a callee the checker does not know, [Map()], and
    [new Promise(x)]. *)
Definition unknownPushCall : Node := callNode 135 (identifierNode 136 "push") [].

Definition mapCall : Node := callNode 137 (identifierNode 122 "Map") [].

Definition newPromise : Node :=
  {| id := 139; kind := NewExpression; flags := 0; text := EmptyString; name := None;
     expression := Some (identifierNode 123 "Promise");
     arguments := [identifierNode 32 "x"]; type := None; initializer := None;
     questionToken := None; typeParameters := None; parameters := [];
     body := None; declarations := [] |}.

(** [var u] *)
Definition declaratorU : Node :=
  variableDeclarationNode 90 (identifierNode 91 "u") None None.
Definition listU : Node := variableDeclarationListNode 92 [declaratorU].

Definition untypedTree : SourceTree :=
  {| parent := fun n => if Nat.eqb (id n) 90 then Some listU else None;
     sourceFileName := fun _ => "u.ts" |}.

(** *** Inputs on which the code and the spec part ways *)

(** [import {is as push} from './constructor'; push(x)]: the function [is]
    is declared by node 301 of [constructor.ts], and [push] is the local
    name of its import. *)
Definition isFunctionSymbol : Symbol :=
  {| sym_id := 20; sym_flags := 16; sym_name := "is";
     valueDeclaration := Some (leaf 301 FunctionDeclaration);
     sym_declarations := Some [leaf 301 FunctionDeclaration] |}.

Definition importedAsPush : Symbol :=
  {| sym_id := 21; sym_flags := 8388608; sym_name := "push";
     valueDeclaration := None; sym_declarations := None |}.

Definition constructorTree : SourceTree :=
  {| parent := fun _ => None;
     sourceFileName := fun n =>
       if Nat.eqb (id n) 301 then "constructor.ts" else "lib.d.ts" |}.

(** A checker for that program: node 300 is the callee [push]; node 41 is a
    type name whose symbol has lost its declarations. *)
Definition importChecker : TypeChecker :=
  {| getSymbolAtLocation := fun n =>
       if Nat.eqb (id n) 300 then Some importedAsPush
       else if Nat.eqb (id n) 41 then Some bareSymbol
       else None;
     getAliasedSymbol := fun s => if Nat.eqb (sym_id s) 21 then isFunctionSymbol else s;
     getFullyQualifiedName := fun s => sym_name s;
     getTypeAtLocation := fun _ => None |}.

Definition importConverter : FacadeConverter :=
  setTypeChecker
    (theFacadeConverter printingBase (retW tt) printingVisitList (fun _ => retW true)
       (fun _ _ => None) (fun _ => None) (fun _ _ => retW tt))
    importChecker.

Definition importedCallee : Node := identifierNode 300 "push".
Definition importedCall : Node := callNode 302 importedCallee [identifierNode 32 "x"].

(** The candidate type name [Promise] at a place where the checker finds a
    symbol that has no declaration. *)
Definition undeclaredPromise : Node := identifierNode 41 "Promise".

(** A driver that prints each node it is given with a mark that tells
    whether the generic depth is zero at that moment. *)
Definition depthMark (w : World) : string :=
  if Z.eqb (genericMethodDeclDepth w) 0 then " at depth 0" else " in a generic scope".

Definition probingVisit (n : Node) : W unit :=
  fun w =>
    (Returned tt,
     {| output := output w ++ [text (default n (name n)) ++ depthMark w];
        errors := errors w;
        genericMethodDeclDepth := genericMethodDeclDepth w |}).

Fixpoint probingVisitList (ns : list Node) : W unit :=
  fun w =>
    match ns with
    | [] => (Returned tt, w)
    | n :: rest =>
        match probingVisit n w with
        | (Returned _, w') => probingVisitList rest w'
        | other => other
        end
    end.

Definition probingBase : TranspilerBase :=
  {| visit := probingVisit;
     visitList := probingVisitList;
     hasFlag := fun n mask => masked (flags n) mask;
     getRelativeFileName := fun s => s |}.

(** [<T>(x) => x] and [<T>(x) => { .. }] *)
Definition genericArrow (b : Node) : Node :=
  {| id := 60; kind := ArrowFunction; flags := 0; text := EmptyString; name := None;
     expression := None; arguments := []; type := None; initializer := None;
     questionToken := None; typeParameters := Some [typeParameterT];
     parameters := [parameterNode 53 (identifierNode 54 "x") None None];
     body := Some b; declarations := [] |}.

Definition expressionBody : Node := identifierNode 61 "x".

Definition blockBody : Node :=
  {| id := 62; kind := Block; flags := 0; text := "{ return x; }"; name := None;
     expression := None; arguments := []; type := None; initializer := None;
     questionToken := None; typeParameters := None; parameters := [];
     body := None; declarations := [] |}.

(** * Properties *)

Ltac run :=
  repeat (progress (unfold bind, ret, throw, req, liftW, modifyWorld in *; simpl in *)).

(** *** Running a sequence *)

Lemma bind_normal {A B} (m : M A) (k : A -> M B) (s s1 : State) (a : A) :
  m s = (Normal a, s1) -> bind m k s = k a s1.
Proof. intros H. unfold bind. rewrite H. reflexivity. Qed.

Section FacadeProperties.
Context (base : TranspilerBase) (lib : TsLib) (ast : SourceTree) (rt : Runtime).

(** C9. As long as no type checker has been set, [maybeHandleCall] returns
    [false], [handlePropertyAccess] returns [undefined] (falsy, and not the
    boolean [false]) and [shouldEmitNew] returns [true], for every node, and
    each leaves the state as it was: nothing is emitted, no diagnostic is
    reported, the checker is not asked anything. *)
Theorem no_type_checker_defaults (fc : FacadeConverter) (fuel : nat) (n : Node) (s : State) :
  tc fc = None ->
  maybeHandleCall base lib ast rt fc fuel n s = (Normal (VBool false), s)
  /\ handlePropertyAccess base lib ast rt fc fuel n s = (Normal VUndefined, s)
  /\ truthy VUndefined = false
  /\ VUndefined <> VBool false
  /\ shouldEmitNew base lib ast rt fc fuel n s = (Normal true, s).
Proof.
  intros Htc.
  unfold maybeHandleCall, handlePropertyAccess, shouldEmitNew.
  rewrite Htc. unfold ret. repeat split; discriminate.
Qed.

(** C6. A call whose callee name (the identifier of a direct call, the
    property name of a method call) is not a candidate property is left
    unhandled by [maybeHandleCall]: the result is [false], the checker's
    [getSymbolAtLocation] is not invoked, no rule is invoked, nothing is
    emitted and no diagnostic is reported. *)
Theorem maybeHandleCall_skips_non_candidates
    (fc : FacadeConverter) (fuel : nat) (c : Node) (callee : string) (s : State) :
  calleeName c = Some callee ->
  callee ∉ candidateProperties fc ->
  exists s',
    maybeHandleCall base lib ast rt fc fuel c s = (Normal (VBool false), s')
    /\ symbolLookups s' = symbolLookups s
    /\ ruleCalls s' = ruleCalls s
    /\ errors (world s') = errors (world s)
    /\ output (world s') = output (world s)
    /\ s' = s.
Proof.
  intros Hname Hcand. exists s.
  split; [|repeat split; reflexivity].
  unfold maybeHandleCall.
  destruct (tc fc) as [checker|]; [|reflexivity].
  unfold calleeName in Hname. unfold getCallInformation.
  destruct (expression c) as [expr|]; [|discriminate].
  run.
  destruct (decide (kind expr = Identifier)) as [Hid|Hid].
  - injection Hname as <-.
    unfold ident. rewrite decide_True by assumption. simpl.
    unfold hasOwnProperty. rewrite bool_decide_eq_false_2 by assumption.
    reflexivity.
  - destruct (decide (kind expr = PropertyAccessExpression)); [|discriminate].
    destruct (name expr) as [member|]; [|discriminate].
    destruct (decide (kind member = Identifier)) as [Hm|Hm]; [|discriminate].
    injection Hname as <-. simpl.
    unfold ident. rewrite decide_True by assumption. simpl.
    unfold hasOwnProperty. rewrite bool_decide_eq_false_2 by assumption.
    reflexivity.
Qed.

(** *** How the lookups leave the state *)

Lemma followAliases_state (fc : FacadeConverter) (fuel : nat) (symbol : Symbol)
    (s : State) (o : Outcome Symbol) (s' : State) :
  followAliases lib fc fuel symbol s = (o, s') -> s' = s.
Proof.
  revert symbol. induction fuel as [|fuel IH]; intros symbol; simpl.
  - destruct (masked _ _); unfold outOfFuel, ret; congruence.
  - destruct (masked _ _); [|unfold ret; congruence].
    run. destruct (tc fc) as [checker|]; simpl; [apply IH|congruence].
Qed.

(** The alias loop ends as soon as a symbol that is not an alias is reached:
    with a chain of [n] steps to such a symbol, any fuel from [n] on gives
    the first such symbol of the chain and leaves the state alone. *)
Lemma followAliases_enough_fuel (fc : FacadeConverter) (checker : TypeChecker)
    (n fuel : nat) (symbol : Symbol) (s : State) :
  tc fc = Some checker ->
  masked (sym_flags (aliasTarget checker n symbol)) (SymbolFlags_Alias lib) = false ->
  (n <= fuel)%nat ->
  exists k, (k <= n)%nat
    /\ masked (sym_flags (aliasTarget checker k symbol)) (SymbolFlags_Alias lib) = false
    /\ followAliases lib fc fuel symbol s = (Normal (aliasTarget checker k symbol), s).
Proof.
  intros Htc. revert fuel symbol.
  induction n as [|n IH]; intros fuel symbol Hend Hfuel.
  - exists O. split; [lia|]. split; [exact Hend|].
    simpl in Hend. destruct fuel; simpl; rewrite Hend; reflexivity.
  - destruct (masked (sym_flags symbol) (SymbolFlags_Alias lib)) eqn:Halias.
    + destruct fuel as [|fuel]; [lia|].
      destruct (IH fuel (getAliasedSymbol checker symbol) Hend ltac:(lia))
        as (k & Hk & Hstop & Hrun).
      exists (S k). split; [lia|]. split; [exact Hstop|].
      simpl. rewrite Halias, Htc. simpl.
      rewrite (bind_normal _ _ s s checker) by reflexivity. exact Hrun.
    + exists O. split; [lia|]. split; [exact Halias|].
      destruct fuel; simpl; rewrite Halias; reflexivity.
Qed.

Lemma getFileAndName_calls (fc : FacadeConverter) (fuel : nat) (n : Node) (symbol : Symbol)
    (s : State) (o : Outcome (option FileAndName)) (s' : State) :
  getFileAndName base lib ast fc fuel n symbol s = (o, s') ->
  ruleCalls s' = ruleCalls s /\ symbolLookups s' = symbolLookups s
  /\ output (world s') = output (world s).
Proof.
  unfold getFileAndName, bind at 1.
  destruct (followAliases lib fc fuel symbol s) as [[target|e|] s1] eqn:Hfollow;
    apply followAliases_state in Hfollow; subst s1.
  - destruct (representativeDeclaration target) as [decl|]; run.
    + destruct (tc fc); simpl; intros [= <- <-]; auto.
    + intros [= <- <-]; auto.
  - intros [= <- <-]; auto.
  - intros [= <- <-]; auto.
Qed.

Lemma getCallInformation_calls (fc : FacadeConverter) (c : Node)
    (s : State) (o : Outcome (option Node * option Symbol)) (s' : State) :
  getCallInformation fc c s = (o, s') ->
  ruleCalls s' = ruleCalls s /\ output (world s') = output (world s).
Proof.
  unfold getCallInformation. run.
  destruct (expression c) as [expr|]; simpl; [|intros [= <- <-]; auto].
  destruct (decide (kind expr = Identifier)).
  - destruct (negb _); [intros [= <- <-]; auto|].
    destruct (tc fc) as [checker|]; simpl; [|intros [= <- <-]; auto].
    unfold lookupSymbol.
    destruct (getSymbolAtLocation checker expr); simpl; intros [= <- <-]; auto.
  - destruct (decide (kind expr = PropertyAccessExpression)); [|intros [= <- <-]; auto].
    destruct (name expr) as [member|]; simpl; [|intros [= <- <-]; auto].
    destruct (negb _); [intros [= <- <-]; auto|].
    destruct (tc fc) as [checker|]; simpl; [|intros [= <- <-]; auto].
    unfold lookupSymbol.
    destruct (getSymbolAtLocation checker expr); simpl; intros [= <- <-]; auto.
Qed.

(** A read of a table leaves the records of the converter and the output
    alone. *)
Lemma getHandler_calls {T} (fc : FacadeConverter) (fuel : nat) (n : Node) (symbol : Symbol)
    (m : gmap string (gmap string T)) (s : State) (o : Outcome (Lookup (Alien rt) T))
    (s' : State) :
  getHandler base lib ast rt fc fuel n symbol m s = (o, s') ->
  ruleCalls s' = ruleCalls s /\ symbolLookups s' = symbolLookups s
  /\ output (world s') = output (world s).
Proof.
  unfold getHandler, bind at 1.
  destruct (getFileAndName base lib ast fc fuel n symbol s) as [[loc|e|] s1] eqn:Hloc;
    pose proof (getFileAndName_calls _ _ _ _ _ _ _ Hloc) as Hcalls.
  2,3: intros [= <- <-]; exact Hcalls.
  destruct loc as [loc|]; [|intros [= <- <-]; exact Hcalls].
  destruct (m !! fileName loc) as [fileSubs|].
  - destruct (fileSubs !! qname loc) as [h|]; [intros [= <- <-]; exact Hcalls|].
    unfold bind, liftC, ret.
    destruct (inherited rt (qname loc)); simpl; intros [= <- <-]; exact Hcalls.
  - unfold bind, liftC, ret.
    destruct (inherited rt (fileName loc)) as [x|e]; simpl;
      [|intros [= <- <-]; exact Hcalls].
    destruct (truthy (alienVal rt x)); simpl; [|intros [= <- <-]; exact Hcalls].
    destruct (alienGet rt x (qname loc)); simpl; intros [= <- <-]; exact Hcalls.
Qed.

(** [getHandler] hands back a registered entry exactly when the located key
    is a key of the table itself. *)
Lemma getHandler_Found {T} (fc : FacadeConverter) (fuel : nat) (n : Node) (symbol : Symbol)
    (m : gmap string (gmap string T)) (s : State) (h : T) (s2 : State) :
  getHandler base lib ast rt fc fuel n symbol m s = (Normal (Found h), s2)
  <-> exists loc fileSubs,
        getFileAndName base lib ast fc fuel n symbol s = (Normal (Some loc), s2)
        /\ m !! fileName loc = Some fileSubs
        /\ fileSubs !! qname loc = Some h.
Proof.
  unfold getHandler, bind at 1. split.
  - destruct (getFileAndName base lib ast fc fuel n symbol s) as [[loc|e|] s1];
      try discriminate.
    destruct loc as [loc|]; [|discriminate].
    destruct (m !! fileName loc) as [fileSubs|] eqn:Hfile.
    + destruct (fileSubs !! qname loc) as [h'|] eqn:Hq.
      * intros [= <- <-]. eauto.
      * unfold bind, liftC, ret.
        destruct (inherited rt (qname loc)); simpl; discriminate.
    + unfold bind, liftC, ret.
      destruct (inherited rt (fileName loc)) as [x|e]; simpl; [|discriminate].
      destruct (truthy (alienVal rt x)); simpl; [|discriminate].
      destruct (alienGet rt x (qname loc)); simpl; discriminate.
  - intros (loc & fileSubs & Hloc & Hfile & Hq).
    rewrite Hloc, Hfile, Hq. reflexivity.
Qed.

(** Every run of [maybeHandleCall] has one of three shapes: the one
    registered rule located for the call is invoked and its answer negated;
    or the read of the table finds a truthy member of the runtime, which is
    called in the rule's place; or nothing is called and the result is
    falsy. *)
Lemma maybeHandleCall_cases (fc : FacadeConverter) (fuel : nat) (c : Node)
    (s : State) (o : Outcome JSVal) (s' : State) :
  maybeHandleCall base lib ast rt fc fuel c s = (o, s') ->
  (exists handler context s2 ro w3,
     locatesCallRule base lib ast fc fuel c s handler context s2
     /\ handler c context (world s2) = (ro, w3)
     /\ s' = afterRule c s2 w3
     /\ ruleCalls s2 = ruleCalls s
     /\ o = match ro with
            | Returned r => Normal (jsNot r)
            | Raised e => Throw e
            end)
  \/ (exists x context s2 ro w3,
        locatesForeignCall base lib ast rt fc fuel c s x context s2
        /\ alienCall rt x [Some c; context] (world s2) = (ro, w3)
        /\ s' = afterForeign s2 w3
        /\ ruleCalls s2 = ruleCalls s
        /\ o = match ro with
               | Returned r => Normal (jsNot r)
               | Raised e => Throw e
               end)
  \/ (ruleCalls s' = ruleCalls s
      /\ output (world s') = output (world s)
      /\ (forall v, o = Normal v -> truthy v = false)
      /\ ~ (exists handler context s2,
              locatesCallRule base lib ast fc fuel c s handler context s2)
      /\ ~ (exists x context s2,
              locatesForeignCall base lib ast rt fc fuel c s x context s2)).
Proof.
  unfold maybeHandleCall.
  destruct (tc fc) as [checker|] eqn:Htc.
  2:{ intros [= <- <-]. right. right.
      split; [reflexivity|]. split; [reflexivity|].
      split; [intros v [= <-]; reflexivity|].
      split; [intros (h & ctx & s2 & [x Hx] & _)|intros (h & ctx & s2 & [x Hx] & _)];
        congruence. }
  unfold bind at 1.
  destruct (getCallInformation fc c s) as [[[context symbol]|e|] s1] eqn:Hinfo;
    pose proof (getCallInformation_calls _ _ _ _ _ Hinfo) as [Hrc1 Hout1].
  2,3: intros [= <- <-]; right; right;
       (split; [exact Hrc1|]); (split; [exact Hout1|]);
       (split; [intros v; discriminate|]);
       (split; [intros (h & ctx & s2 & _ & sym & s1' & loc & fs & H1 & _)
               |intros (h & ctx & s2 & _ & sym & s1' & H1 & _)]); congruence.
  simpl. destruct symbol as [symbol|].
  2:{ intros [= <- <-]. right. right.
      split; [exact Hrc1|]. split; [exact Hout1|].
      split; [intros v [= <-]; reflexivity|].
      split; [intros (h & ctx & s2 & _ & sym & s1' & loc & fs & H1 & _)
             |intros (h & ctx & s2 & _ & sym & s1' & H1 & _)]; congruence. }
  unfold bind at 1.
  destruct (getHandler base lib ast rt fc fuel c symbol (callHandlers fc) s1)
    as [[[handler| |x]|e|] s2] eqn:Hh;
    pose proof (getHandler_calls _ _ _ _ _ _ _ _ Hh) as (Hrc2 & _ & Hout2).
  - (* a registered rule *)
    unfold ret, bind, invokeRule, liftW. simpl.
    destruct (handler c context (world s2)) as [ro w3] eqn:Hrun.
    intros Heq. left. exists handler, context, s2, ro, w3.
    apply getHandler_Found in Hh as (loc & fileSubs & Hloc & Hfile & Hq).
    split.
    { split; [rewrite Htc; eauto|]. exists symbol, s1, loc, fileSubs. auto. }
    split; [exact Hrun|].
    destruct ro; injection Heq as <- <-; (split; [reflexivity|]);
      split; (congruence || reflexivity).
  - (* null *)
    intros [= <- <-]. right. right.
    split; [congruence|]. split; [congruence|].
    split; [intros v [= <-]; reflexivity|].
    split.
    + intros (h & ctx & t2 & _ & sym & s1' & loc & fs & H1 & H2 & H3 & H4).
      rewrite Hinfo in H1. injection H1 as <- <- <-.
      assert (Hf : getHandler base lib ast rt fc fuel c symbol (callHandlers fc) s1
                   = (Normal (Found h), t2)) by (apply getHandler_Found; eauto).
      congruence.
    + intros (y & ctx & t2 & _ & sym & s1' & H1 & H2 & _).
      rewrite Hinfo in H1. injection H1 as <- <- <-. congruence.
  - (* a member of the runtime *)
    unfold callForeign.
    destruct (truthy (alienVal rt x)) eqn:Htruthy; simpl.
    + unfold bind, liftW, ret. simpl.
      destruct (alienCall rt x [Some c; context] (world s2)) as [ro w3] eqn:Hrun.
      intros Heq. right. left. exists x, context, s2, ro, w3.
      split.
      { split; [rewrite Htc; eauto|]. exists symbol, s1. auto. }
      split; [exact Hrun|].
      destruct ro; injection Heq as <- <-; (split; [reflexivity|]);
        split; (congruence || reflexivity).
    + intros [= <- <-]. right. right.
      split; [congruence|]. split; [congruence|].
      split; [intros v [= <-]; exact Htruthy|].
      split.
      * intros (h & ctx & t2 & _ & sym & s1' & loc & fs & H1 & H2 & H3 & H4).
        rewrite Hinfo in H1. injection H1 as <- <- <-.
        assert (Hf : getHandler base lib ast rt fc fuel c symbol (callHandlers fc) s1
                     = (Normal (Found h), t2)) by (apply getHandler_Found; eauto).
        congruence.
      * intros (y & ctx & t2 & _ & sym & s1' & H1 & H2 & H3).
        rewrite Hinfo in H1. injection H1 as <- <- <-.
        rewrite Hh in H2. injection H2 as <- <-. congruence.
  - (* the lookup throws *)
    intros [= <- <-]. right. right.
    split; [congruence|]. split; [congruence|].
    split; [intros v; discriminate|].
    split.
    + intros (h & ctx & t2 & _ & sym & s1' & loc & fs & H1 & H2 & H3 & H4).
      rewrite Hinfo in H1. injection H1 as <- <- <-.
      assert (Hf : getHandler base lib ast rt fc fuel c symbol (callHandlers fc) s1
                   = (Normal (Found h), t2)) by (apply getHandler_Found; eauto).
      congruence.
    + intros (y & ctx & t2 & _ & sym & s1' & H1 & H2 & _).
      rewrite Hinfo in H1. injection H1 as <- <- <-. congruence.
  - (* the alias loop does not end *)
    intros [= <- <-]. right. right.
    split; [congruence|]. split; [congruence|].
    split; [intros v; discriminate|].
    split.
    + intros (h & ctx & t2 & _ & sym & s1' & loc & fs & H1 & H2 & H3 & H4).
      rewrite Hinfo in H1. injection H1 as <- <- <-.
      assert (Hf : getHandler base lib ast rt fc fuel c symbol (callHandlers fc) s1
                   = (Normal (Found h), t2)) by (apply getHandler_Found; eauto).
      congruence.
    + intros (y & ctx & t2 & _ & sym & s1' & H1 & H2 & _).
      rewrite Hinfo in H1. injection H1 as <- <- <-. congruence.
Qed.

Lemma locatesCallRule_functional (fc : FacadeConverter) (fuel : nat) (c : Node) (s : State)
    (h1 h2 : CallHandler) (ctx1 ctx2 : option Node) (t1 t2 : State) :
  locatesCallRule base lib ast fc fuel c s h1 ctx1 t1 ->
  locatesCallRule base lib ast fc fuel c s h2 ctx2 t2 ->
  h1 = h2 /\ ctx1 = ctx2 /\ t1 = t2.
Proof.
  intros (_ & sym1 & s1 & loc1 & fs1 & Ha & Hb & Hc & Hd)
         (_ & sym2 & s2 & loc2 & fs2 & Ha' & Hb' & Hc' & Hd').
  rewrite Ha in Ha'. injection Ha' as <- <- <-.
  rewrite Hb in Hb'. injection Hb' as <- <-.
  rewrite Hc in Hc'. injection Hc' as <-.
  rewrite Hd in Hd'. injection Hd' as <-.
  auto.
Qed.

Lemma locatesForeignCall_functional (fc : FacadeConverter) (fuel : nat) (c : Node)
    (s : State) (x1 x2 : Alien rt) (ctx1 ctx2 : option Node) (t1 t2 : State) :
  locatesForeignCall base lib ast rt fc fuel c s x1 ctx1 t1 ->
  locatesForeignCall base lib ast rt fc fuel c s x2 ctx2 t2 ->
  x1 = x2 /\ ctx1 = ctx2 /\ t1 = t2.
Proof.
  intros (_ & sym1 & s1 & Ha & Hb & _) (_ & sym2 & s2 & Ha' & Hb' & _).
  rewrite Ha in Ha'. injection Ha' as <- <- <-.
  rewrite Hb in Hb'. injection Hb' as <- <-.
  auto.
Qed.

(** [maybeHandleCall] invokes at most one call rule per call node: its run
    adds at most one entry to [ruleCalls], and adds one exactly when a
    registered rule is located under the callee's canonical key.  It returns
    [true] if and only if such a rule was run and returned a falsy
    continuation flag, or the read of the table found a truthy member of the
    runtime in the place of a rule and calling that member returned a falsy
    value.  Every other value it returns is falsy. *)
Lemma maybeHandleCall_at_most_one_rule (fc : FacadeConverter) (fuel : nat) (c : Node)
    (s : State) (o : Outcome JSVal) (s' : State) :
  maybeHandleCall base lib ast rt fc fuel c s = (o, s') ->
  (ruleCalls s' = ruleCalls s \/ ruleCalls s' = c :: ruleCalls s)
  /\ (ruleCalls s' = c :: ruleCalls s <->
      exists handler context s2,
        locatesCallRule base lib ast fc fuel c s handler context s2)
  /\ (o = Normal (VBool true) <->
      (exists handler context s2 r w3,
         locatesCallRule base lib ast fc fuel c s handler context s2
         /\ handler c context (world s2) = (Returned r, w3)
         /\ truthy r = false
         /\ s' = afterRule c s2 w3)
      \/ (exists x context s2 r w3,
            locatesForeignCall base lib ast rt fc fuel c s x context s2
            /\ alienCall rt x [Some c; context] (world s2) = (Returned r, w3)
            /\ truthy r = false
            /\ s' = afterForeign s2 w3))
  /\ (forall v, o = Normal v -> v <> VBool true -> truthy v = false).
Proof.
  intros Hrun.
  assert (Hcons : forall l : list Node, l <> c :: l).
  { intros l H. apply (f_equal (@length Node)) in H. simpl in H. lia. }
  assert (Hnot : forall r, Normal (jsNot r) = Normal (VBool true) -> truthy r = false).
  { intros r [= Hr]. destruct (truthy r); [discriminate Hr|reflexivity]. }
  assert (Hfalsy : forall r v, Normal (jsNot r) = Normal v -> v <> VBool true ->
                               truthy v = false).
  { intros r v [= <-] Hv. unfold jsNot in *. simpl.
    destruct (truthy r); [reflexivity|]. destruct Hv; reflexivity. }
  destruct (maybeHandleCall_cases _ _ _ _ _ _ Hrun)
    as [(handler & context & s2 & ro & w3 & Hloc & Hh & -> & Hrc & ->)
       |[(x & context & s2 & ro & w3 & Hloc & Hh & -> & Hrc & ->)
        |(Hsame & _ & Hfalse & Hnone & Hnone')]].
  - split; [right; simpl; congruence|].
    split; [split; [intros _; eauto|intros _; simpl; congruence]|].
    split; [split|].
    + destruct ro as [r|]; try discriminate.
      intros Hr. left. exists handler, context, s2, r, w3. auto using Hnot.
    + intros [(h & ctx & t2 & r & w & Hloc' & Hh' & Hr & _)
             |(y & ctx & t2 & r & w & (_ & sym & t1 & H1 & H2 & _) & _)].
      * destruct (locatesCallRule_functional _ _ _ _ _ _ _ _ _ _ Hloc Hloc') as (<- & <- & <-).
        rewrite Hh in Hh'. injection Hh' as -> <-.
        unfold jsNot. rewrite Hr. reflexivity.
      * destruct Hloc as (_ & sym' & t1' & loc & fs & H1' & H2' & H3' & H4').
        rewrite H1 in H1'. injection H1' as <- <- <-.
        assert (Hf : getHandler base lib ast rt fc fuel c sym (callHandlers fc) t1
                     = (Normal (Found handler), s2)) by (apply getHandler_Found; eauto).
        congruence.
    + intros v Hv Hne. destruct ro as [r|]; try discriminate. eauto.
  - split; [left; exact Hrc|].
    assert (Hnorule : ~ (exists handler context t2,
                           locatesCallRule base lib ast fc fuel c s handler context t2)).
    { intros (h & ctx & t2 & _ & sym' & t1' & loc & fs & H1' & H2' & H3' & H4').
      destruct Hloc as (_ & sym & t1 & H1 & H2 & _).
      rewrite H1 in H1'. injection H1' as <- <- <-.
      assert (Hf : getHandler base lib ast rt fc fuel c sym (callHandlers fc) t1
                   = (Normal (Found h), t2)) by (apply getHandler_Found; eauto).
      congruence. }
    split; [split; [simpl; rewrite Hrc; intros H; destruct (Hcons _ H)
                   |intros H; destruct (Hnorule H)]|].
    split; [split|].
    + destruct ro as [r|]; try discriminate.
      intros Hr. right. exists x, context, s2, r, w3. auto using Hnot.
    + intros [(h & ctx & t2 & r & w & Hloc' & _)
             |(y & ctx & t2 & r & w & Hloc' & Hh' & Hr & _)].
      * destruct Hnorule; eauto.
      * destruct (locatesForeignCall_functional _ _ _ _ _ _ _ _ _ _ Hloc Hloc')
          as (<- & <- & <-).
        rewrite Hh in Hh'. injection Hh' as -> <-.
        unfold jsNot. rewrite Hr. reflexivity.
    + intros v Hv Hne. destruct ro as [r|]; try discriminate. eauto.
  - split; [left; assumption|].
    split; [split; [intros H; rewrite Hsame in H; destruct (Hcons _ H)
                   |intros H; destruct (Hnone H)]|].
    split; [split|].
    + intros ->. specialize (Hfalse _ eq_refl). discriminate Hfalse.
    + intros [(h & ctx & s2 & r & w3 & Hloc & _)|(y & ctx & s2 & r & w3 & Hloc & _)];
        [destruct Hnone|destruct Hnone']; eauto.
    + intros v -> _. apply Hfalse. reflexivity.
Qed.


(** When the node's type has a symbol and the symbol has a canonical key,
    [isNamedType] answers [true] exactly when the expected module and the
    located one are the same string and the qualified names are the same
    string; an expected [lib] and a located [lib.es6] do not match. *)
Lemma isNamedType_compares_keys (fc : FacadeConverter) (fuel : nat) (node : Node)
    (expectedFile expectedName : string) (s s1 : State)
    (checker : TypeChecker) (t : TsType) (symbol : Symbol) (actual : FileAndName) :
  tc fc = Some checker ->
  getTypeAtLocation checker node = Some t ->
  ty_symbol t = Some symbol ->
  getFileAndName base lib ast fc fuel node symbol s = (Normal (Some actual), s1) ->
  isNamedType base lib ast fc fuel node expectedFile expectedName s
  = (Normal (bool_decide (expectedFile = fileName actual /\ expectedName = qname actual)), s1).
Proof.
  intros Htc Hty Hsym Hloc.
  unfold isNamedType. rewrite Htc. simpl.
  rewrite (bind_normal _ _ s s checker) by reflexivity.
  rewrite Hty. rewrite (bind_normal _ _ s s t) by reflexivity.
  rewrite Hsym. rewrite (bind_normal _ _ _ _ _ Hloc).
  rewrite (bind_normal _ _ s1 s1 actual) by reflexivity.
  unfold ret.
  destruct (String.eqb_spec expectedFile "lib") as [Hlib|Hlib];
    destruct (String.eqb_spec (fileName actual) "lib") as [Ha|Ha];
    destruct (String.eqb_spec (fileName actual) "lib.es6") as [He|He];
    destruct (String.eqb_spec expectedFile (fileName actual)) as [Hf|Hf];
    destruct (String.eqb_spec expectedName (qname actual)) as [Hq|Hq];
    simpl; f_equal; f_equal;
    try (symmetry; apply bool_decide_eq_true_2; split; assumption);
    try (symmetry; apply bool_decide_eq_false_2; intros [? ?]; contradiction);
    try congruence.
Qed.
End FacadeProperties.

(** ** Properties of the declaration transpiler *)

Section DeclarationProperties.
Context (base : TranspilerBase) (lib : TsLib) (ast : SourceTree).

(** *** Steady computations *)

Lemma steady_ret {A} (a : A) : steady (ret a).
Proof. intros s o s' [= <- <-]. split; [reflexivity|discriminate]. Qed.

Lemma steady_throw {A} (e : Exn) : steady (@throw A e).
Proof. intros s o s' [= <- <-]. split; [reflexivity|discriminate]. Qed.

Lemma steady_req {A} (o : option A) : steady (req o).
Proof. destruct o; [apply steady_ret|apply steady_throw]. Qed.

Lemma steady_emit (token : string) : steady (emit token).
Proof. intros s o s' [= <- <-]. split; [reflexivity|discriminate]. Qed.

Lemma steady_reportError (n : Node) (msg : string) : steady (reportError n msg).
Proof. intros s o s' [= <- <-]. split; [reflexivity|discriminate]. Qed.

Lemma steady_liftW {A} (w : W A) : keepsDepthW w -> steady (liftW w).
Proof.
  intros Hw s o s'. unfold liftW.
  destruct (w (world s)) as [c w1] eqn:Hrun. intros [= <- <-]. simpl.
  split; [exact (Hw _ _ _ Hrun)|destruct c; discriminate].
Qed.

Lemma steady_bind {A B} (m : M A) (k : A -> M B) :
  steady m -> (forall a, steady (k a)) -> steady (bind m k).
Proof.
  intros Hm Hk s o s'. unfold bind.
  destruct (m s) as [[a|e|] s1] eqn:Hrun; destruct (Hm _ _ _ Hrun) as [Hd Ho].
  - intros Hk'. destruct (Hk _ _ _ _ Hk') as [Hd' Ho']. split; [congruence|assumption].
  - intros [= <- <-]. split; [assumption|discriminate].
  - destruct Ho. reflexivity.
Qed.

Create HintDb steady.

#[local] Hint Resolve steady_ret steady_throw steady_req steady_emit steady_reportError
  steady_liftW : steady.

Ltac steady_step :=
  first
    [ apply steady_bind; [|intros ?]
    | match goal with
      | |- steady (match ?x with _ => _ end) => destruct x
      | |- steady (if ?b then _ else _) => destruct b
      end
    | solve [auto with steady] ].

Lemma steady_scanParameters (steps : nat) (parameters : list Node) (idx : nat) :
  steady (scanParameters steps parameters idx).
Proof.
  revert idx. induction steps as [|steps IH]; intros idx; simpl.
  - apply steady_ret.
  - repeat steady_step; try apply IH.
Qed.

Lemma steady_typeParameterNames (ps : list Node) : steady (typeParameterNames ps).
Proof. induction ps as [|p ps IH]; simpl; repeat steady_step. Qed.

Section SteadyDriver.
Hypothesis visit_keeps : forall n, keepsDepthW (visit base n).
Hypothesis visitList_keeps : forall ns, keepsDepthW (visitList base ns).

Lemma steady_visitParameters (parameters : list Node) :
  steady (visitParameters base parameters).
Proof.
  unfold visitParameters.
  apply steady_bind; [apply steady_emit|intros _].
  apply steady_bind; [apply steady_scanParameters|intros idx].
  repeat steady_step.
Qed.

Lemma steady_visitFunctionLikeBody (fn : Node) (accessor : option string) :
  steady (visitFunctionLikeBody base fn accessor).
Proof.
  unfold visitFunctionLikeBody.
  apply steady_bind; [repeat steady_step|intros _].
  apply steady_bind; [repeat steady_step|intros _].
  apply steady_bind; [repeat steady_step|intros _].
  apply steady_bind.
  { destruct (typeParameters fn); [|apply steady_ret].
    apply steady_bind; [apply steady_emit|intros _].
    apply steady_bind; [apply steady_typeParameterNames|intros names].
    repeat steady_step. }
  intros _. apply steady_bind.
  { destruct (negb _); [apply steady_visitParameters|repeat steady_step]. }
  intros _. repeat steady_step.
Qed.
End SteadyDriver.

(** [visitFunctionLike] leaves the generic-method depth counter at the value
    it had before, on every exit path: the visit ends by returning or by
    throwing, and in both cases the counter is back.  The body is emitted
    with the counter one higher exactly when the declaration declares type
    parameters, and unchanged otherwise.  The driver is assumed to keep the
    counter for the nodes it visits on its own. *)
Lemma visitFunctionLike_restores_depth (fn : Node) (accessor : option string) (s : State) :
  (forall n, keepsDepthW (visit base n)) ->
  (forall ns, keepsDepthW (visitList base ns)) ->
  let d := genericMethodDeclDepth (world s) in
  exists o sb,
    visitFunctionLikeBody base fn accessor (atDepth s (d + typeParameterScope fn)) = (o, sb)
    /\ genericMethodDeclDepth (world sb) = d + typeParameterScope fn
    /\ o <> OutOfFuel
    /\ visitFunctionLike base fn accessor s = (o, atDepth sb d)
    /\ genericMethodDeclDepth (world (snd (visitFunctionLike base fn accessor s))) = d.
Proof.
  intros Hvisit HvisitList d.
  destruct (visitFunctionLikeBody base fn accessor (atDepth s (d + typeParameterScope fn)))
    as [o sb] eqn:Hbody.
  destruct (steady_visitFunctionLikeBody Hvisit HvisitList fn accessor _ _ _ Hbody)
    as [Hdepth Ho].
  simpl in Hdepth.
  assert (Hrun : visitFunctionLike base fn accessor s = (o, atDepth sb d)).
  { unfold visitFunctionLike, pushTypeParameterNames, popTypeParameterNames.
    unfold typeParameterScope in *.
    destruct (typeParameters fn) as [tps|]; simpl in *.
    - unfold bind at 1. simpl. fold d.
      change ({| world := {| output := output (world s); errors := errors (world s);
                             genericMethodDeclDepth := d + 1 |};
                 symbolLookups := symbolLookups s; ruleCalls := ruleCalls s |})
        with (atDepth s (d + 1)).
      unfold tryFinally. rewrite Hbody.
      destruct o as [a|e|]; [| |destruct Ho; reflexivity];
        simpl; rewrite Hdepth; unfold atDepth; do 3 f_equal; lia.
    - unfold bind at 1. simpl.
      assert (Hs : atDepth s (d + 0) = s).
      { unfold atDepth, d. rewrite Z.add_0_r. destruct s as [[? ? ?] ? ?]. reflexivity. }
      rewrite Hs in Hbody.
      unfold tryFinally. rewrite Hbody.
      assert (Hsb : atDepth sb d = sb).
      { unfold atDepth. rewrite <- (Z.add_0_r d), <- Hdepth.
        destruct sb as [[? ? ?] ? ?]. reflexivity. }
      rewrite Hsb.
      destruct o as [a|e|]; [reflexivity|reflexivity|destruct Ho; reflexivity]. }
  exists o, sb. repeat split; try assumption.
  rewrite Hrun. reflexivity.
Qed.

(** C10. Visiting an enum member that carries an initializer visits the
    member's name and then, when that returns, reports the error [enum
    initializers are not supported] at the member and returns [true], so
    that the traversal of the enclosing list goes on.  The spec's error
    catalogue has no kind for this diagnostic. *)
Theorem enum_member_initializer_reported (remainingCases : Node -> M bool)
    (member mname init : Node) (s : State) :
  kind member = EnumMember ->
  name member = Some mname ->
  initializer member = Some init ->
  visitNode base lib ast remainingCases member s
  = match visit base mname (world s) with
    | (Returned _, w) => (Normal true, reported (inWorld s w) member msgEnumInitializer)
    | (Raised e, w) => (Throw e, inWorld s w)
    end
  /\ catalogueKind msgEnumInitializer = None.
Proof.
  intros Hkind Hname Hinit. split; [|reflexivity].
  unfold visitNode. rewrite Hkind, Hname, Hinit. simpl.
  rewrite (bind_normal _ _ s s mname) by reflexivity.
  unfold bind at 1, liftW at 1.
  destruct (visit base mname (world s)) as [[[]|e] w]; reflexivity.
Qed.

(** C4. In a variable declaration list of two or more declarators, a
    declarator that carries an explicit type is reported with the error
    [Variables in a declaration list of more than one variable cannot by
    typed], whether it is the first declarator or a later one.  The single
    declarator of a one-declarator list that carries an explicit type is
    emitted with its type: after the keyword of the declaration the type is
    handed to the driver, and the method itself reports no error. *)
Theorem typed_declarator_in_list (varDecl declList ty : Node) (s : State) :
  parent ast varDecl = Some declList ->
  type varDecl = Some ty ->
  initializerWellFormed varDecl ->
  ((2 <= length (declarations declList))%nat ->
   exists s',
     visitVariableDeclarationType base lib ast varDecl s = (Normal tt, s')
     /\ errors (world s') = (errors (world s) ++ [(varDecl, msgCannotBeTyped)])%list)
  /\ (declarations declList = [varDecl] ->
      errors (world (emittedAll s (leadingKeyword base lib declList varDecl))) = errors (world s)
      /\ visitVariableDeclarationType base lib ast varDecl s
         = liftW (visit base ty) (emittedAll s (leadingKeyword base lib declList varDecl))).
Proof.
  intros Hparent Htype Hwf.
  assert (Hconst :
    (match initializer varDecl with
     | Some init =>
         if hasFlag base declList (NodeFlags_Const lib) then isConstCall init else ret false
     | None => ret false
     end) s
    = (Normal (hasFlag base declList (NodeFlags_Const lib) && initializedByConstExpr varDecl), s)).
  { unfold initializedByConstExpr, initializerWellFormed in *.
    destruct (initializer varDecl) as [init|];
      [|rewrite andb_false_r; reflexivity].
    destruct (hasFlag base declList (NodeFlags_Const lib)); [|reflexivity].
    unfold isConstCall. simpl.
    destruct (decide (kind init = CallExpression)) as [Hk|Hk].
    - rewrite bool_decide_eq_true_2 by assumption.
      destruct (Hwf init eq_refl Hk) as [callee Hcallee]. rewrite Hcallee. reflexivity.
    - rewrite bool_decide_eq_false_2 by assumption. reflexivity. }
  unfold visitVariableDeclarationType.
  rewrite Hparent. rewrite (bind_normal _ _ s s declList) by reflexivity.
  rewrite (bind_normal _ _ _ _ _ Hconst). rewrite Htype.
  split.
  - intros Hlen.
    assert (Hlt : (1 <? length (declarations declList))%nat = true)
      by (apply Nat.ltb_lt; lia).
    rewrite Hlt.
    destruct (match head (declarations declList) with
              | Some first => sameNode first varDecl
              | None => false
              end).
    + destruct (hasFlag base declList (NodeFlags_Const lib)) eqn:Hfinal; simpl.
      * destruct (initializedByConstExpr varDecl); simpl;
          eexists; (split; [reflexivity|]); simpl; reflexivity.
      * eexists; (split; [reflexivity|]); simpl; reflexivity.
    + eexists; (split; [reflexivity|]); simpl; reflexivity.
  - intros Hone. split; [reflexivity|].
    rewrite Hone. simpl. unfold sameNode. rewrite Nat.eqb_refl.
    unfold leadingKeyword.
    destruct (hasFlag base declList (NodeFlags_Const lib)) eqn:Hfinal; simpl.
    + destruct (initializedByConstExpr varDecl); simpl;
        unfold bind at 1; simpl; reflexivity.
    + unfold bind at 1. simpl. unfold liftW, emittedAll. simpl.
      rewrite app_nil_r. destruct s as [[? ? ?] ? ?]. reflexivity.
Qed.

(** *** The parameter scan *)

Lemma leadingCount_le (f : Node -> bool) (ps : list Node) :
  (leadingCount f ps <= length ps)%nat.
Proof. induction ps as [|p ps IH]; simpl; [lia|destruct (f p); simpl; lia]. Qed.

Lemma leadingCount_take (f : Node -> bool) (ps : list Node) :
  Forall (fun p => f p = true) (take (leadingCount f ps) ps).
Proof.
  induction ps as [|p ps IH]; simpl; [constructor|].
  destruct (f p) eqn:Hp; simpl; constructor; assumption.
Qed.

Lemma leadingCount_drop (f : Node -> bool) (ps : list Node) (p : Node) (rest : list Node) :
  drop (leadingCount f ps) ps = p :: rest -> f p = false.
Proof.
  induction ps as [|q ps IH]; simpl; [discriminate|].
  destruct (f q) eqn:Hq; simpl; [exact IH|].
  intros [= <- _]. exact Hq.
Qed.

Lemma scanParameters_spec (parameters : list Node) (steps idx : nat) (s : State) :
  Forall (fun p => is_Some (name p)) parameters ->
  (length parameters <= steps + idx)%nat ->
  scanParameters steps parameters idx s
  = (Normal (idx + leadingCount staysRequired (drop idx parameters))%nat, s).
Proof.
  intros Hnamed. revert idx.
  induction steps as [|steps IH]; intros idx Hlen; simpl.
  - rewrite drop_ge by lia. simpl. rewrite Nat.add_0_r. reflexivity.
  - destruct (parameters !! idx) as [p|] eqn:Hp.
    + rewrite (drop_S _ _ _ Hp). simpl.
      destruct (Forall_lookup_1 _ _ _ _ Hnamed Hp) as [pname Hpname].
      unfold staysRequired, destructured. rewrite Hpname.
      destruct (isOpt p); simpl.
      * rewrite (bind_normal _ _ s s pname) by reflexivity.
        destruct (bool_decide (kind pname = ObjectBindingPattern)); simpl.
        -- rewrite IH by lia. rewrite Nat.add_succ_r. reflexivity.
        -- unfold ret. rewrite Nat.add_0_r. reflexivity.
      * rewrite IH by lia. rewrite Nat.add_succ_r. reflexivity.
    + apply lookup_ge_None in Hp. rewrite drop_ge by lia. simpl.
      rewrite Nat.add_0_r. reflexivity.
Qed.

(** C3, amended. The loop of [visitParameters] stops at the first
    parameter that has an initializer or a question mark and whose name is
    not an object binding pattern.  The parameters before it, destructured
    ones included, are the required prefix, emitted first when there are
    any; that parameter and all that follow it, destructured ones included,
    are the one bracketed group, emitted in their original order after a
    comma if a prefix came before. *)
Theorem visitParameters_groups (parameters : list Node) (s : State) :
  Forall (fun p => is_Some (name p)) parameters ->
  exists required optional,
    parameters = (required ++ optional)%list
    /\ Forall (fun p => staysRequired p = true) required
    /\ (forall p rest, optional = p :: rest -> isOpt p = true /\ destructured p = false)
    /\ scanParameters (length parameters) parameters 0 s = (Normal (length required), s)
    /\ visitParameters base parameters s
       = (emit "(" ;;
          match required with
          | [] => ret tt
          | _ :: _ => liftW (visitList base required)
          end ;;
          match optional with
          | [] => ret tt
          | _ :: _ =>
              match required with [] => ret tt | _ :: _ => emit "," end ;;
              emit "[" ;;
              liftW (visitList base optional) ;;
              emit "]"
          end ;;
          emit ")") s.
Proof.
  intros Hnamed.
  set (n := leadingCount staysRequired parameters).
  assert (Hn : (n <= length parameters)%nat) by apply leadingCount_le.
  exists (take n parameters), (drop n parameters).
  assert (Hscan : forall s0, scanParameters (length parameters) parameters 0 s0 = (Normal n, s0)).
  { intros s0. rewrite scanParameters_spec by (assumption || lia). reflexivity. }
  split; [symmetry; apply take_drop|].
  split; [apply leadingCount_take|].
  split.
  { intros p rest Hrest. apply leadingCount_drop in Hrest.
    unfold staysRequired in Hrest. apply orb_false_iff in Hrest as [Ho Hd].
    split; [|assumption]. destruct (isOpt p); [reflexivity|discriminate]. }
  split; [rewrite length_take, Hscan; do 2 f_equal; lia|].
  unfold visitParameters.
  unfold bind at 1. unfold bind at 4. simpl.
  unfold bind at 1. rewrite Hscan.
  assert (Hreq : (n =? 0)%nat = match take n parameters with [] => true | _ => false end).
  { destruct n as [|n']; [reflexivity|].
    destruct parameters; [simpl in Hn; lia|reflexivity]. }
  assert (Hopt : (n =? length parameters)%nat
                 = match drop n parameters with [] => true | _ => false end).
  { destruct (drop n parameters) as [|q rest] eqn:Hdrop.
    - apply Nat.eqb_eq. apply (f_equal (@length Node)) in Hdrop.
      rewrite length_drop in Hdrop. simpl in Hdrop. lia.
    - apply Nat.eqb_neq. apply (f_equal (@length Node)) in Hdrop.
      rewrite length_drop in Hdrop. simpl in Hdrop. lia. }
  rewrite Hreq, Hopt.
  destruct (take n parameters); destruct (drop n parameters); reflexivity.
Qed.
End DeclarationProperties.

(** *** The candidate sets *)


Section CandidateSets.
Context {T : Type}.



End CandidateSets.



Lemma no_type_checker_defaults_witness :
  let fc := sourceFacadeConverter sampleCallRule samplePropertyRule in
  tc fc = None
  /\ maybeHandleCall printingBase sampleLib sampleTree standardRuntime fc 3 pushCall initialState
     = (Normal (VBool false), initialState)
  /\ handlePropertyAccess printingBase sampleLib sampleTree standardRuntime fc 3 pushCall initialState
     = (Normal VUndefined, initialState)
  /\ shouldEmitNew printingBase sampleLib sampleTree standardRuntime fc 3 pushCall initialState
     = (Normal true, initialState).
Proof.
  intros fc.
  pose proof (no_type_checker_defaults printingBase sampleLib sampleTree standardRuntime fc 3 pushCall initialState eq_refl)
    as (H1 & H2 & _ & _ & H3).
  repeat split; assumption.
Defined.


Lemma maybeHandleCall_skips_non_candidates_witness :
  calleeName frobCall = Some "frob"
  /\ ("frob" ∉ candidateProperties sampleConverter)
  /\ exists s',
       maybeHandleCall printingBase sampleLib sampleTree standardRuntime sampleConverter 3 frobCall initialState
       = (Normal (VBool false), s')
       /\ symbolLookups s' = symbolLookups initialState
       /\ ruleCalls s' = ruleCalls initialState
       /\ errors (world s') = errors (world initialState)
       /\ output (world s') = output (world initialState)
       /\ s' = initialState.
Proof.
  assert (Hc : "frob" ∉ candidateProperties sampleConverter).
  { apply (bool_decide_unpack _). vm_compute. exact I. }
  split; [reflexivity|]. split; [exact Hc|].
  exact (maybeHandleCall_skips_non_candidates printingBase sampleLib sampleTree standardRuntime sampleConverter 3 frobCall "frob"
           initialState eq_refl Hc).
Defined.


Lemma printingVisit_keepsDepth (n : Node) : keepsDepthW (printingVisit n).
Proof.
  intros w0 c w1. unfold printingVisit.
  destruct (bool_decide (kind n = Block)); intros [= <- <-]; reflexivity.
Qed.

Lemma printingVisitList_keepsDepth (ns : list Node) : keepsDepthW (printingVisitList ns).
Proof.
  induction ns as [|n ns IH]; intros w0 c w1; simpl.
  - intros [= <- <-]. reflexivity.
  - destruct (printingVisit (default n (name n)) w0) as [[[]|e] w'] eqn:Hn;
      pose proof (printingVisit_keepsDepth _ _ _ _ Hn) as Hd.
    + intros Hrest. rewrite (IH _ _ _ Hrest). exact Hd.
    + intros [= <- <-]. exact Hd.
Qed.

Lemma visitFunctionLike_restores_depth_witness :
  visitFunctionLike printingBase genericFunction None initialState
  = (Throw (Error "unsupported"),
     emittedAll initialState ["f"; "/*<"; "T"; ">*/"; "("; "x"; ")"])
  /\ genericMethodDeclDepth
       (world (snd (visitFunctionLike printingBase genericFunction None initialState)))
     = genericMethodDeclDepth (world initialState).
Proof.
  split; [reflexivity|].
  destruct (visitFunctionLike_restores_depth printingBase genericFunction None initialState
              printingVisit_keepsDepth printingVisitList_keepsDepth)
    as (o & sb & _ & _ & _ & _ & H).
  exact H.
Defined.

Lemma enum_member_initializer_reported_witness :
  visitNode printingBase sampleLib sampleTree (fun _ => ret false) initializedMember initialState
  = (Normal true,
     reported (emitted initialState "A") initializedMember msgEnumInitializer).
Proof.
  rewrite (proj1 (enum_member_initializer_reported printingBase sampleLib sampleTree
                    (fun _ => ret false) initializedMember (identifierNode 61 "A")
                    (leaf 62 (OtherKind 3)) initialState eq_refl eq_refl eq_refl)).
  reflexivity.
Defined.

Lemma typed_declarator_in_list_witness :
  (exists s',
     visitVariableDeclarationType printingBase sampleLib loopTree declaratorJ initialState
     = (Normal tt, s')
     /\ errors (world s') = [(declaratorJ, msgCannotBeTyped)])
  /\ visitVariableDeclarationType printingBase sampleLib loopTree declaratorK initialState
     = (Normal tt, emitted initialState "number").
Proof.
  assert (HwfJ : initializerWellFormed declaratorJ) by (intros init H; discriminate H).
  assert (HwfK : initializerWellFormed declaratorK) by (intros init H; discriminate H).
  split.
  - apply (proj1 (typed_declarator_in_list printingBase sampleLib loopTree declaratorJ listIJ
                    (identifierNode 73 "number") initialState eq_refl eq_refl HwfJ)).
    simpl. lia.
  - rewrite (proj2 (proj2 (typed_declarator_in_list printingBase sampleLib loopTree declaratorK
                             listK (identifierNode 73 "number") initialState
                             eq_refl eq_refl HwfK) eq_refl)).
    reflexivity.
Defined.

(** C3, as stated, fails.  A leading destructured parameter is part of the
    required prefix, and a destructured parameter that follows an optional
    one is part of the bracketed group. *)
Lemma visitParameters_keeps_destructured :
  scanParameters 1 [destructuredParam] 0 initialState = (Normal 1%nat, initialState)
  /\ take 1 [destructuredParam] <> specRequiredPrefix [destructuredParam]
  /\ visitParameters printingBase [destructuredParam] initialState
     = (Normal tt, emittedAll initialState ["("; "{a, b}"; ")"])
  /\ scanParameters 2 [optionalParam; destructuredParam] 0 initialState
     = (Normal 0%nat, initialState)
  /\ drop 0 [optionalParam; destructuredParam]
     <> specOptionalGroup [optionalParam; destructuredParam]
  /\ visitParameters printingBase [optionalParam; destructuredParam] initialState
     = (Normal tt, emittedAll initialState ["("; "["; "x"; "{a, b}"; "]"; ")"]).
Proof.
  repeat split; try reflexivity; vm_compute; discriminate.
Qed.

Lemma visitParameters_groups_witness :
  Forall (fun p => is_Some (name p)) [plainParam; destructuredParam; optionalParam]
  /\ exists required optional,
       [plainParam; destructuredParam; optionalParam] = (required ++ optional)%list
       /\ scanParameters 3 [plainParam; destructuredParam; optionalParam] 0 initialState
          = (Normal (length required), initialState)
       /\ length required = 2%nat.
Proof.
  assert (Hnamed : Forall (fun p => is_Some (name p))
                     [plainParam; destructuredParam; optionalParam])
    by (repeat constructor; simpl; eauto).
  split; [exact Hnamed|].
  destruct (visitParameters_groups printingBase
              [plainParam; destructuredParam; optionalParam] initialState Hnamed)
    as (required & optional & Happ & _ & _ & Hscan & _).
  exists required, optional. split; [exact Happ|]. split; [exact Hscan|].
  simpl in Hscan. injection Hscan as Hlen. symmetry. exact Hlen.
Defined.

(** * Further properties *)

(** ** Strings and tables *)

Lemma length_append (s t : string) :
  String.length (s ++ t) = (String.length s + String.length t)%nat.
Proof. induction s as [|a s IH]; simpl; [reflexivity|rewrite IH; reflexivity]. Qed.

Lemma substring_all (s : string) : String.substring 0 (String.length s) s = s.
Proof. induction s as [|a s IH]; simpl; [reflexivity|rewrite IH; reflexivity]. Qed.

Lemma substring_skip (p s : string) :
  String.substring (String.length p) (String.length s) (p ++ s) = s.
Proof.
  induction p as [|a p IH]; simpl; [apply substring_all|exact IH].
Qed.

Lemma lastIndexOfFrom_append (c : ascii) (p s : string) (i acc : Z) :
  lastIndexOfFrom c (p ++ s) i acc
  = lastIndexOfFrom c s (i + Z.of_nat (String.length p)) (lastIndexOfFrom c p i acc).
Proof.
  revert i acc. induction p as [|a p IH]; intros i acc; simpl.
  - rewrite Z.add_0_r. reflexivity.
  - rewrite IH. f_equal. lia.
Qed.

Lemma lastIndexOfFrom_absent (c : ascii) (s : string) (i acc : Z) :
  occurs c s = false -> lastIndexOfFrom c s i acc = acc.
Proof.
  revert i acc. induction s as [|a s IH]; intros i acc; simpl; [reflexivity|].
  intros H. apply orb_false_iff in H as [Ha Hs]. rewrite Ha. apply IH, Hs.
Qed.

Lemma occurs_split (c : ascii) (s : string) :
  occurs c s = true ->
  exists p n, s = p ++ String c n /\ occurs c n = false.
Proof.
  induction s as [|a s IH]; simpl; [discriminate|].
  destruct (occurs c s) eqn:Hs.
  - intros _. destruct (IH eq_refl) as (p & n & -> & Hn).
    exists (String a p), n. split; [reflexivity|exact Hn].
  - rewrite orb_false_r. intros Ha. apply Ascii.eqb_eq in Ha as ->.
    exists EmptyString, s. split; [reflexivity|exact Hs].
Qed.

(** X2. [lastSegment] returns the text after the last dot: a name without a
    dot is returned whole, [prefix.name] with a dot-free [name] gives
    [name], and the result never contains a dot. *)
Theorem lastSegment_spec (s : string) :
  (occurs "."%char s = false -> lastSegment s = s)
  /\ (forall p n, s = p ++ String "."%char n -> occurs "."%char n = false ->
        lastSegment s = n)
  /\ occurs "."%char (lastSegment s) = false.
Proof.
  assert (Hwhole : forall t, occurs "."%char t = false -> lastSegment t = t).
  { intros t Ht. unfold lastSegment, lastIndexOf.
    rewrite lastIndexOfFrom_absent by exact Ht.
    unfold substringFrom. simpl. rewrite Nat.sub_0_r. apply substring_all. }
  assert (Hsplit : forall p n, occurs "."%char n = false ->
            lastSegment (p ++ String "."%char n) = n).
  { intros p n Hn.
    assert (Hassoc : p ++ String "."%char n = (p ++ ".") ++ n).
    { clear. induction p as [|a p IH]; [reflexivity|].
      change (String a (p ++ String "."%char n) = String a ((p ++ ".") ++ n)).
      f_equal. exact IH. }
    assert (Hlen : String.length (p ++ ".") = S (String.length p))
      by (rewrite length_append; simpl; lia).
    rewrite Hassoc. unfold lastSegment, lastIndexOf.
    rewrite lastIndexOfFrom_append, lastIndexOfFrom_absent by exact Hn.
    rewrite lastIndexOfFrom_append. simpl.
    unfold substringFrom. rewrite length_append, Hlen.
    replace (Z.to_nat (0 + Z.of_nat (String.length p) + 1)) with (S (String.length p)) by lia.
    replace (S (String.length p) + String.length n - S (String.length p))%nat
      with (String.length n) by lia.
    rewrite <- Hlen. apply substring_skip. }
  split; [apply Hwhole|]. split.
  - intros p n -> Hn. apply Hsplit, Hn.
  - destruct (occurs "."%char s) eqn:Hs.
    + destruct (occurs_split _ _ Hs) as (p & n & -> & Hn).
      rewrite Hsplit by exact Hn. exact Hn.
    + rewrite Hwhole by exact Hs. exact Hs.
Qed.
Lemma append_cons (a : ascii) (s t : string) : String a s ++ t = String a (s ++ t).
Proof. reflexivity. Qed.

Lemma eqb_longer (s t : string) :
  (String.length t < String.length s)%nat -> String.eqb s t = false.
Proof.
  intros Hlen. apply String.eqb_neq. intros ->. lia.
Qed.

Lemma stripTsSuffix_cons (a : ascii) (r : string) :
  stripTsSuffix (String a r)
  = if String.eqb (String a r) ".d.ts" then EmptyString
    else if String.eqb (String a r) ".ts" then EmptyString
    else String a (stripTsSuffix r).
Proof. reflexivity. Qed.

Lemma endsWith_cons (suffix : string) (a : ascii) (r : string) :
  endsWith suffix (String a r) = String.eqb (String a r) suffix || endsWith suffix r.
Proof. reflexivity. Qed.

(** X3. Canonical module names drop the TypeScript suffix: a path that ends
    in [.d.ts] loses these five characters, a path that ends in [.ts] but
    not in [.d.ts] loses these three, and a path that does not end in [.ts]
    is left as it is. *)
Theorem stripTsSuffix_spec (s : string) :
  stripTsSuffix (s ++ ".d.ts") = s
  /\ (endsWith ".d" s = false -> stripTsSuffix (s ++ ".ts") = s)
  /\ (endsWith ".ts" s = false -> stripTsSuffix s = s).
Proof.
  split; [|split].
  - induction s as [|a s IH]; [reflexivity|].
    rewrite append_cons, stripTsSuffix_cons.
    rewrite !eqb_longer by (simpl; rewrite length_append; simpl; lia).
    f_equal. exact IH.
  - induction s as [|a s IH]; [reflexivity|].
    rewrite endsWith_cons. intros Hd. apply orb_false_iff in Hd as [Hhere Hrest].
    rewrite append_cons, stripTsSuffix_cons.
    assert (H1 : String.eqb (String a (s ++ ".ts")) ".d.ts" = false).
    { apply String.eqb_neq. intros Heq. apply String.eqb_neq in Hhere. apply Hhere.
      injection Heq as -> Heq.
      destruct s as [|b [|c s]]; try discriminate Heq.
      - injection Heq as ->. reflexivity.
      - rewrite !append_cons in Heq. injection Heq as _ _ Heq.
        apply (f_equal String.length) in Heq. rewrite length_append in Heq.
        simpl in Heq. lia. }
    rewrite H1, eqb_longer by (simpl; rewrite length_append; simpl; lia).
    f_equal. apply IH, Hrest.
  - induction s as [|a s IH]; [reflexivity|].
    rewrite endsWith_cons. intros Hts. apply orb_false_iff in Hts as [Hhere Hrest].
    rewrite stripTsSuffix_cons, Hhere.
    assert (H1 : String.eqb (String a s) ".d.ts" = false).
    { apply String.eqb_neq. intros Heq. injection Heq as _ Heq.
      rewrite Heq in Hrest. discriminate Hrest. }
    rewrite H1. f_equal. apply IH, Hrest.
Qed.

Lemma skipParentDirs_parentDirs (n : nat) (s : string) :
  skipParentDirs (parentDirs n ++ s) = skipParentDirs s.
Proof. induction n as [|n IH]; [reflexivity|exact IH]. Qed.

Lemma prefix_append (p s : string) : String.prefix p (p ++ s) = true.
Proof.
  induction p as [|a p IH]; [destruct s; reflexivity|].
  rewrite append_cons. simpl. destruct (ascii_dec a a) as [_|Hne]; [exact IH|].
  destruct Hne. reflexivity.
Qed.

(** X4. Canonical module names drop the dependency directory: any number of
    leading [../] followed by [node_modules/] is removed, and what follows
    is kept as it is; a path that does not start that way is unchanged. *)
Theorem stripNodeModulesPrefix_spec (n : nat) (s : string) :
  stripNodeModulesPrefix (parentDirs n ++ "node_modules/" ++ s) = s
  /\ (String.prefix "node_modules/" (skipParentDirs s) = false ->
      stripNodeModulesPrefix s = s).
Proof.
  split; [|intros H; unfold stripNodeModulesPrefix; rewrite H; reflexivity].
  unfold stripNodeModulesPrefix.
  rewrite skipParentDirs_parentDirs.
  change (skipParentDirs ("node_modules/" ++ s)) with ("node_modules/" ++ s).
  assert (Hprefix : String.prefix "node_modules/" ("node_modules/" ++ s) = true).
  { apply prefix_append. }
  rewrite Hprefix.
  change 13%nat with (String.length "node_modules/") at 1 2.
  rewrite length_append.
  replace (String.length "node_modules/" + String.length s - String.length "node_modules/")%nat
    with (String.length s) by lia.
  apply substring_skip.
Qed.

(** How [merge] folds one argument into the result. *)
Lemma merge_one {T} (ro : gmap string T) (l : list (string * T)) (k : string) :
  NoDup l.*1 ->
  foldl (fun returnObject kv => <[kv.1 := kv.2]> returnObject) ro l !! k
  = match list_to_map (M := gmap string T) l !! k with
    | Some v => Some v
    | None => ro !! k
    end.
Proof.
  revert ro. induction l as [|[k' v'] l IH]; intros ro Hnd; simpl.
  - rewrite lookup_empty. reflexivity.
  - apply NoDup_cons in Hnd as [Hnotin Hnd]. rewrite IH by exact Hnd.
    destruct (decide (k' = k)) as [->|Hne].
    + rewrite lookup_insert_eq.
      rewrite (not_elem_of_list_to_map_1 _ _ Hnotin).
      rewrite lookup_insert_eq. reflexivity.
    + rewrite !lookup_insert_ne by exact Hne. reflexivity.
Qed.

Lemma merge_snoc {T} (args : list (gmap string T)) (b : gmap string T) (k : string) :
  merge (args ++ [b]) !! k
  = match b !! k with Some v => Some v | None => merge args !! k end.
Proof.
  unfold merge. rewrite foldl_app. simpl.
  rewrite merge_one by apply NoDup_fst_map_to_list.
  rewrite list_to_map_to_list. reflexivity.
Qed.

Lemma merge_lookup_elem {T} (args : list (gmap string T)) (q : string) (h : T) :
  merge args !! q = Some h -> exists a, a ∈ args /\ a !! q = Some h.
Proof.
  induction args as [|b args IH] using rev_ind.
  - unfold merge. simpl. rewrite lookup_empty. discriminate.
  - rewrite merge_snoc. destruct (b !! q) as [v|] eqn:Hb.
    + intros [= ->]. exists b. split; [apply elem_of_app; right; left|assumption].
    + intros H. destruct (IH H) as (a & Ha & Hq). exists a.
      split; [apply elem_of_app; left; assumption|assumption].
Qed.

(** X1. [merge] copies its arguments from left to right: a key has the value
    of the last argument that has it, and is missing exactly when no
    argument has it. *)
Theorem merge_lookup {T} (args : list (gmap string T)) (b : gmap string T) (k : string) :
  merge (args ++ [b]) !! k
  = match b !! k with
    | Some v => Some v
    | None => merge args !! k
    end
  /\ merge (@nil (gmap string T)) !! k = None
  /\ (merge args !! k = None <-> Forall (fun a => a !! k = None) args).
Proof.
  split; [apply merge_snoc|]. split; [apply lookup_empty|].
  induction args as [|a args IH] using rev_ind.
  - split; [constructor|]. intros _. apply lookup_empty.
  - rewrite merge_snoc, Forall_app, Forall_singleton.
    destruct (a !! k) as [v|]; [|tauto].
    split; [discriminate|]. intros [_ H]. discriminate H.
Qed.
(** ** Further properties of the facade converter *)

Section MoreFacadeProperties.
Context (base : TranspilerBase) (lib : TsLib) (ast : SourceTree) (rt : Runtime).

Lemma followAliases_step (fc : FacadeConverter) (checker : TypeChecker) (fuel : nat)
    (symbol : Symbol) (s : State) :
  tc fc = Some checker ->
  masked (sym_flags symbol) (SymbolFlags_Alias lib) = true ->
  followAliases lib fc (S fuel) symbol s
  = followAliases lib fc fuel (getAliasedSymbol checker symbol) s.
Proof.
  intros Htc Halias. simpl. rewrite Halias, Htc. reflexivity.
Qed.

Lemma followAliases_chain (fc : FacadeConverter) (checker : TypeChecker) (k fuel : nat)
    (symbol : Symbol) (s : State) :
  tc fc = Some checker ->
  (forall i, (i < k)%nat ->
     masked (sym_flags (aliasTarget checker i symbol)) (SymbolFlags_Alias lib) = true) ->
  followAliases lib fc (k + fuel) symbol s
  = followAliases lib fc fuel (aliasTarget checker k symbol) s.
Proof.
  intros Htc. revert symbol. induction k as [|k IH]; intros symbol Hchain; [reflexivity|].
  change (S k + fuel)%nat with (S (k + fuel)).
  rewrite (followAliases_step fc checker) by (assumption || exact (Hchain O ltac:(lia))).
  simpl. apply IH. intros i Hi. exact (Hchain (S i) ltac:(lia)).
Qed.

(** X5. A chain of aliases is transparent: when the target of [k] alias
    steps has the canonical key [loc], the symbol the chain starts from has
    the same key, found with [k] more rounds of the alias loop and with the
    same effect on the state. *)
Theorem getFileAndName_through_aliases (fc : FacadeConverter) (checker : TypeChecker)
    (k fuel : nat) (n : Node) (symbol : Symbol) (s s' : State) (loc : FileAndName) :
  tc fc = Some checker ->
  (forall i, (i < k)%nat ->
     masked (sym_flags (aliasTarget checker i symbol)) (SymbolFlags_Alias lib) = true) ->
  getFileAndName base lib ast fc fuel n (aliasTarget checker k symbol) s
  = (Normal (Some loc), s') ->
  getFileAndName base lib ast fc (k + fuel) n symbol s = (Normal (Some loc), s').
Proof.
  intros Htc Hchain Hrun. unfold getFileAndName in *.
  unfold bind at 1 in Hrun. unfold bind at 1.
  rewrite (followAliases_chain fc checker k fuel symbol s Htc Hchain).
  destruct (followAliases lib fc fuel (aliasTarget checker k symbol) s)
    as [[target|e|] s1]; try exact Hrun.
  destruct (representativeDeclaration target); [exact Hrun|].
  unfold bind, reportError, modifyWorld, ret in Hrun. simpl in Hrun. discriminate Hrun.
Qed.

(** X6. A symbol that is not an alias and has no declaration at all cannot
    be located: [getFileAndName] reports [no declarations for symbol] with
    the symbol's name at the node and returns [null], and [getHandler] then
    returns [null] whatever the table, without looking anything up in it. *)
Theorem getFileAndName_no_declarations (fc : FacadeConverter) (fuel : nat) (n : Node)
    (symbol : Symbol) (s : State) :
  masked (sym_flags symbol) (SymbolFlags_Alias lib) = false ->
  representativeDeclaration symbol = None ->
  getFileAndName base lib ast fc fuel n symbol s
  = (Normal None, reported s n (noDeclarationsMessage symbol))
  /\ forall (T : Type) (m : gmap string (gmap string T)),
       getHandler base lib ast rt fc fuel n symbol m
         s
       = (Normal IsNull, reported s n (noDeclarationsMessage symbol)).
Proof.
  intros Halias Hdecl.
  assert (Hfollow : followAliases lib fc fuel symbol s = (Normal symbol, s)).
  { destruct fuel; simpl; rewrite Halias; reflexivity. }
  assert (Hloc : getFileAndName base lib ast fc fuel n symbol s
                 = (Normal None, reported s n (noDeclarationsMessage symbol))).
  { unfold getFileAndName. rewrite (bind_normal _ _ _ _ _ Hfollow), Hdecl. reflexivity. }
  split; [exact Hloc|].
  intros T m. unfold getHandler. rewrite (bind_normal _ _ _ _ _ Hloc). reflexivity.
Qed.

(** X7. A property access whose name is not a candidate property is left
    alone by [handlePropertyAccess]: it returns [undefined] when no checker
    is set and [false] when one is, the checker is not asked, no rule is
    invoked, and the state is as before. *)
Theorem handlePropertyAccess_skips_non_candidates (fc : FacadeConverter) (fuel : nat)
    (pa member : Node) (s : State) :
  name pa = Some member ->
  text member ∉ candidateProperties fc ->
  handlePropertyAccess base lib ast rt fc fuel pa s
  = (Normal match tc fc with
            | None => VUndefined
            | Some _ => VBool false
            end, s).
Proof.
  intros Hname Hcand. unfold handlePropertyAccess.
  destruct (tc fc) as [checker|]; [|reflexivity].
  rewrite Hname. rewrite (bind_normal _ _ s s member) by reflexivity.
  unfold hasOwnProperty. rewrite bool_decide_eq_false_2 by assumption. reflexivity.
Qed.

(** X8. A property access whose name is a candidate but whose symbol the
    checker does not find is reported: [handlePropertyAccess] asks the
    checker once, about the name, reports the missing-type diagnostic at the
    property access, and returns [false]; no rule is invoked. *)
Theorem handlePropertyAccess_unresolved (fc : FacadeConverter) (checker : TypeChecker)
    (fuel : nat) (pa member : Node) (s : State) :
  tc fc = Some checker ->
  name pa = Some member ->
  text member ∈ candidateProperties fc ->
  getSymbolAtLocation checker member = None ->
  handlePropertyAccess base lib ast rt fc fuel pa s
  = (Normal (VBool false),
     reported (asked s member) pa (missingTypeMessage (text member))).
Proof.
  intros Htc Hname Hcand Hsym. unfold handlePropertyAccess.
  rewrite Htc, Hname. rewrite (bind_normal _ _ s s member) by reflexivity.
  unfold hasOwnProperty. rewrite bool_decide_eq_true_2 by assumption. simpl.
  rewrite (bind_normal _ _ s (asked s member) None)
    by (unfold lookupSymbol; rewrite Hsym; reflexivity).
  reflexivity.
Qed.

(** X10. A call whose callee name is a candidate but whose symbol the
    checker does not find is left unhandled, after one question to the
    checker.  For a direct call the missing-type diagnostic is reported at
    the call; for a method call nothing is reported by [maybeHandleCall]
    (the source leaves that to the handling of the property access). *)
Theorem maybeHandleCall_unresolved (fc : FacadeConverter) (checker : TypeChecker)
    (fuel : nat) (c expr : Node) (s : State) :
  tc fc = Some checker ->
  expression c = Some expr ->
  getSymbolAtLocation checker expr = None ->
  (kind expr = Identifier ->
   text expr ∈ candidateProperties fc ->
   maybeHandleCall base lib ast rt fc fuel c s
   = (Normal (VBool false), reported (asked s expr) c (missingTypeMessage (text expr))))
  /\ (kind expr = PropertyAccessExpression ->
      forall member,
        name expr = Some member ->
        kind member = Identifier ->
        text member ∈ candidateProperties fc ->
        maybeHandleCall base lib ast rt fc fuel c s = (Normal (VBool false), asked s expr)).
Proof.
  intros Htc Hexpr Hsym. split.
  - intros Hkind Hcand.
    assert (Hinfo : getCallInformation fc c s
              = (Normal (None, None),
                 reported (asked s expr) c (missingTypeMessage (text expr)))).
    { unfold getCallInformation. rewrite Hexpr.
      rewrite (bind_normal _ _ s s expr) by reflexivity.
      rewrite decide_True by assumption.
      unfold ident. rewrite decide_True by assumption. simpl.
      unfold hasOwnProperty. rewrite bool_decide_eq_true_2 by assumption. simpl.
      rewrite Htc. rewrite (bind_normal _ _ s s checker) by reflexivity.
      rewrite (bind_normal _ _ s (asked s expr) None)
        by (unfold lookupSymbol; rewrite Hsym; reflexivity).
      reflexivity. }
    unfold maybeHandleCall. rewrite Htc, (bind_normal _ _ _ _ _ Hinfo). reflexivity.
  - intros Hkind member Hname Hmember Hcand.
    assert (Hinfo : getCallInformation fc c s = (Normal (None, None), asked s expr)).
    { unfold getCallInformation. rewrite Hexpr.
      rewrite (bind_normal _ _ s s expr) by reflexivity.
      rewrite decide_False by (rewrite Hkind; discriminate).
      rewrite decide_True by assumption. rewrite Hname.
      rewrite (bind_normal _ _ s s member) by reflexivity.
      unfold ident. rewrite decide_True by assumption. simpl.
      unfold hasOwnProperty. rewrite bool_decide_eq_true_2 by assumption. simpl.
      rewrite Htc. rewrite (bind_normal _ _ s s checker) by reflexivity.
      rewrite (bind_normal _ _ s (asked s expr) None)
        by (unfold lookupSymbol; rewrite Hsym; reflexivity).
      reflexivity. }
    unfold maybeHandleCall. rewrite Htc, (bind_normal _ _ _ _ _ Hinfo). reflexivity.
Qed.
End MoreFacadeProperties.

Section RuleAndLookupProperties.
Context (base : TranspilerBase) (lib : TsLib) (ast : SourceTree) (rt : Runtime).

Lemma getFileAndName_found (fc : FacadeConverter) (fuel : nat) (n : Node) (symbol : Symbol)
    (s : State) (loc : FileAndName) (s' : State) :
  getFileAndName base lib ast fc fuel n symbol s = (Normal (Some loc), s') -> s' = s.
Proof.
  unfold getFileAndName, bind at 1.
  destruct (followAliases lib fc fuel symbol s) as [[target|e|] s1] eqn:Hfollow;
    try discriminate.
  apply followAliases_state in Hfollow. subst s1.
  destruct (representativeDeclaration target) as [decl|]; run.
  - destruct (tc fc); simpl; [|discriminate]. intros [= _ <-]. reflexivity.
  - discriminate.
Qed.

Lemma getCallInformation_found (fc : FacadeConverter) (c : Node) (s : State)
    (context : option Node) (symbol : Symbol) (s' : State) :
  getCallInformation fc c s = (Normal (context, Some symbol), s') -> world s' = world s.
Proof.
  unfold getCallInformation. run.
  destruct (expression c) as [expr|]; simpl; [|discriminate].
  destruct (decide (kind expr = Identifier)).
  - destruct (negb _); [discriminate|].
    destruct (tc fc) as [checker|]; simpl; [|discriminate].
    unfold lookupSymbol.
    destruct (getSymbolAtLocation checker expr); simpl; [|discriminate].
    intros [= _ _ <-]. reflexivity.
  - destruct (decide (kind expr = PropertyAccessExpression)); [|discriminate].
    destruct (name expr) as [member|]; simpl; [|discriminate].
    destruct (negb _); [discriminate|].
    destruct (tc fc) as [checker|]; simpl; [|discriminate].
    unfold lookupSymbol.
    destruct (getSymbolAtLocation checker expr); simpl; [|discriminate].
    intros [= _ _ <-]. reflexivity.
Qed.

(** Every run of [handlePropertyAccess] has one of three shapes: the one
    registered rule located for the property is invoked and its answer
    negated; or the read of the table finds a truthy member of the runtime,
    which is called in the rule's place; or nothing is called and the result
    is falsy. *)
Lemma handlePropertyAccess_cases (fc : FacadeConverter) (fuel : nat) (pa : Node)
    (s : State) (o : Outcome JSVal) (s' : State) :
  handlePropertyAccess base lib ast rt fc fuel pa s = (o, s') ->
  (exists handler s2 ro w3,
     locatesPropertyRule base lib ast fc fuel pa s handler s2
     /\ handler pa (world s2) = (ro, w3)
     /\ s' = afterRule pa s2 w3
     /\ ruleCalls s2 = ruleCalls s
     /\ world s2 = world s
     /\ o = match ro with
            | Returned r => Normal (jsNot r)
            | Raised e => Throw e
            end)
  \/ (exists x s2 ro w3,
        locatesForeignProperty base lib ast rt fc fuel pa s x s2
        /\ alienCall rt x [Some pa] (world s2) = (ro, w3)
        /\ s' = afterForeign s2 w3
        /\ ruleCalls s2 = ruleCalls s
        /\ o = match ro with
               | Returned r => Normal (jsNot r)
               | Raised e => Throw e
               end)
  \/ (ruleCalls s' = ruleCalls s
      /\ output (world s') = output (world s)
      /\ (forall v, o = Normal v -> truthy v = false)
      /\ ~ (exists handler s2, locatesPropertyRule base lib ast fc fuel pa s handler s2)
      /\ ~ (exists x s2, locatesForeignProperty base lib ast rt fc fuel pa s x s2)).
Proof.
  intros Hrun.
  unfold handlePropertyAccess in Hrun.
  destruct (tc fc) as [checker|] eqn:Htc.
  2:{ injection Hrun as <- <-. right. right.
      split; [reflexivity|]. split; [reflexivity|].
      split; [intros v [= <-]; reflexivity|].
      split; [intros (h & s2 & (ch & _ & _ & _ & _ & H & _))
             |intros (h & s2 & (ch & _ & _ & H & _))]; congruence. }
  destruct (name pa) as [member|] eqn:Hname.
  2:{ injection Hrun as <- <-. right. right.
      split; [reflexivity|]. split; [reflexivity|].
      split; [intros v; discriminate|].
      split; [intros (h & s2 & (ch & mb & _ & _ & _ & _ & H & _))
             |intros (h & s2 & (ch & mb & _ & _ & H & _))]; congruence. }
  rewrite (bind_normal _ _ s s member) in Hrun by reflexivity.
  unfold hasOwnProperty in Hrun.
  destruct (decide (text member ∈ candidateProperties fc)) as [Hcand|Hcand].
  2:{ rewrite bool_decide_eq_false_2 in Hrun by assumption.
      injection Hrun as <- <-. right. right.
      split; [reflexivity|]. split; [reflexivity|].
      split; [intros v [= <-]; reflexivity|].
      split; [intros (h & s2 & (ch & mb & sym & loc & fs & _ & Hn & Hc & _))
             |intros (h & s2 & (ch & mb & sym & _ & Hn & Hc & _))];
        rewrite Hname in Hn; injection Hn as <-; contradiction. }
  rewrite bool_decide_eq_true_2 in Hrun by assumption. simpl in Hrun.
  rewrite (bind_normal _ _ s (asked s member) (getSymbolAtLocation checker member))
    in Hrun by reflexivity.
  destruct (getSymbolAtLocation checker member) as [symbol|] eqn:Hsym.
  2:{ injection Hrun as <- <-. right. right.
      split; [reflexivity|]. split; [reflexivity|].
      split; [intros v [= <-]; reflexivity|].
      split; [intros (h & s2 & (ch & mb & sym & loc & fs & Ht & Hn & _ & Hs & _))
             |intros (h & s2 & (ch & mb & sym & Ht & Hn & _ & Hs & _))];
        rewrite Hname in Hn; injection Hn as <-; rewrite Htc in Ht; injection Ht as <-;
        congruence. }
  unfold bind at 1 in Hrun.
  destruct (getHandler base lib ast rt fc fuel pa symbol (propertyHandlers fc)
              (asked s member)) as [[[handler| |x]|e|] s2] eqn:Hh;
    pose proof (getHandler_calls _ _ _ _ _ _ _ _ _ _ _ _ Hh) as (Hrc & _ & Hout);
    simpl in Hrc, Hout.
  - (* a registered rule *)
    unfold ret, bind, invokeRule, liftW in Hrun. simpl in Hrun.
    destruct (handler pa (world s2)) as [ro w3] eqn:Hcall.
    left. exists handler, s2, ro, w3.
    apply getHandler_Found in Hh as (loc & fileSubs & Hloc & Hfile & Hq).
    split; [exists checker, member, symbol, loc, fileSubs; auto 10|].
    split; [exact Hcall|].
    split; [destruct ro; injection Hrun as _ <-; reflexivity|].
    split; [exact Hrc|].
    split; [rewrite (getFileAndName_found _ _ _ _ _ _ _ Hloc); reflexivity|].
    destruct ro; injection Hrun as <- _; reflexivity.
  - (* null *)
    injection Hrun as <- <-. right. right.
    split; [exact Hrc|]. split; [exact Hout|].
    split; [intros v [= <-]; reflexivity|].
    split.
    + intros (h & t2 & (ch & mb & sym & l & fs & Ht & Hn & _ & Hs & Hl & Hf & Hq)).
      rewrite Hname in Hn; injection Hn as <-. rewrite Htc in Ht; injection Ht as <-.
      rewrite Hsym in Hs. injection Hs as <-.
      assert (Hfound : getHandler base lib ast rt fc fuel pa symbol (propertyHandlers fc)
                         (asked s member) = (Normal (Found h), t2))
        by (apply getHandler_Found; eauto).
      congruence.
    + intros (y & t2 & (ch & mb & sym & Ht & Hn & _ & Hs & Hg & _)).
      rewrite Hname in Hn; injection Hn as <-. rewrite Htc in Ht; injection Ht as <-.
      rewrite Hsym in Hs. injection Hs as <-. congruence.
  - (* a member of the runtime *)
    unfold callForeign in Hrun.
    destruct (truthy (alienVal rt x)) eqn:Htruthy; simpl in Hrun.
    + unfold bind, liftW, ret in Hrun. simpl in Hrun.
      destruct (alienCall rt x [Some pa] (world s2)) as [ro w3] eqn:Hcall.
      right. left. exists x, s2, ro, w3.
      split; [exists checker, member, symbol; auto 10|].
      split; [exact Hcall|].
      split; [destruct ro; injection Hrun as _ <-; reflexivity|].
      split; [exact Hrc|].
      destruct ro; injection Hrun as <- _; reflexivity.
    + injection Hrun as <- <-. right. right.
      split; [exact Hrc|]. split; [exact Hout|].
      split; [intros v [= <-]; exact Htruthy|].
      split.
      * intros (h & t2 & (ch & mb & sym & l & fs & Ht & Hn & _ & Hs & Hl & Hf & Hq)).
        rewrite Hname in Hn; injection Hn as <-. rewrite Htc in Ht; injection Ht as <-.
        rewrite Hsym in Hs. injection Hs as <-.
        assert (Hfound : getHandler base lib ast rt fc fuel pa symbol (propertyHandlers fc)
                           (asked s member) = (Normal (Found h), t2))
          by (apply getHandler_Found; eauto).
        congruence.
      * intros (y & t2 & (ch & mb & sym & Ht & Hn & _ & Hs & Hg & Hy)).
        rewrite Hname in Hn; injection Hn as <-. rewrite Htc in Ht; injection Ht as <-.
        rewrite Hsym in Hs. injection Hs as <-.
        rewrite Hh in Hg. injection Hg as <- <-. congruence.
  - (* the lookup throws *)
    injection Hrun as <- <-. right. right.
    split; [exact Hrc|]. split; [exact Hout|].
    split; [intros v; discriminate|].
    split.
    + intros (h & t2 & (ch & mb & sym & l & fs & Ht & Hn & _ & Hs & Hl & Hf & Hq)).
      rewrite Hname in Hn; injection Hn as <-. rewrite Htc in Ht; injection Ht as <-.
      rewrite Hsym in Hs. injection Hs as <-.
      assert (Hfound : getHandler base lib ast rt fc fuel pa symbol (propertyHandlers fc)
                         (asked s member) = (Normal (Found h), t2))
        by (apply getHandler_Found; eauto).
      congruence.
    + intros (y & t2 & (ch & mb & sym & Ht & Hn & _ & Hs & Hg & _)).
      rewrite Hname in Hn; injection Hn as <-. rewrite Htc in Ht; injection Ht as <-.
      rewrite Hsym in Hs. injection Hs as <-. congruence.
  - (* the alias loop does not end *)
    injection Hrun as <- <-. right. right.
    split; [exact Hrc|]. split; [exact Hout|].
    split; [intros v; discriminate|].
    split.
    + intros (h & t2 & (ch & mb & sym & l & fs & Ht & Hn & _ & Hs & Hl & Hf & Hq)).
      rewrite Hname in Hn; injection Hn as <-. rewrite Htc in Ht; injection Ht as <-.
      rewrite Hsym in Hs. injection Hs as <-.
      assert (Hfound : getHandler base lib ast rt fc fuel pa symbol (propertyHandlers fc)
                         (asked s member) = (Normal (Found h), t2))
        by (apply getHandler_Found; eauto).
      congruence.
    + intros (y & t2 & (ch & mb & sym & Ht & Hn & _ & Hs & Hg & _)).
      rewrite Hname in Hn; injection Hn as <-. rewrite Htc in Ht; injection Ht as <-.
      rewrite Hsym in Hs. injection Hs as <-. congruence.
Qed.

Lemma locatesPropertyRule_functional (fc : FacadeConverter) (fuel : nat) (pa : Node)
    (s : State) (h1 h2 : PropertyHandler) (s1 s2 : State) :
  locatesPropertyRule base lib ast fc fuel pa s h1 s1 ->
  locatesPropertyRule base lib ast fc fuel pa s h2 s2 ->
  h1 = h2 /\ s1 = s2.
Proof.
  intros (ch & mb & sym & l & fs & Ht & Hn & _ & Hs & Hl & Hf & Hq)
         (ch' & mb' & sym' & l' & fs' & Ht' & Hn' & _ & Hs' & Hl' & Hf' & Hq').
  rewrite Ht in Ht'. injection Ht' as <-. rewrite Hn in Hn'. injection Hn' as <-.
  rewrite Hs in Hs'. injection Hs' as <-. rewrite Hl in Hl'. injection Hl' as <- <-.
  rewrite Hf in Hf'. injection Hf' as <-. rewrite Hq in Hq'. injection Hq' as <-.
  auto.
Qed.

Lemma locatesForeignProperty_functional (fc : FacadeConverter) (fuel : nat) (pa : Node)
    (s : State) (x1 x2 : Alien rt) (s1 s2 : State) :
  locatesForeignProperty base lib ast rt fc fuel pa s x1 s1 ->
  locatesForeignProperty base lib ast rt fc fuel pa s x2 s2 ->
  x1 = x2 /\ s1 = s2.
Proof.
  intros (ch & mb & sym & Ht & Hn & _ & Hs & Hg & _)
         (ch' & mb' & sym' & Ht' & Hn' & _ & Hs' & Hg' & _).
  rewrite Ht in Ht'. injection Ht' as <-. rewrite Hn in Hn'. injection Hn' as <-.
  rewrite Hs in Hs'. injection Hs' as <-. rewrite Hg in Hg'. injection Hg' as <- <-.
  auto.
Qed.

(** X9. [handlePropertyAccess] invokes at most one property rule per
    property access, and one exactly when a registered rule is located under
    the canonical key of the property's symbol.  It returns [true] if and
    only if such a rule was run and returned a falsy flag, or the read of
    the table found a truthy member of the runtime in the place of a rule
    (the source does not ask [hasOwnProperty]) and calling that member
    returned a falsy value.  Every other value it returns is falsy. *)
Theorem handlePropertyAccess_at_most_one_rule (fc : FacadeConverter) (fuel : nat)
    (pa : Node) (s : State) (o : Outcome JSVal) (s' : State) :
  handlePropertyAccess base lib ast rt fc fuel pa s = (o, s') ->
  (ruleCalls s' = ruleCalls s \/ ruleCalls s' = pa :: ruleCalls s)
  /\ (ruleCalls s' = pa :: ruleCalls s <->
      exists handler s2, locatesPropertyRule base lib ast fc fuel pa s handler s2)
  /\ (o = Normal (VBool true) <->
      (exists handler s2 r w3,
         locatesPropertyRule base lib ast fc fuel pa s handler s2
         /\ handler pa (world s2) = (Returned r, w3)
         /\ truthy r = false
         /\ s' = afterRule pa s2 w3)
      \/ (exists x s2 r w3,
            locatesForeignProperty base lib ast rt fc fuel pa s x s2
            /\ alienCall rt x [Some pa] (world s2) = (Returned r, w3)
            /\ truthy r = false
            /\ s' = afterForeign s2 w3))
  /\ (forall v, o = Normal v -> v <> VBool true -> truthy v = false).
Proof.
  intros Hrun.
  assert (Hcons : forall l : list Node, l <> pa :: l).
  { intros l H. apply (f_equal (@length Node)) in H. simpl in H. lia. }
  assert (Hnot : forall r, Normal (jsNot r) = Normal (VBool true) -> truthy r = false).
  { intros r [= Hr]. destruct (truthy r); [discriminate Hr|reflexivity]. }
  assert (Hfalsy : forall r v, Normal (jsNot r) = Normal v -> v <> VBool true ->
                               truthy v = false).
  { intros r v [= <-] Hv. unfold jsNot in *. simpl.
    destruct (truthy r); [reflexivity|]. destruct Hv; reflexivity. }
  destruct (handlePropertyAccess_cases _ _ _ _ _ _ Hrun)
    as [(handler & s2 & ro & w3 & Hloc & Hh & -> & Hrc & _ & ->)
       |[(x & s2 & ro & w3 & Hloc & Hh & -> & Hrc & ->)
        |(Hsame & _ & Hfalse & Hnone & Hnone')]].
  - split; [right; simpl; congruence|].
    split; [split; [intros _; eauto|intros _; simpl; congruence]|].
    split; [split|].
    + destruct ro as [r|]; try discriminate.
      intros Hr. left. exists handler, s2, r, w3. auto using Hnot.
    + intros [(h & t2 & r & w & Hloc' & Hh' & Hr & _)
             |(y & t2 & r & w & (ch & mb & sym & Ht & Hn & _ & Hs & Hg & _) & _)].
      * destruct (locatesPropertyRule_functional _ _ _ _ _ _ _ _ Hloc Hloc') as (<- & <-).
        rewrite Hh in Hh'. injection Hh' as -> <-.
        unfold jsNot. rewrite Hr. reflexivity.
      * destruct Hloc as (ch' & mb' & sym' & l & fs & Ht' & Hn' & _ & Hs' & Hl & Hf & Hq).
        rewrite Ht in Ht'. injection Ht' as <-. rewrite Hn in Hn'. injection Hn' as <-.
        rewrite Hs in Hs'. injection Hs' as <-.
        assert (Hfound : getHandler base lib ast rt fc fuel pa sym (propertyHandlers fc)
                           (asked s mb) = (Normal (Found handler), s2))
          by (apply getHandler_Found; eauto).
        congruence.
    + intros v Hv Hne. destruct ro as [r|]; try discriminate. eauto.
  - split; [left; exact Hrc|].
    assert (Hnorule : ~ (exists handler t2,
                           locatesPropertyRule base lib ast fc fuel pa s handler t2)).
    { intros (h & t2 & (ch' & mb' & sym' & l & fs & Ht' & Hn' & _ & Hs' & Hl & Hf & Hq)).
      destruct Hloc as (ch & mb & sym & Ht & Hn & _ & Hs & Hg & _).
      rewrite Ht in Ht'. injection Ht' as <-. rewrite Hn in Hn'. injection Hn' as <-.
      rewrite Hs in Hs'. injection Hs' as <-.
      assert (Hfound : getHandler base lib ast rt fc fuel pa sym (propertyHandlers fc)
                         (asked s mb) = (Normal (Found h), t2))
        by (apply getHandler_Found; eauto).
      congruence. }
    split; [split; [simpl; rewrite Hrc; intros H; destruct (Hcons _ H)
                   |intros H; destruct (Hnorule H)]|].
    split; [split|].
    + destruct ro as [r|]; try discriminate.
      intros Hr. right. exists x, s2, r, w3. auto using Hnot.
    + intros [(h & t2 & r & w & Hloc' & _)|(y & t2 & r & w & Hloc' & Hh' & Hr & _)].
      * destruct Hnorule; eauto.
      * destruct (locatesForeignProperty_functional _ _ _ _ _ _ _ _ Hloc Hloc') as (<- & <-).
        rewrite Hh in Hh'. injection Hh' as -> <-.
        unfold jsNot. rewrite Hr. reflexivity.
    + intros v Hv Hne. destruct ro as [r|]; try discriminate. eauto.
  - split; [left; assumption|].
    split; [split; [intros H; rewrite Hsame in H; destruct (Hcons _ H)
                   |intros H; destruct (Hnone H)]|].
    split; [split|].
    + intros ->. specialize (Hfalse _ eq_refl). discriminate Hfalse.
    + intros [(h & s2 & r & w3 & Hloc & _)|(y & s2 & r & w3 & Hloc & _)];
        [destruct Hnone|destruct Hnone']; eauto.
    + intros v -> _. apply Hfalse. reflexivity.
Qed.

Lemma getCallInformation_lookups (fc : FacadeConverter) (c : Node)
    (s : State) (o : Outcome (option Node * option Symbol)) (s' : State) :
  getCallInformation fc c s = (o, s') ->
  exists asks, symbolLookups s' = (asks ++ symbolLookups s)%list /\ (length asks <= 1)%nat.
Proof.
  assert (Hnone : exists asks, symbolLookups s = (asks ++ symbolLookups s)%list
                               /\ (length asks <= 1)%nat)
    by (exists []; split; [reflexivity|simpl; lia]).
  unfold getCallInformation. run.
  destruct (expression c) as [expr|]; simpl; [|intros [= <- <-]; exact Hnone].
  destruct (decide (kind expr = Identifier)).
  - destruct (negb _); [intros [= <- <-]; exact Hnone|].
    destruct (tc fc) as [checker|]; simpl; [|intros [= <- <-]; exact Hnone].
    unfold lookupSymbol.
    destruct (getSymbolAtLocation checker expr); simpl; intros [= <- <-];
      exists [expr]; split; (reflexivity || (simpl; lia)).
  - destruct (decide (kind expr = PropertyAccessExpression)); [|intros [= <- <-]; exact Hnone].
    destruct (name expr) as [member|]; simpl; [|intros [= <- <-]; exact Hnone].
    destruct (negb _); [intros [= <- <-]; exact Hnone|].
    destruct (tc fc) as [checker|]; simpl; [|intros [= <- <-]; exact Hnone].
    unfold lookupSymbol.
    destruct (getSymbolAtLocation checker expr); simpl; intros [= <- <-];
      exists [expr]; split; (reflexivity || (simpl; lia)).
Qed.
End RuleAndLookupProperties.

Section NewAndTypeNameProperties.
Context (base : TranspilerBase) (lib : TsLib) (ast : SourceTree) (rt : Runtime).

Lemma source_callHandlerReplaceNew_lookup (f : string) :
  source_callHandlerReplaceNew !! f
  = if isReplaceNewModule f then Some {[ "Promise" := true ]} else None.
Proof.
  unfold source_callHandlerReplaceNew, isReplaceNewModule. simpl.
  destruct (String.eqb_spec f "es6-promise/es6-promise") as [->|H1].
  - rewrite lookup_insert_eq. reflexivity.
  - rewrite lookup_insert_ne by congruence.
    destruct (String.eqb_spec f "es6-shim/es6-shim") as [->|H2].
    + rewrite lookup_insert_eq. reflexivity.
    + rewrite lookup_insert_ne by congruence. rewrite lookup_empty. reflexivity.
Qed.

(** X11. With the table of the source, [shouldEmitNew] answers [false]
    exactly for a call that it understands and for whose located key the
    read of the table finds something truthy: the entry registered for
    [Promise] in one of the modules [es6-promise/es6-promise] and
    [es6-shim/es6-shim], or, since the read does not ask [hasOwnProperty],
    a truthy member of the runtime.  It never invokes a rule and never emits
    anything. *)
Theorem shouldEmitNew_only_for_es6_promise (fc : FacadeConverter) (fuel : nat) (c : Node)
    (s : State) (o : Outcome bool) (s' : State) :
  callHandlerReplaceNew fc = source_callHandlerReplaceNew ->
  shouldEmitNew base lib ast rt fc fuel c s = (o, s') ->
  (o = Normal false <->
   is_Some (tc fc)
   /\ exists context symbol s1 loc,
        getCallInformation fc c s = (Normal (context, Some symbol), s1)
        /\ getFileAndName base lib ast fc fuel c symbol s1 = (Normal (Some loc), s')
        /\ replaceNewFound rt loc)
  /\ ruleCalls s' = ruleCalls s
  /\ output (world s') = output (world s).
Proof.
  intros Htable Hrun. unfold shouldEmitNew in Hrun.
  destruct (tc fc) as [checker|] eqn:Htc.
  2:{ injection Hrun as <- <-. split; [|split; reflexivity].
      split; [discriminate|]. intros [[x Hx] _]. discriminate Hx. }
  unfold bind at 1 in Hrun.
  destruct (getCallInformation fc c s) as [[[context symbol]|e|] s1] eqn:Hinfo;
    pose proof (getCallInformation_calls _ _ _ _ _ Hinfo) as [Hrc1 Hout1].
  2,3: injection Hrun as <- <-; (split; [|split; assumption]);
       (split; [discriminate|]); intros (_ & ctx & sym & t1 & loc & H & _); congruence.
  simpl in Hrun. destruct symbol as [symbol|].
  2:{ injection Hrun as <- <-. split; [|split; assumption].
      split; [discriminate|]. intros (_ & ctx & sym & t1 & loc & H & _). congruence. }
  unfold bind at 1 in Hrun.
  destruct (getFileAndName base lib ast fc fuel c symbol s1) as [[loc|e|] s2] eqn:Hloc;
    pose proof (getFileAndName_calls _ _ _ _ _ _ _ _ _ _ Hloc) as (Hrc2 & _ & Hout2).
  2,3: injection Hrun as <- <-; (split; [|split; congruence]);
       (split; [discriminate|]);
       intros (_ & ctx & sym & t1 & loc' & H1 & H2 & _);
       injection H1 as <- <- <-; rewrite Hloc in H2; discriminate H2.
  destruct loc as [loc|].
  2:{ injection Hrun as <- <-. split; [|split; congruence].
      split; [discriminate|].
      intros (_ & ctx & sym & t1 & loc' & H1 & H2 & _).
      injection H1 as <- <- <-. rewrite Hloc in H2. discriminate H2. }
  assert (Hkey : forall (P : Prop),
            (is_Some (Some checker)
             /\ exists context0 symbol0 s0 loc0,
                  (Normal (context, Some symbol), s1) = (Normal (context0, Some symbol0), s0)
                  /\ getFileAndName base lib ast fc fuel c symbol0 s0
                     = (Normal (Some loc0), s2)
                  /\ replaceNewFound rt loc0)
            <-> replaceNewFound rt loc).
  { intros _. split.
    - intros (_ & ctx & sym & t1 & loc' & H1 & H2 & H3).
      injection H1 as <- <- <-. rewrite Hloc in H2. injection H2 as <-. exact H3.
    - intros H. split; [eauto|]. exists context, symbol, s1, loc. auto. }
  rewrite Htable, source_callHandlerReplaceNew_lookup in Hrun.
  unfold replaceNewFound in Hkey. unfold replaceNewFound.
  destruct (isReplaceNewModule (fileName loc)) eqn:Hmodule.
  - destruct (String.eqb_spec (qname loc) "Promise") as [Hq|Hq].
    + rewrite Hq, lookup_singleton_eq in Hrun. injection Hrun as <- <-.
      split; [|split; congruence].
      rewrite (Hkey True). split; [intros _; left; auto|reflexivity].
    + rewrite lookup_singleton_ne in Hrun by congruence.
      unfold bind, liftC, ret in Hrun.
      destruct (inherited rt (qname loc)) as [x|e] eqn:Hx; simpl in Hrun;
        injection Hrun as <- <-; (split; [|split; congruence]); rewrite (Hkey True).
      * split.
        -- intros [= Hv]. apply negb_false_iff in Hv. left. split; [reflexivity|].
           right. exists x. auto.
        -- intros [(_ & [Hp|(y & _ & [= <-] & Hy)])|(H & _)];
             [contradiction|rewrite Hy; reflexivity|discriminate H].
      * split; [discriminate|].
        intros [(_ & [Hp|(y & _ & Hy & _)])|(H & _)];
          [contradiction|discriminate Hy|discriminate H].
  - unfold bind, liftC, ret in Hrun.
    destruct (inherited rt (fileName loc)) as [x|e] eqn:Hx; simpl in Hrun.
    2:{ injection Hrun as <- <-. split; [|split; congruence]. rewrite (Hkey True).
        split; [discriminate|].
        intros [(H & _)|(_ & y & z & Hy & _)]; [discriminate H|discriminate Hy]. }
    destruct (truthy (alienVal rt x)) eqn:Htx; simpl in Hrun.
    2:{ injection Hrun as <- <-. split; [|split; congruence]. rewrite (Hkey True).
        split; [discriminate|].
        intros [(H & _)|(_ & y & z & [= <-] & Hy & _)]; [discriminate H|congruence]. }
    destruct (alienGet rt x (qname loc)) as [y|e] eqn:Hy; simpl in Hrun;
      injection Hrun as <- <-; (split; [|split; congruence]); rewrite (Hkey True).
    + split.
      * intros [= Hv]. apply negb_false_iff in Hv. right. split; [reflexivity|].
        exists x, y. auto.
      * intros [(H & _)|(_ & x' & y' & [= <-] & _ & Hy' & Hty)]; [discriminate H|].
        rewrite Hy in Hy'. injection Hy' as <-. rewrite Hty. reflexivity.
    + split; [discriminate|].
      intros [(H & _)|(_ & x' & y' & [= <-] & _ & Hy' & _)]; [discriminate H|].
      rewrite Hy in Hy'. discriminate Hy'.
Qed.

(** X12. The comment form of a type name is emitted only inside a generic
    function and only for a name the checker types as a type parameter: when
    [isGenericMethodTypeParameterName] answers [true], the depth counter is
    not zero, the checker was asked once for the symbol of the name, the
    type of the name carries the type-parameter flag and its symbol is the
    symbol of the name; [visitTypeName] then emits the three tokens
    [dynamic/*=], the name and [*/]. *)
Theorem visitTypeName_generic_parameter (fc : FacadeConverter) (fuel : nat)
    (typeName : Node) (s s1 : State) :
  kind typeName = Identifier ->
  isGenericMethodTypeParameterName lib ast fc typeName s = (Normal true, s1) ->
  visitTypeName base lib ast rt fc fuel typeName s
  = (Normal tt, emittedAll s1 ["dynamic/*="; text typeName; "*/"])
  /\ genericMethodDeclDepth (world s) <> 0
  /\ s1 = asked s typeName
  /\ exists checker t symbol,
       tc fc = Some checker
       /\ getTypeAtLocation checker typeName = Some t
       /\ masked (ty_flags t) (TypeFlags_TypeParameter lib) = true
       /\ getSymbolAtLocation checker typeName = Some symbol
       /\ sameSymbol (Some symbol) (ty_symbol t) = true.
Proof.
  intros Hkind Hgen. split.
  - unfold visitTypeName.
    rewrite bool_decide_eq_true_2 by assumption. simpl.
    rewrite (bind_normal _ _ _ _ _ Hgen).
    unfold ident. rewrite decide_True by assumption. simpl.
    unfold emittedAll, bind, emit, modifyWorld. simpl.
    rewrite <- !app_assoc. reflexivity.
  - unfold isGenericMethodTypeParameterName, getDepth in Hgen.
    unfold bind at 1 in Hgen.
    destruct (tc fc) as [checker|]; [|discriminate Hgen].
    destruct (Z.eqb_spec (genericMethodDeclDepth (world s)) 0) as [Hz|Hz];
      [discriminate Hgen|].
    destruct (getTypeAtLocation checker typeName) as [t|] eqn:Hty; [|discriminate Hgen].
    destruct (masked (ty_flags t) (TypeFlags_TypeParameter lib)) eqn:Hflag;
      [|discriminate Hgen].
    simpl in Hgen. unfold bind at 1, lookupSymbol at 1 in Hgen.
    destruct (sameSymbol (getSymbolAtLocation checker typeName) (ty_symbol t)) eqn:Hsame;
      [|discriminate Hgen].
    simpl in Hgen.
    destruct (getSymbolAtLocation checker typeName) as [symbol|] eqn:Hsym;
      [|discriminate Hgen].
    assert (Hs1 : s1 = asked s typeName).
    { unfold bind at 1 in Hgen. simpl in Hgen.
      destruct (sym_declarations symbol) as [ds|]; [|discriminate Hgen].
      unfold bind at 1 in Hgen. simpl in Hgen.
      fold (asked s typeName) in Hgen. revert Hgen. generalize (asked s typeName).
      induction ds as [|d ds IH]; intros s0; simpl; [discriminate|].
      unfold bind at 1. destruct (parent ast d) as [p|]; simpl; [|discriminate].
      destruct (decide (kind p = FunctionDeclaration)); [|apply IH].
      intros [= <-]. reflexivity. }
    split; [exact Hz|]. split; [exact Hs1|].
    exists checker, t, symbol. repeat split; (assumption || reflexivity).
Qed.

(** X13. [isNamedType] on a node whose type has no symbol answers [false].
    On a node whose type's symbol is not an alias and has no declaration it
    does not answer: the missing declarations are reported at the node and
    the read of the missing key then throws. *)
Theorem isNamedType_without_key (fc : FacadeConverter) (checker : TypeChecker) (fuel : nat)
    (node : Node) (expectedFile expectedName : string) (t : TsType) (s : State) :
  tc fc = Some checker ->
  getTypeAtLocation checker node = Some t ->
  match ty_symbol t with
  | None =>
      isNamedType base lib ast fc fuel node expectedFile expectedName s = (Normal false, s)
  | Some symbol =>
      masked (sym_flags symbol) (SymbolFlags_Alias lib) = false ->
      representativeDeclaration symbol = None ->
      isNamedType base lib ast fc fuel node expectedFile expectedName s
      = (Throw TypeError, reported s node (noDeclarationsMessage symbol))
  end.
Proof.
  intros Htc Hty. unfold isNamedType. rewrite Htc.
  rewrite (bind_normal _ _ s s checker) by reflexivity.
  rewrite Hty. rewrite (bind_normal _ _ s s t) by reflexivity.
  destruct (ty_symbol t) as [symbol|]; [|reflexivity].
  intros Halias Hdecl.
  assert (Hfollow : followAliases lib fc fuel symbol s = (Normal symbol, s)).
  { destruct fuel; simpl; rewrite Halias; reflexivity. }
  assert (Hloc : getFileAndName base lib ast fc fuel node symbol s
                 = (Normal None, reported s node (noDeclarationsMessage symbol))).
  { unfold getFileAndName. rewrite (bind_normal _ _ _ _ _ Hfollow), Hdecl. reflexivity. }
  rewrite (bind_normal _ _ _ _ _ Hloc). reflexivity.
Qed.

(** X14. Leaving a generic scope undoes entering it: for any declaration,
    [pushTypeParameterNames] followed by [popTypeParameterNames] gives back
    the state it started from, and so does the opposite order. *)
Theorem push_pop_round_trip (n : Node) (s : State) :
  (pushTypeParameterNames n ;; popTypeParameterNames n) s = (Normal tt, s)
  /\ (popTypeParameterNames n ;; pushTypeParameterNames n) s = (Normal tt, s).
Proof.
  unfold pushTypeParameterNames, popTypeParameterNames.
  destruct (typeParameters n); [|split; reflexivity].
  destruct s as [[out errs d] asks calls].
  split; unfold bind, getDepth, setDepth, modifyWorld; simpl; do 3 f_equal; lia.
Qed.

Lemma someDeclaredByFunction_state (ds : list Node) (s : State) (o : Outcome bool)
    (s' : State) :
  someDeclaredByFunction ast ds s = (o, s') -> s' = s.
Proof.
  induction ds as [|d ds IH]; simpl; [intros [= _ <-]; reflexivity|].
  unfold bind at 1. destruct (parent ast d) as [p|]; simpl; [|intros [= _ <-]; reflexivity].
  destruct (decide (kind p = FunctionDeclaration)); [intros [= _ <-]; reflexivity|exact IH].
Qed.

Lemma isGenericMethodTypeParameterName_lookups (fc : FacadeConverter) (typeName : Node)
    (s : State) (o : Outcome bool) (s' : State) :
  isGenericMethodTypeParameterName lib ast fc typeName s = (o, s') ->
  world s' = world s
  /\ (symbolLookups s' = symbolLookups s \/ symbolLookups s' = typeName :: symbolLookups s).
Proof.
  unfold isGenericMethodTypeParameterName, getDepth. unfold bind at 1.
  destruct (tc fc) as [checker|]; [|intros [= _ <-]; auto].
  destruct (Z.eqb _ 0); [intros [= _ <-]; auto|].
  destruct (getTypeAtLocation checker typeName) as [t|]; [|intros [= _ <-]; auto].
  destruct (negb _); [intros [= _ <-]; auto|].
  unfold bind at 1, lookupSymbol at 1.
  destruct (negb _); [intros [= _ <-]; auto|].
  unfold bind at 1.
  destruct (getSymbolAtLocation checker typeName) as [symbol|]; simpl;
    [|intros [= _ <-]; auto].
  unfold bind at 1.
  destruct (sym_declarations symbol) as [ds|]; simpl; [|intros [= _ <-]; auto].
  intros H. apply someDeclaredByFunction_state in H as ->. auto.
Qed.

(** X15. The converter asks the checker for a symbol at most once per call
    to [maybeHandleCall], [handlePropertyAccess] and [shouldEmitNew], and at
    most twice per call to [visitTypeName] (once to recognise a type
    parameter, once to find a rule). *)
Theorem symbol_lookups_bounded (fc : FacadeConverter) (fuel : nat) (n : Node) (s : State) :
  (exists asks,
     symbolLookups (snd (maybeHandleCall base lib ast rt fc fuel n s))
     = (asks ++ symbolLookups s)%list /\ (length asks <= 1)%nat)
  /\ (exists asks,
        symbolLookups (snd (handlePropertyAccess base lib ast rt fc fuel n s))
        = (asks ++ symbolLookups s)%list /\ (length asks <= 1)%nat)
  /\ (exists asks,
        symbolLookups (snd (shouldEmitNew base lib ast rt fc fuel n s))
        = (asks ++ symbolLookups s)%list /\ (length asks <= 1)%nat)
  /\ (exists asks,
        symbolLookups (snd (visitTypeName base lib ast rt fc fuel n s))
        = (asks ++ symbolLookups s)%list /\ (length asks <= 2)%nat).
Proof.
  assert (Hnil : forall t : State, symbolLookups t = symbolLookups s ->
            forall b, exists asks, symbolLookups t = (asks ++ symbolLookups s)%list
                                   /\ (length asks <= S b)%nat).
  { intros t Ht b. exists []. split; [exact Ht|simpl; lia]. }
  assert (Hhandler : forall (T : Type) (m : gmap string (gmap string T)) symbol t,
            symbolLookups
              (snd (getHandler base lib ast rt fc fuel n symbol m t)) = symbolLookups t).
  { intros T m symbol t.
    destruct (getHandler base lib ast rt fc fuel n symbol m t) as [o t1] eqn:Hh.
    exact (proj1 (proj2 (getHandler_calls _ _ _ _ _ _ _ _ _ _ _ _ Hh))). }
  split; [|split; [|split]].
  - unfold maybeHandleCall. destruct (tc fc); [|apply Hnil; reflexivity].
    unfold bind at 1.
    destruct (getCallInformation fc n s) as [[[context symbol]|e|] s1] eqn:Hinfo;
      pose proof (getCallInformation_lookups _ _ _ _ _ Hinfo) as Hask; try exact Hask.
    simpl. destruct symbol as [symbol|]; [|exact Hask].
    unfold bind at 1.
    pose proof (Hhandler _ (callHandlers fc) symbol s1) as Hh.
    destruct (getHandler base lib ast rt fc fuel n symbol (callHandlers fc) s1)
      as [[[h| |x]|e|] s2]; simpl in Hh |- *; try (rewrite Hh; exact Hask).
    + unfold bind, invokeRule, liftW. simpl.
      destruct (h n context (world s2)) as [[r|e] w3]; simpl; rewrite Hh; exact Hask.
    + unfold callForeign, bind, liftW, ret.
      destruct (truthy (alienVal rt x)); simpl; [|rewrite Hh; exact Hask].
      destruct (alienCall rt x [Some n; context] (world s2)) as [[r|e] w3]; simpl;
        rewrite Hh; exact Hask.
  - unfold handlePropertyAccess. destruct (tc fc) as [checker|]; [|apply Hnil; reflexivity].
    destruct (name n) as [member|]; [|apply Hnil; reflexivity].
    rewrite (bind_normal _ _ s s member) by reflexivity.
    destruct (negb _); [apply Hnil; reflexivity|].
    rewrite (bind_normal _ _ s (asked s member) (getSymbolAtLocation checker member))
      by reflexivity.
    assert (Hask : forall t : State, symbolLookups t = symbolLookups (asked s member) ->
              exists asks, symbolLookups t = (asks ++ symbolLookups s)%list
                           /\ (length asks <= 1)%nat).
    { intros t Ht. exists [member]. split; [exact Ht|simpl; lia]. }
    destruct (getSymbolAtLocation checker member) as [symbol|];
      [|apply Hask; reflexivity].
    unfold bind at 1.
    pose proof (Hhandler _ (propertyHandlers fc) symbol (asked s member)) as Hh.
    destruct (getHandler base lib ast rt fc fuel n symbol (propertyHandlers fc) (asked s member))
      as [[[h| |x]|e|] s2]; simpl in Hh |- *; try (apply Hask; exact Hh).
    + unfold bind, invokeRule, liftW. simpl.
      destruct (h n (world s2)) as [[r|e] w3]; simpl; apply Hask; exact Hh.
    + unfold callForeign, bind, liftW, ret.
      destruct (truthy (alienVal rt x)); simpl; [|apply Hask; exact Hh].
      destruct (alienCall rt x [Some n] (world s2)) as [[r|e] w3]; simpl;
        apply Hask; exact Hh.
  - unfold shouldEmitNew. destruct (tc fc); [|apply Hnil; reflexivity].
    unfold bind at 1.
    destruct (getCallInformation fc n s) as [[[context symbol]|e|] s1] eqn:Hinfo;
      pose proof (getCallInformation_lookups _ _ _ _ _ Hinfo) as Hask; try exact Hask.
    simpl. destruct symbol as [symbol|]; [|exact Hask].
    unfold bind at 1.
    destruct (getFileAndName base lib ast fc fuel n symbol s1) as [[loc|e|] s2] eqn:Hloc;
      pose proof (getFileAndName_calls _ _ _ _ _ _ _ _ _ _ Hloc) as (_ & Hl & _);
      simpl; try (rewrite Hl; exact Hask).
    destruct loc as [loc|]; simpl; [|rewrite Hl; exact Hask].
    unfold bind, liftC, ret.
    destruct (callHandlerReplaceNew fc !! fileName loc) as [fs|].
    + destruct (fs !! qname loc); simpl; [rewrite Hl; exact Hask|].
      destruct (inherited rt (qname loc)); simpl; rewrite Hl; exact Hask.
    + destruct (inherited rt (fileName loc)) as [x|e]; simpl; [|rewrite Hl; exact Hask].
      destruct (truthy (alienVal rt x)); simpl; [|rewrite Hl; exact Hask].
      destruct (alienGet rt x (qname loc)); simpl; rewrite Hl; exact Hask.
  - unfold visitTypeName.
    destruct (negb (bool_decide (kind n = Identifier))).
    { unfold liftW. destruct (visit base n (world s)) as [c w]. apply Hnil. reflexivity. }
    unfold bind at 1.
    destruct (isGenericMethodTypeParameterName lib ast fc n s) as [[generic|e|] s1] eqn:Hgen;
      pose proof (isGenericMethodTypeParameterName_lookups _ _ _ _ _ Hgen) as [_ Hask1].
    2,3: destruct Hask1 as [H|H]; [apply Hnil; exact H|];
         exists [n]; split; [exact H|simpl; lia].
    assert (Hone : forall t : State, symbolLookups t = symbolLookups s1 ->
              exists asks, symbolLookups t = (asks ++ symbolLookups s)%list
                           /\ (length asks <= 2)%nat).
    { intros t Ht. destruct Hask1 as [H|H].
      - apply Hnil. rewrite Ht, H. reflexivity.
      - exists [n]. split; [rewrite Ht, H; reflexivity|simpl; lia]. }
    assert (Htwo : forall t : State, symbolLookups t = n :: symbolLookups s1 ->
              exists asks, symbolLookups t = (asks ++ symbolLookups s)%list
                           /\ (length asks <= 2)%nat).
    { intros t Ht. destruct Hask1 as [H|H].
      - exists [n]. split; [rewrite Ht, H; reflexivity|simpl; lia].
      - exists [n; n]. split; [rewrite Ht, H; reflexivity|simpl; lia]. }
    destruct generic; [apply Hone; reflexivity|].
    destruct (tc fc) as [checker|]; [|apply Hone; reflexivity].
    destruct (hasOwnProperty _ _); [|apply Hone; reflexivity].
    rewrite (bind_normal _ _ s1 (asked s1 n) (getSymbolAtLocation checker n)) by reflexivity.
    destruct (getSymbolAtLocation checker n) as [symbol|]; [|apply Htwo; reflexivity].
    unfold bind at 1.
    destruct (getFileAndName base lib ast fc fuel n symbol (asked s1 n))
      as [[loc|e|] s2] eqn:Hloc;
      pose proof (getFileAndName_calls _ _ _ _ _ _ _ _ _ _ Hloc) as (_ & Hl & _);
      simpl in Hl; try (apply Htwo; exact Hl).
    destruct loc as [loc|]; [|apply Htwo; exact Hl].
    destruct (TS_TO_DART_TYPENAMES fc !! fileName loc) as [fs|].
    + destruct (fs !! qname loc); apply Htwo; exact Hl.
    + unfold bind, liftC, ret.
      destruct (inherited rt (fileName loc)) as [x|e]; simpl; [|apply Htwo; exact Hl].
      destruct (truthy (alienVal rt x)); simpl; [|apply Htwo; exact Hl].
      destruct (alienHasOwn rt x (qname loc)) as [[|]|e]; simpl; try (apply Htwo; exact Hl).
      destruct (alienGet rt x (qname loc)); simpl; apply Htwo; exact Hl.
Qed.
End NewAndTypeNameProperties.

(** ** Further properties of the declaration transpiler *)

Section MoreDeclarationProperties.
Context (base : TranspilerBase) (lib : TsLib) (ast : SourceTree).

(** X16. The three simple shapes of a parameter list.  An empty list is
    emitted as the two parentheses and the driver is not called.  A list in
    which every parameter is required or destructured is handed to the
    driver whole, without brackets.  A list whose first parameter is
    optional and not destructured is handed to the driver whole inside the
    brackets, with no comma before them. *)
Theorem visitParameters_shapes (parameters : list Node) (s : State) :
  (parameters = [] ->
   visitParameters base parameters s = (Normal tt, emittedAll s ["("; ")"]))
  /\ (parameters <> [] ->
      Forall (fun p => is_Some (name p)) parameters ->
      Forall (fun p => staysRequired p = true) parameters ->
      visitParameters base parameters s
      = (emit "(" ;; liftW (visitList base parameters) ;; emit ")") s)
  /\ (forall p rest pname,
        parameters = p :: rest ->
        isOpt p = true ->
        name p = Some pname ->
        kind pname <> ObjectBindingPattern ->
        visitParameters base parameters s
        = (emit "(" ;; emit "[" ;; liftW (visitList base parameters) ;; emit "]" ;;
           emit ")") s).
Proof.
  split; [|split].
  - intros ->. unfold visitParameters, emittedAll, bind, emit, modifyWorld. simpl.
    rewrite <- app_assoc. reflexivity.
  - intros Hne Hnamed Hreq.
    assert (Hcount : leadingCount staysRequired parameters = length parameters).
    { clear Hne Hnamed. induction Hreq as [|p ps Hp _ IH]; simpl; [reflexivity|].
      rewrite Hp, IH. reflexivity. }
    assert (Hscan : forall s0, scanParameters (length parameters) parameters 0 s0
                               = (Normal (length parameters), s0)).
    { intros s0. rewrite scanParameters_spec by (assumption || lia).
      rewrite drop_0, Hcount. reflexivity. }
    unfold visitParameters. unfold bind at 1. unfold bind at 4. simpl.
    unfold bind at 1. rewrite Hscan.
    rewrite Nat.eqb_refl, firstn_all.
    destruct parameters as [|p ps]; [destruct Hne; reflexivity|]. simpl.
    unfold bind. simpl.
    destruct (liftW (visitList base (p :: ps)) _) as [[[]|e|] s1]; reflexivity.
  - intros p rest pname -> Hopt Hname Hkind.
    unfold visitParameters. unfold bind at 1. unfold bind at 4. simpl.
    rewrite Hopt, Hname. unfold bind at 1. unfold bind at 1. simpl.
    rewrite bool_decide_eq_false_2 by assumption. simpl.
    unfold bind. simpl.
    destruct (liftW (visitList base (p :: rest)) _) as [[[]|e|] s1]; reflexivity.
Qed.

(** X17. A declarator without a type annotation never makes
    [visitVariableDeclarationType] report an error.  The first declarator of
    its list gets exactly one keyword: [const] in a [const] list when it is
    initialised by a call of [CONST_EXPR], [final] otherwise in a [const]
    list, [var] in any other list.  A later declarator gets nothing. *)
Theorem untyped_declarator_keyword (varDecl declList : Node) (s : State) :
  parent ast varDecl = Some declList ->
  type varDecl = None ->
  initializerWellFormed varDecl ->
  visitVariableDeclarationType base lib ast varDecl s
  = (Normal tt,
     match head (declarations declList) with
     | Some first =>
         if sameNode first varDecl
         then emitted s (untypedKeyword base lib declList varDecl)
         else s
     | None => s
     end).
Proof.
  intros Hparent Htype Hwf.
  assert (Hconst :
    (match initializer varDecl with
     | Some init =>
         if hasFlag base declList (NodeFlags_Const lib) then isConstCall init else ret false
     | None => ret false
     end) s
    = (Normal (hasFlag base declList (NodeFlags_Const lib) && initializedByConstExpr varDecl),
       s)).
  { unfold initializedByConstExpr, initializerWellFormed in *.
    destruct (initializer varDecl) as [init|];
      [|rewrite andb_false_r; reflexivity].
    destruct (hasFlag base declList (NodeFlags_Const lib)); [|reflexivity].
    unfold isConstCall. simpl.
    destruct (decide (kind init = CallExpression)) as [Hk|Hk].
    - rewrite bool_decide_eq_true_2 by assumption.
      destruct (Hwf init eq_refl Hk) as [callee Hcallee]. rewrite Hcallee. reflexivity.
    - rewrite bool_decide_eq_false_2 by assumption. reflexivity. }
  unfold visitVariableDeclarationType.
  rewrite Hparent. rewrite (bind_normal _ _ s s declList) by reflexivity.
  rewrite (bind_normal _ _ _ _ _ Hconst). rewrite Htype.
  unfold untypedKeyword.
  destruct (head (declarations declList)) as [first|]; [|reflexivity].
  destruct (sameNode first varDecl); [|reflexivity].
  destruct (hasFlag base declList (NodeFlags_Const lib)); simpl.
  - destruct (initializedByConstExpr varDecl); reflexivity.
  - reflexivity.
Qed.
End MoreDeclarationProperties.

(** ** Properties of the rules of the source *)

Lemma voidRule_returns (body : W unit) (w : World) (r : JSVal) (w' : World) :
  voidRule body w = (Returned r, w') -> r = VUndefined.
Proof.
  unfold voidRule, bindW, retW. destruct (body w) as [[[]|e] w1]; congruence.
Qed.

Lemma rulesOf_lookup {T} (body : string -> T) (keys : list string) (q : string) (h : T) :
  rulesOf body keys !! q = Some h -> h = body q /\ q ∈ keys.
Proof.
  unfold rulesOf. intros H. apply elem_of_list_to_map_2 in H.
  apply list_elem_of_fmap in H as (k & [= -> ->] & Hk). auto.
Qed.

Ltac listed :=
  repeat (apply List.Forall_cons;
          [repeat (first [apply list_elem_of_here|apply list_elem_of_further])|]);
  apply List.Forall_nil.

Lemma source_callHandlers_rule (callRule : string -> CallHandler) (f q : string)
    (file : gmap string CallHandler) (h : CallHandler) :
  source_callHandlers callRule !! f = Some file ->
  file !! q = Some h ->
  h = callRule q
  /\ q ∈ ["Promise.catch"; "Promise.then"; "Promise";
          "Array.push"; "Array.pop"; "Array.shift"; "Array.unshift"; "Array.map";
          "Array.filter"; "Array.some"; "Array.slice"; "Array.splice";
          "Array.concat"; "Array.join"; "Array.reduce"; "ArrayConstructor.isArray";
          "RegExp.test"; "RegExp.exec"; "String.substr";
          "Map.set"; "Map.get"; "Map.has"; "Map.delete"; "Map.forEach"; "Array.find";
          "Map"; "forwardRef"; "CONST_EXPR"; "normalizeBlank"].
Proof.
  intros Hf Hq. unfold source_callHandlers in Hf.
  apply elem_of_list_to_map_2 in Hf.
  set (all := ["Promise.catch"; "Promise.then"; "Promise";
          "Array.push"; "Array.pop"; "Array.shift"; "Array.unshift"; "Array.map";
          "Array.filter"; "Array.some"; "Array.slice"; "Array.splice";
          "Array.concat"; "Array.join"; "Array.reduce"; "ArrayConstructor.isArray";
          "RegExp.test"; "RegExp.exec"; "String.substr";
          "Map.set"; "Map.get"; "Map.has"; "Map.delete"; "Map.forEach"; "Array.find";
          "Map"; "forwardRef"; "CONST_EXPR"; "normalizeBlank"]).
  assert (Hrules : forall keys, rulesOf callRule keys !! q = Some h ->
            Forall (fun k => k ∈ all) keys -> h = callRule q /\ q ∈ all).
  { intros keys H Hsub. apply rulesOf_lookup in H as [-> Hin]. split; [reflexivity|].
    rewrite Forall_forall in Hsub. apply Hsub, Hin. }
  assert (Hmerge : forall files, merge files !! q = Some h ->
            Forall (fun file => exists keys, file = rulesOf callRule keys
                                             /\ Forall (fun k => k ∈ all) keys) files ->
            h = callRule q /\ q ∈ all).
  { intros files H Hall. apply merge_lookup_elem in H as (a & Ha & Hqa).
    rewrite Forall_forall in Hall. destruct (Hall a Ha) as (keys & -> & Hsub).
    exact (Hrules keys Hqa Hsub). }
  repeat (apply elem_of_cons in Hf as [Hf|Hf]; [apply pair_equal_spec in Hf as [-> ->]|]).
  10: { apply elem_of_nil in Hf. destruct Hf. }
  all: unfold stdlibHandlers, es6Promises, es6Collections in Hq.
  1,2,4: apply (Hmerge _ Hq);
    repeat (apply List.Forall_cons; [eexists; split; [reflexivity|listed]|]);
    apply List.Forall_nil.
  all: apply (Hrules _ Hq); listed.
Qed.

Lemma source_propertyHandlers_rule (propertyRule : string -> PropertyHandler) (f q : string)
    (file : gmap string PropertyHandler) (h : PropertyHandler) :
  source_propertyHandlers propertyRule !! f = Some file ->
  file !! q = Some h ->
  h = propertyRule q /\ q ∈ ["Map.size"; "resolve"; "reject"].
Proof.
  intros Hf Hq. unfold source_propertyHandlers in Hf.
  apply elem_of_list_to_map_2 in Hf.
  repeat (apply elem_of_cons in Hf as [Hf|Hf]; [apply pair_equal_spec in Hf as [-> ->]|]).
  4: { apply elem_of_nil in Hf. destruct Hf. }
  all: unfold es6CollectionsProp, es6PromisesProp in Hq.
  all: apply rulesOf_lookup in Hq as [-> Hin]; (split; [reflexivity|]).
  all: repeat (apply elem_of_cons in Hin as [->|Hin]);
       try (apply elem_of_nil in Hin; destruct Hin).
  all: repeat (first [apply list_elem_of_here|apply list_elem_of_further]).
Qed.

Lemma bindW_returned {A B} (m : W A) (k : A -> W B) (w : World) (b : B) (w' : World) :
  bindW m k w = (Returned b, w') ->
  exists a w1, m w = (Returned a, w1) /\ k a w1 = (Returned b, w').
Proof.
  unfold bindW. destruct (m w) as [[a|e] w1]; [eauto|discriminate].
Qed.

Lemma isConstCallW_pure (node : option Node) (w : World) (c : Completion bool) (w' : World) :
  isConstCallW node w = (c, w') -> w' = w.
Proof.
  unfold isConstCallW. destruct node as [node|]; [|unfold retW; congruence].
  destruct (decide _); [|unfold retW; congruence].
  unfold bindW, reqW. destruct (expression node); unfold retW, raiseW; congruence.
Qed.

Lemma extendsW_ret {A} (a : A) : extendsW (retW a).
Proof. intros w c w' [= <- <-]. auto. Qed.

Lemma extendsW_raise {A} (e : Exn) : extendsW (@raiseW A e).
Proof. intros w c w' [= <- <-]. auto. Qed.

Lemma extendsW_reqW {A} (o : option A) : extendsW (reqW o).
Proof. destruct o; [apply extendsW_ret|apply extendsW_raise]. Qed.

Lemma extendsW_bind {A B} (m : W A) (k : A -> W B) :
  extendsW m -> (forall a, extendsW (k a)) -> extendsW (bindW m k).
Proof.
  intros Hm Hk w c w'. unfold bindW.
  destruct (m w) as [[a|e] w1] eqn:Hrun; destruct (Hm _ _ _ Hrun) as (Ho & He & Hd).
  - intros Hrun'. destruct (Hk a _ _ _ Hrun') as (Ho' & He' & Hd').
    split; [etransitivity; eassumption|].
    split; [etransitivity; eassumption|congruence].
  - intros [= <- <-]. auto.
Qed.

Lemma extendsW_emit (token : string) : extendsW (emitW token).
Proof.
  intros w c w' [= <- <-]. simpl.
  split; [apply prefix_app_r; reflexivity|]. split; reflexivity.
Qed.

Lemma extendsW_report (n : Node) (msg : string) : extendsW (reportErrorW n msg).
Proof.
  intros w c w' [= <- <-]. simpl.
  split; [reflexivity|]. split; [apply prefix_app_r; reflexivity|reflexivity].
Qed.

Section SourceRuleProperties.
Context (base : TranspilerBase).
Variable visitMissing : W unit.
Variable visitListAfterNull : list Node -> W unit.
Variable isArray : Node -> W bool.
Variable getAncestor : Node -> SyntaxKind -> option Node.
Variable typeArguments : Node -> option (list Node).
Variable promiseConstruction : Node -> option Node -> W unit.

Local Notation "'callRules'" :=
  (sourceCallRule base visitMissing visitListAfterNull isArray getAncestor typeArguments
     promiseConstruction).
Local Notation "'propertyRules'" := (sourcePropertyRule base visitMissing).

Ltac rule_named H :=
  cbv [sourceCallRule sourceCallRules sourcePropertyRule sourcePropertyRules ruleNamed
       default from_option Datatypes.id String.eqb Ascii.eqb Bool.eqb andb] in H.

(** Which registered call rules ask for the default emission. *)
Lemma call_rule_flags (f q : string) (file : gmap string CallHandler)
    (handler : CallHandler) (c : Node) (context : option Node)
    (w : World) (r : JSVal) (w' : World) :
  source_callHandlers callRules !! f = Some file ->
  file !! q = Some handler ->
  handler c context w = (Returned r, w') ->
  (truthy r = true <->
     (q = "Promise" /\ kind c <> NewExpression)
     \/ (q = "Map" /\ isInsideConstExpr getAncestor c w = (Returned false, w)))
  /\ (truthy r = true -> r = VBool true /\ w' = w)
  /\ (truthy r = false -> q <> "Map" -> r = VUndefined).
Proof.
  intros Hf Hq Hrun.
  destruct (source_callHandlers_rule _ _ _ _ _ Hf Hq) as [-> Hin]. clear Hf Hq.
  assert (Hvoid : r = VUndefined -> q <> "Promise" \/ kind c = NewExpression -> q <> "Map" ->
            (truthy r = true <->
               (q = "Promise" /\ kind c <> NewExpression)
               \/ (q = "Map" /\ isInsideConstExpr getAncestor c w = (Returned false, w)))
            /\ (truthy r = true -> r = VBool true /\ w' = w)
            /\ (truthy r = false -> q <> "Map" -> r = VUndefined)).
  { intros -> Hp Hm. simpl. split; [split; [discriminate|]|split; [discriminate|reflexivity]].
    intros [[H1 H2]|[H1 _]]; [destruct Hp; contradiction|contradiction]. }
  repeat (apply elem_of_cons in Hin as [->|Hin]);
    [..|apply elem_of_nil in Hin; destruct Hin]; rule_named Hrun.
  3:{ unfold rule_Promise in Hrun.
      match type of Hrun with context [negb ?b] => destruct b eqn:Hnew end;
        simpl in Hrun.
      - apply bool_decide_eq_true in Hnew.
        apply voidRule_returns in Hrun. apply Hvoid; [assumption|right; assumption|discriminate].
      - apply bool_decide_eq_false in Hnew.
        injection Hrun as <- <-. simpl.
        split; [split; [intros _; left; auto|reflexivity]|].
        split; [auto|discriminate]. }
  25:{ unfold rule_Map in Hrun. apply bindW_returned in Hrun as (b & w1 & Hins & Hrun).
       assert (w1 = w) by (exact (isConstCallW_pure _ _ _ _ Hins)). subst w1.
       destruct b; simpl in Hrun.
       - apply bindW_returned in Hrun as (? & w2 & _ & Hrun).
         apply bindW_returned in Hrun as (? & w3 & _ & Hrun).
         apply bindW_returned in Hrun as (? & w4 & _ & Hrun).
         injection Hrun as <- _. simpl.
         split; [split; [discriminate|]|split; [discriminate|intros _ H; destruct H; reflexivity]].
         intros [[H _]|[_ H]]; [discriminate H|]. rewrite Hins in H. discriminate H.
       - injection Hrun as <- <-. simpl.
         split; [split; [intros _; right; auto|reflexivity]|].
         split; [auto|discriminate]. }
  all: apply voidRule_returns in Hrun; apply Hvoid;
       [assumption|left; discriminate|discriminate].
Qed.

(** What a registered property rule writes. *)
Lemma property_rule_emits (f q : string) (file : gmap string PropertyHandler)
    (handler : PropertyHandler) (p : Node) (w : World) (r : JSVal) (w' : World) :
  source_propertyHandlers propertyRules !! f = Some file ->
  file !! q = Some handler ->
  handler p w = (Returned r, w') ->
  r = VUndefined
  /\ exists w1,
       visitOpt base visitMissing (expression p) w = (Returned tt, w1)
       /\ errors w' = errors w1
       /\ genericMethodDeclDepth w' = genericMethodDeclDepth w1
       /\ output w'
          = (output w1
             ++ (if String.eqb q "Map.size" then ["."; "length"]
                 else if String.eqb q "resolve" then [".value"]
                 else [".error"]))%list.
Proof.
  intros Hf Hq Hrun.
  destruct (source_propertyHandlers_rule _ _ _ _ _ Hf Hq) as [-> Hin]. clear Hf Hq.
  split.
  { repeat (apply elem_of_cons in Hin as [->|Hin]);
      [..|apply elem_of_nil in Hin; destruct Hin]; rule_named Hrun;
      exact (voidRule_returns _ _ _ _ Hrun). }
  repeat (apply elem_of_cons in Hin as [->|Hin]);
    [..|apply elem_of_nil in Hin; destruct Hin]; rule_named Hrun.
  all: unfold rule_Map_size, rule_resolve, rule_reject, voidRule in Hrun.
  all: apply bindW_returned in Hrun as (? & w2 & Hrun & Hret).
  all: injection Hret as _ <-.
  all: apply bindW_returned in Hrun as ([] & w1 & Hvisit & Hrun).
  all: exists w1; split; [exact Hvisit|].
  1: apply bindW_returned in Hrun as ([] & w3 & H3 & H4); injection H3 as H3;
     injection H4 as H4.
  2,3: injection Hrun as Hrun.
  all: subst; simpl; rewrite <- ?app_assoc; auto.
Qed.

(** X20. No rule of the source retracts anything: provided the driver's
    visits and the two helper calls only add tokens and diagnostics and keep
    the depth counter, so does every registered call rule and property
    rule, whether it returns or throws. *)
Theorem rules_only_extend :
  (forall n, extendsW (visit base n)) ->
  (forall ns, extendsW (visitList base ns)) ->
  extendsW visitMissing ->
  (forall ns, extendsW (visitListAfterNull ns)) ->
  (forall n, extendsW (isArray n)) ->
  (forall c context, extendsW (promiseConstruction c context)) ->
  (forall f file q handler c context,
     source_callHandlers callRules !! f = Some file ->
     file !! q = Some handler ->
     extendsW (handler c context))
  /\ (forall f file q handler p,
        source_propertyHandlers propertyRules !! f = Some file ->
        file !! q = Some handler ->
        extendsW (handler p)).
Proof.
  intros Hvisit HvisitList Hmissing Hafter Harray Hpromise.
  assert (Hopt : forall x, extendsW (visitOpt base visitMissing x))
    by (intros [n|]; [apply Hvisit|exact Hmissing]).
  assert (Hwith : forall context rest,
            extendsW (visitListWith base visitListAfterNull context rest))
    by (intros [n|] rest; [apply HvisitList|apply Hafter]).
  assert (Hconst : forall c, extendsW (isInsideConstExpr getAncestor c)).
  { intros c w o w' H. apply isConstCallW_pure in H. subst w'. auto. }
  assert (Hconcat : forall args, extendsW (concatArguments base isArray args)).
  { induction args as [|arg rest IH]; simpl; [apply extendsW_ret|].
    apply extendsW_bind; [apply Harray|intros isArr].
    apply extendsW_bind; [destruct isArr; simpl;
                          [apply extendsW_ret|apply extendsW_report]|intros _].
    apply extendsW_bind; [apply extendsW_emit|intros _].
    apply extendsW_bind; [apply Hvisit|intros _].
    apply extendsW_bind; [apply extendsW_emit|intros _]. exact IH. }
  assert (Hauto : forall (P : Prop), P -> P) by auto.
  split.
  - intros f file q handler c context Hf Hq.
    destruct (source_callHandlers_rule _ _ _ _ _ Hf Hq) as [-> Hin]. clear Hf Hq.
    repeat (apply elem_of_cons in Hin as [->|Hin]);
      [..|apply elem_of_nil in Hin; destruct Hin].
    all: cbv [sourceCallRule sourceCallRules ruleNamed default from_option Datatypes.id
              String.eqb Ascii.eqb Bool.eqb andb].
    all: unfold rule_Promise_catch, rule_Promise_then, rule_Promise, rule_Array_push,
           rule_Array_pop, rule_Array_shift, rule_Array_unshift, rule_Array_map,
           rule_Array_filter, rule_Array_some, rule_Array_slice, rule_Array_splice,
           rule_Array_concat, rule_Array_join, rule_Array_reduce,
           rule_ArrayConstructor_isArray, rule_RegExp_test, rule_RegExp_exec,
           rule_String_substr, rule_Map_set, rule_Map_get, rule_Map_has, rule_Map_delete,
           rule_Map_forEach, rule_Array_find, rule_Map, rule_forwardRef, rule_CONST_EXPR,
           rule_normalizeBlank, forEachWithFunction, voidRule, emitMethodCall, emitCall,
           emitCallWith.
    all: repeat first
           [ apply extendsW_ret | apply extendsW_emit | apply extendsW_report
           | apply extendsW_reqW | apply Hvisit | apply HvisitList | apply Hopt
           | apply Hwith | apply Hconst | apply Hconcat | apply Hpromise
           | apply extendsW_bind; [|intro]
           | match goal with
             | |- extendsW (if ?b then _ else _) => destruct b
             | |- extendsW (match ?x with _ => _ end) => destruct x
             end ].
  - intros f file q handler p Hf Hq.
    destruct (source_propertyHandlers_rule _ _ _ _ _ Hf Hq) as [-> Hin]. clear Hf Hq.
    repeat (apply elem_of_cons in Hin as [->|Hin]);
      [..|apply elem_of_nil in Hin; destruct Hin].
    all: cbv [sourcePropertyRule sourcePropertyRules ruleNamed default from_option
              Datatypes.id String.eqb Ascii.eqb Bool.eqb andb].
    all: unfold rule_Map_size, rule_resolve, rule_reject, voidRule.
    all: repeat first
           [ apply extendsW_ret | apply extendsW_emit | apply Hopt
           | apply extendsW_bind; [|intro] ].
Qed.
End SourceRuleProperties.

Section ConverterWithSourceRules.
Context (base : TranspilerBase) (lib : TsLib) (ast : SourceTree) (rt : Runtime).
Variable visitMissing : W unit.
Variable visitListAfterNull : list Node -> W unit.
Variable isArray : Node -> W bool.
Variable getAncestor : Node -> SyntaxKind -> option Node.
Variable typeArguments : Node -> option (list Node).
Variable promiseConstruction : Node -> option Node -> W unit.

Local Notation "'callRules'" :=
  (sourceCallRule base visitMissing visitListAfterNull isArray getAncestor typeArguments
     promiseConstruction).
Local Notation "'propertyRules'" := (sourcePropertyRule base visitMissing).

(** X18. With the call rules of the source, the result of a call for which
    a registered rule ran and returned is decided by the located key: it is
    [false] exactly when the rule of [Promise] met a call that is not a
    [new] expression, or the rule of [Map] met a call that is not inside a
    [CONST_EXPR], and then the world is as it was found, so that the
    caller's default emission starts from nothing written; in every other
    case it is [true]. *)
Theorem maybeHandleCall_source_rules (fc : FacadeConverter) (fuel : nat) (c : Node)
    (s : State) (v : JSVal) (s' : State) :
  callHandlers fc = source_callHandlers callRules ->
  maybeHandleCall base lib ast rt fc fuel c s = (Normal v, s') ->
  ruleCalls s' <> ruleCalls s ->
  exists context symbol s1 loc s2,
    getCallInformation fc c s = (Normal (context, Some symbol), s1)
    /\ getFileAndName base lib ast fc fuel c symbol s1 = (Normal (Some loc), s2)
    /\ (v = VBool false <->
        (qname loc = "Promise" /\ kind c <> NewExpression)
        \/ (qname loc = "Map"
            /\ isInsideConstExpr getAncestor c (world s) = (Returned false, world s)))
    /\ (v = VBool true <->
        ~ ((qname loc = "Promise" /\ kind c <> NewExpression)
           \/ (qname loc = "Map"
               /\ isInsideConstExpr getAncestor c (world s) = (Returned false, world s))))
    /\ (v = VBool false -> world s' = world s).
Proof.
  intros Hfc Hrun Hran.
  destruct (maybeHandleCall_cases _ _ _ _ _ _ _ _ _ _ Hrun)
    as [(handler & context & s2 & ro & w3 & Hloc & Hh & -> & Hrc & Ho)
       |[(x & context & s2 & ro & w3 & _ & _ & -> & Hrc & _)|(Hsame & _)]].
  2:{ destruct Hran. exact Hrc. }
  2:{ contradiction. }
  destruct ro as [r|e]; [|discriminate Ho]. injection Ho as ->.
  destruct Hloc as (_ & symbol & s1 & loc & fileSubs & Hinfo & Hname & Hfile & Hq).
  rewrite Hfc in Hfile.
  destruct (call_rule_flags _ _ _ _ _ _ _ _ _ _ _ _ _ _ _ _ Hfile Hq Hh)
    as (Hiff & Htrue & _).
  assert (Hw : world s2 = world s).
  { erewrite (getFileAndName_found _ _ _ _ _ _ _ _ _ _ Hname).
    eapply getCallInformation_found; eassumption. }
  rewrite Hw in Hiff.
  exists context, symbol, s1, loc, s2.
  split; [exact Hinfo|]. split; [exact Hname|].
  unfold jsNot. destruct (truthy r) eqn:Hr; simpl.
  - split; [split; [intros _; apply Hiff; reflexivity|reflexivity]|].
    split; [split; [discriminate|]|].
    + intros Hno. destruct Hno. apply Hiff. reflexivity.
    + intros _. destruct (Htrue eq_refl) as [_ ->]. exact Hw.
  - split; [split; [discriminate|]|].
    + intros Hyes. apply Hiff in Hyes. discriminate Hyes.
    + split; [|discriminate].
      split; [|reflexivity]. intros _ Hyes. apply Hiff in Hyes. discriminate Hyes.
Qed.

(** X19. With the property rules of the source, a property access for which
    a registered rule ran and returned is always reported as handled.  The
    rule is one of the three registered ones; the receiver has been visited
    in the world as it was found, and what the rule then wrote is decided
    by the located name: [.] and [length] for [Map.size], [.value] for
    [resolve], [.error] for [reject]; no diagnostic is added after the
    visit. *)
Theorem handlePropertyAccess_source_rules (fc : FacadeConverter) (fuel : nat) (pa : Node)
    (s : State) (v : JSVal) (s' : State) :
  propertyHandlers fc = source_propertyHandlers propertyRules ->
  handlePropertyAccess base lib ast rt fc fuel pa s = (Normal v, s') ->
  ruleCalls s' <> ruleCalls s ->
  v = VBool true
  /\ exists checker member symbol loc w1,
       tc fc = Some checker
       /\ name pa = Some member
       /\ getSymbolAtLocation checker member = Some symbol
       /\ getFileAndName base lib ast fc fuel pa symbol (asked s member)
          = (Normal (Some loc), asked s member)
       /\ visitOpt base visitMissing (expression pa) (world s) = (Returned tt, w1)
       /\ (qname loc = "Map.size" \/ qname loc = "resolve" \/ qname loc = "reject")
       /\ output (world s')
          = (output w1
             ++ (if String.eqb (qname loc) "Map.size" then ["."; "length"]
                 else if String.eqb (qname loc) "resolve" then [".value"]
                 else [".error"]))%list
       /\ errors (world s') = errors w1.
Proof.
  intros Hfc Hrun Hran.
  destruct (handlePropertyAccess_cases _ _ _ _ _ _ _ _ _ _ Hrun)
    as [(handler & s2 & ro & w3 & Hloc & Hh & -> & Hrc & Hw & Ho)
       |[(x & s2 & ro & w3 & _ & _ & -> & Hrc & _)|(Hsame & _)]].
  2:{ destruct Hran. exact Hrc. }
  2:{ contradiction. }
  destruct ro as [r|e]; [|discriminate Ho]. injection Ho as ->.
  destruct Hloc as (ch & mb & symbol & loc & fileSubs & Htc & Hname & _ & Hsym & Hl
                    & Hfile & Hq).
  rewrite Hfc in Hfile.
  destruct (property_rule_emits _ _ _ _ _ _ _ _ _ _ Hfile Hq Hh)
    as (-> & w1 & Hvisit & Herr & _ & Hout).
  destruct (source_propertyHandlers_rule _ _ _ _ _ Hfile Hq) as [_ Hin].
  split; [reflexivity|].
  rewrite Hw in Hvisit.
  pose proof (getFileAndName_found _ _ _ _ _ _ _ _ _ _ Hl) as Hs2. subst s2.
  exists ch, mb, symbol, loc, w1.
  split; [exact Htc|]. split; [exact Hname|]. split; [exact Hsym|].
  split; [exact Hl|]. split; [exact Hvisit|].
  split; [|split; [exact Hout|exact Herr]].
  repeat (apply elem_of_cons in Hin as [Hin|Hin]; [auto|]).
  apply elem_of_nil in Hin. destruct Hin.
Qed.
End ConverterWithSourceRules.

Section DecoratorProperties.
Context (base : TranspilerBase).

Lemma visitDecorator_CONST (d : Node) (s : State) :
  isCONST d = true -> visitDecorator base d s = (Normal tt, s).
Proof.
  unfold isCONST, visitDecorator, ident.
  destruct (expression d) as [expr|]; [|discriminate]. run.
  destruct (decide (kind expr = Identifier)) as [Hid|Hid].
  - intros Htext. apply String.eqb_eq in Htext. rewrite Htext. simpl. reflexivity.
  - destruct (decide (kind expr = CallExpression)) as [Hcall|Hcall]; [|discriminate].
    simpl. rewrite bool_decide_eq_true_2 by assumption.
    destruct (expression expr) as [callee|]; [|discriminate]. simpl.
    intros H. apply andb_prop in H as [Hk Htext].
    apply bool_decide_eq_true in Hk. apply String.eqb_eq in Htext.
    destruct (decide (kind callee = Identifier)); [|contradiction].
    rewrite Htext. reflexivity.
Qed.

(** X21. [visitDecorators] treats [@CONST] and [@CONST(..)] as absent:
    the run on a list of decorators is the run on the list without them,
    missing decorators and a list of [@CONST]s only leave the state
    untouched, and any other decorator with a name gets an [@] followed by
    the visit of its expression. *)
Theorem visitDecorators_ignores_CONST (decorators : list Node) (s : State) :
  visitDecorators base (Some decorators) s
  = visitDecorators base (Some (List.filter (fun d => negb (isCONST d)) decorators)) s
  /\ visitDecorators base None s = (Normal tt, s)
  /\ (forallb isCONST decorators = true ->
      visitDecorators base (Some decorators) s = (Normal tt, s))
  /\ (forall d expr,
        expression d = Some expr -> kind expr = Identifier -> text expr <> "CONST" ->
        visitDecorators base (Some [d]) s
        = (emit "@" ;; liftW (visit base expr) ;; ret tt) s).
Proof.
  assert (Hfilter : forall ds t,
            forEachDecorator base ds t
            = forEachDecorator base (List.filter (fun d => negb (isCONST d)) ds) t).
  { induction ds as [|d rest IH]; intros t; [reflexivity|]. simpl.
    destruct (isCONST d) eqn:Hd; simpl.
    - unfold bind. rewrite (visitDecorator_CONST d t Hd). apply IH.
    - unfold bind. destruct (visitDecorator base d t) as [[[]|e|] t1]; [apply IH| |];
        reflexivity. }
  split; [apply Hfilter|]. split; [reflexivity|]. split.
  - intros Hall. simpl. rewrite Hfilter.
    replace (List.filter (fun d => negb (isCONST d)) decorators) with (@nil Node);
      [reflexivity|].
    induction decorators as [|d rest IH]; [reflexivity|]. simpl in *.
    apply andb_prop in Hall as [Hd Hrest]. rewrite Hd. simpl. apply IH, Hrest.
  - intros d expr Hexpr Hid Htext. simpl.
    unfold visitDecorator, ident. rewrite Hexpr. run.
    destruct (decide (kind expr = Identifier)); [|contradiction]. simpl.
    rewrite bool_decide_eq_false_2 by (rewrite Hid; discriminate).
    rewrite andb_false_r. simpl.
    rewrite bool_decide_eq_false_2 by congruence.
    destruct (visit base expr _) as [[[]|e0] w1]; reflexivity.
Qed.
End DecoratorProperties.

(** ** The further properties on concrete inputs *)

Lemma getFileAndName_through_aliases_witness :
  getFileAndName printingBase sampleLib sampleTree shimConverter 1 pushCall aliasSymbol
    initialState
  = (Normal (Some {| fileName := "lib"; qname := "Array.push" |}), initialState).
Proof.
  apply (getFileAndName_through_aliases printingBase sampleLib sampleTree shimConverter
           shimChecker 1 0 pushCall aliasSymbol initialState initialState _ eq_refl).
  - intros i Hi. assert (Hi0 : i = 0%nat) by lia. rewrite Hi0. reflexivity.
  - vm_compute. reflexivity.
Defined.

Lemma getFileAndName_no_declarations_witness :
  getFileAndName printingBase sampleLib sampleTree shimConverter 0 sizeAccess bareSymbol
    initialState
  = (Normal None, reported initialState sizeAccess "no declarations for symbol ghost").
Proof.
  exact (proj1 (getFileAndName_no_declarations printingBase sampleLib sampleTree standardRuntime shimConverter
                  0 sizeAccess bareSymbol initialState eq_refl eq_refl)).
Defined.

Lemma handlePropertyAccess_skips_non_candidates_witness :
  ("frob" ∉ candidateProperties sampleConverter)
  /\ handlePropertyAccess printingBase sampleLib sampleTree standardRuntime sampleConverter 3
       frobAccess initialState
     = (Normal (VBool false), initialState).
Proof.
  assert (Hc : "frob" ∉ candidateProperties sampleConverter).
  { apply (bool_decide_unpack _). vm_compute. exact I. }
  split; [exact Hc|].
  exact (handlePropertyAccess_skips_non_candidates printingBase sampleLib sampleTree
           standardRuntime sampleConverter 3 frobAccess (identifierNode 33 "frob")
           initialState eq_refl Hc).
Defined.

Lemma handlePropertyAccess_unresolved_witness :
  ("size" ∈ candidateProperties sampleConverter)
  /\ handlePropertyAccess printingBase sampleLib sampleTree standardRuntime sampleConverter 3
       unknownSizeAccess initialState
     = (Normal (VBool false),
        reported (asked initialState (identifierNode 133 "size")) unknownSizeAccess
          (missingTypeMessage "size")).
Proof.
  assert (Hc : "size" ∈ candidateProperties sampleConverter).
  { apply (bool_decide_unpack _). vm_compute. exact I. }
  split; [exact Hc|].
  exact (handlePropertyAccess_unresolved printingBase sampleLib sampleTree standardRuntime sampleConverter
           sampleChecker 3 unknownSizeAccess (identifierNode 133 "size") initialState
           eq_refl eq_refl Hc eq_refl).
Defined.

Lemma handlePropertyAccess_at_most_one_rule_witness :
  handlePropertyAccess printingBase sampleLib shimTree standardRuntime shimConverter 3 sizeAccess initialState
  = (Normal (VBool true),
     afterRule sizeAccess (asked initialState (identifierNode 121 "size"))
       {| output := ["m"; "."; "length"]; errors := []; genericMethodDeclDepth := 0 |})
  /\ ruleCalls (afterRule sizeAccess (asked initialState (identifierNode 121 "size"))
                  {| output := ["m"; "."; "length"]; errors := [];
                     genericMethodDeclDepth := 0 |})
     = sizeAccess :: ruleCalls initialState.
Proof.
  assert (Hrun : handlePropertyAccess printingBase sampleLib shimTree standardRuntime shimConverter 3
                   sizeAccess initialState
                 = (Normal (VBool true),
                    afterRule sizeAccess (asked initialState (identifierNode 121 "size"))
                      {| output := ["m"; "."; "length"]; errors := [];
                         genericMethodDeclDepth := 0 |}))
    by (vm_compute; reflexivity).
  split; [exact Hrun|].
  destruct (proj1 (handlePropertyAccess_at_most_one_rule printingBase sampleLib shimTree standardRuntime
                     shimConverter 3 sizeAccess initialState _ _ Hrun)) as [H|H].
  - discriminate H.
  - exact H.
Defined.

Lemma maybeHandleCall_unresolved_witness :
  ("push" ∈ candidateProperties sampleConverter)
  /\ maybeHandleCall printingBase sampleLib sampleTree standardRuntime sampleConverter 3 unknownPushCall
       initialState
     = (Normal (VBool false),
        reported (asked initialState (identifierNode 136 "push")) unknownPushCall
          (missingTypeMessage "push")).
Proof.
  assert (Hc : "push" ∈ candidateProperties sampleConverter).
  { apply (bool_decide_unpack _). vm_compute. exact I. }
  split; [exact Hc|].
  exact (proj1 (maybeHandleCall_unresolved printingBase sampleLib sampleTree standardRuntime sampleConverter
                  sampleChecker 3 unknownPushCall (identifierNode 136 "push") initialState
                  eq_refl eq_refl eq_refl) eq_refl Hc).
Defined.

Lemma shouldEmitNew_only_for_es6_promise_witness :
  shouldEmitNew printingBase sampleLib shimTree standardRuntime shimConverter 3 newPromise initialState
  = (Normal false, asked initialState (identifierNode 123 "Promise"))
  /\ ruleCalls (asked initialState (identifierNode 123 "Promise")) = ruleCalls initialState.
Proof.
  assert (Hrun : shouldEmitNew printingBase sampleLib shimTree standardRuntime shimConverter 3 newPromise
                   initialState
                 = (Normal false, asked initialState (identifierNode 123 "Promise")))
    by (vm_compute; reflexivity).
  split; [exact Hrun|].
  exact (proj1 (proj2 (shouldEmitNew_only_for_es6_promise printingBase sampleLib shimTree standardRuntime
                         shimConverter 3 newPromise initialState _ _ eq_refl Hrun))).
Defined.

Lemma visitTypeName_generic_parameter_witness :
  visitTypeName printingBase sampleLib shimTree standardRuntime shimConverter 3 (identifierNode 124 "T")
    (atDepth initialState 1)
  = (Normal tt,
     emittedAll (asked (atDepth initialState 1) (identifierNode 124 "T"))
       ["dynamic/*="; "T"; "*/"]).
Proof.
  assert (Hgen : isGenericMethodTypeParameterName sampleLib shimTree shimConverter
                   (identifierNode 124 "T") (atDepth initialState 1)
                 = (Normal true, asked (atDepth initialState 1) (identifierNode 124 "T")))
    by (vm_compute; reflexivity).
  exact (proj1 (visitTypeName_generic_parameter printingBase sampleLib shimTree standardRuntime shimConverter
                  3 (identifierNode 124 "T") (atDepth initialState 1) _ eq_refl Hgen)).
Defined.

Lemma isNamedType_without_key_witness :
  isNamedType printingBase sampleLib shimTree shimConverter 3 (leaf 126 Identifier)
    "lib" "Array" initialState
  = (Throw TypeError,
     reported initialState (leaf 126 Identifier) "no declarations for symbol ghost").
Proof.
  exact (isNamedType_without_key printingBase sampleLib shimTree shimConverter shimChecker 3
           (leaf 126 Identifier) "lib" "Array"
           {| ty_flags := 0; ty_symbol := Some bareSymbol |} initialState
           eq_refl eq_refl eq_refl eq_refl).
Defined.

Lemma untyped_declarator_keyword_witness :
  visitVariableDeclarationType printingBase sampleLib untypedTree declaratorU initialState
  = (Normal tt, emitted initialState "var").
Proof.
  assert (Hwf : initializerWellFormed declaratorU) by (intros init H; discriminate H).
  exact (untyped_declarator_keyword printingBase sampleLib untypedTree declaratorU listU
           initialState eq_refl eq_refl Hwf).
Defined.

Lemma maybeHandleCall_source_rules_witness :
  maybeHandleCall printingBase sampleLib shimTree standardRuntime shimConverter 3 mapCall
    initialState
  = (Normal (VBool false),
     afterRule mapCall (asked initialState (identifierNode 122 "Map")) emptyWorld)
  /\ world (afterRule mapCall (asked initialState (identifierNode 122 "Map")) emptyWorld)
     = world initialState.
Proof.
  assert (Hrun : maybeHandleCall printingBase sampleLib shimTree standardRuntime shimConverter
                   3 mapCall initialState
                 = (Normal (VBool false),
                    afterRule mapCall (asked initialState (identifierNode 122 "Map"))
                      emptyWorld))
    by (vm_compute; reflexivity).
  split; [exact Hrun|].
  assert (Hran : ruleCalls (afterRule mapCall (asked initialState (identifierNode 122 "Map"))
                              emptyWorld)
                 <> ruleCalls initialState) by (simpl; discriminate).
  destruct (maybeHandleCall_source_rules printingBase sampleLib shimTree standardRuntime
              (retW tt) printingVisitList (fun _ => retW true) (fun _ _ => None)
              (fun _ => None) (fun _ _ => retW tt) shimConverter 3 mapCall initialState _ _
              eq_refl Hrun Hran)
    as (context & symbol & s1 & loc & s2 & _ & _ & _ & _ & Hworld).
  exact (Hworld eq_refl).
Defined.

Lemma handlePropertyAccess_source_rules_witness :
  handlePropertyAccess printingBase sampleLib shimTree standardRuntime shimConverter 3
    sizeAccess initialState
  = (Normal (VBool true),
     afterRule sizeAccess (asked initialState (identifierNode 121 "size"))
       {| output := ["m"; "."; "length"]; errors := []; genericMethodDeclDepth := 0 |})
  /\ exists loc w1,
       getFileAndName printingBase sampleLib shimTree shimConverter 3 sizeAccess mapSizeSymbol
         (asked initialState (identifierNode 121 "size"))
       = (Normal (Some loc), asked initialState (identifierNode 121 "size"))
       /\ visitOpt printingBase (retW tt) (expression sizeAccess) (world initialState)
          = (Returned tt, w1)
       /\ ["m"; "."; "length"]
          = (output w1
             ++ (if String.eqb (qname loc) "Map.size" then ["."; "length"]
                 else if String.eqb (qname loc) "resolve" then [".value"]
                 else [".error"]))%list.
Proof.
  assert (Hrun : handlePropertyAccess printingBase sampleLib shimTree standardRuntime
                   shimConverter 3 sizeAccess initialState
                 = (Normal (VBool true),
                    afterRule sizeAccess (asked initialState (identifierNode 121 "size"))
                      {| output := ["m"; "."; "length"]; errors := [];
                         genericMethodDeclDepth := 0 |}))
    by (vm_compute; reflexivity).
  split; [exact Hrun|].
  assert (Hran : ruleCalls (afterRule sizeAccess
                              (asked initialState (identifierNode 121 "size"))
                              {| output := ["m"; "."; "length"]; errors := [];
                                 genericMethodDeclDepth := 0 |})
                 <> ruleCalls initialState) by (simpl; discriminate).
  destruct (handlePropertyAccess_source_rules printingBase sampleLib shimTree standardRuntime
              (retW tt) shimConverter 3 sizeAccess initialState _ _ eq_refl Hrun Hran)
    as (_ & checker & member & symbol & loc & w1 & Htc & Hname & Hsym & Hloc & Hvisit
        & _ & Hout & _).
  injection Hname as <-. injection Htc as <-. injection Hsym as <-.
  exists loc, w1. split; [exact Hloc|]. split; [exact Hvisit|]. exact Hout.
Defined.

Lemma printingVisit_extends (n : Node) : extendsW (printingVisit n).
Proof.
  intros w c w'. unfold printingVisit.
  destruct (bool_decide (kind n = Block)); intros [= <- <-]; simpl.
  - auto.
  - split; [apply prefix_app_r; reflexivity|]. split; reflexivity.
Qed.

Lemma printingVisitList_extends (ns : list Node) : extendsW (printingVisitList ns).
Proof.
  induction ns as [|n rest IH]; intros w c w'; simpl.
  - intros [= <- <-]. auto.
  - destruct (printingVisit (default n (name n)) w) as [[[]|e] w1] eqn:Hn;
      destruct (printingVisit_extends _ _ _ _ Hn) as (Ho & He & Hd).
    + intros Hrest. destruct (IH _ _ _ Hrest) as (Ho' & He' & Hd').
      split; [etransitivity; eassumption|].
      split; [etransitivity; eassumption|congruence].
    + intros [= <- <-]. auto.
Qed.

Lemma rules_only_extend_witness :
  extendsW
    (sourceCallRule printingBase (retW tt) printingVisitList (fun _ => retW true)
       (fun _ _ => None) (fun _ => None) (fun _ _ => retW tt)
       "CONST_EXPR" pushCall None).
Proof.
  assert (Hfile : source_callHandlers
                    (sourceCallRule printingBase (retW tt) printingVisitList
                       (fun _ => retW true) (fun _ _ => None) (fun _ => None)
                       (fun _ _ => retW tt))
                  !! "angular2/src/facade/lang"
                  = Some (rulesOf
                            (sourceCallRule printingBase (retW tt) printingVisitList
                               (fun _ => retW true) (fun _ _ => None) (fun _ => None)
                               (fun _ _ => retW tt))
                            ["CONST_EXPR"; "normalizeBlank"])).
  { unfold source_callHandlers. simpl. reflexivity. }
  assert (Hrule : rulesOf
                    (sourceCallRule printingBase (retW tt) printingVisitList
                       (fun _ => retW true) (fun _ _ => None) (fun _ => None)
                       (fun _ _ => retW tt))
                    ["CONST_EXPR"; "normalizeBlank"]
                  !! "CONST_EXPR"
                  = Some (sourceCallRule printingBase (retW tt) printingVisitList
                            (fun _ => retW true) (fun _ _ => None) (fun _ => None)
                            (fun _ _ => retW tt) "CONST_EXPR")).
  { unfold rulesOf. simpl. reflexivity. }
  apply (proj1 (rules_only_extend printingBase (retW tt) printingVisitList
                  (fun _ => retW true) (fun _ _ => None) (fun _ => None)
                  (fun _ _ => retW tt)
                  printingVisit_extends printingVisitList_extends (extendsW_ret tt)
                  printingVisitList_extends (fun _ => extendsW_ret true)
                  (fun _ _ => extendsW_ret tt))
           _ _ _ _ pushCall None Hfile Hrule).
Defined.

(** ** Where the code breaks what the spec says *)

(** C1. The claim fails on the code.  The tables are read with
    [m[fileName]] and [fileSubs[qname]], without [hasOwnProperty]
    (the candidate sets and the type-name entries are tested with it).  For
    the call [push(x)], where [push] is the import of the function [is] of
    [constructor.ts], the located key is [constructor], [is]: no rule is
    registered under it, and yet [maybeHandleCall] finds the inherited
    [Object], then [Object.is], calls it with the call and [null], and
    returns [true] although no rule was found or invoked. *)
Theorem maybeHandleCall_calls_inherited_member :
  getFileAndName printingBase sampleLib constructorTree importConverter 3 importedCall
    importedAsPush (asked initialState importedCallee)
  = (Normal (Some {| fileName := "constructor"; qname := "is" |}),
     asked initialState importedCallee)
  /\ callHandlers importConverter !! "constructor" = None
  /\ maybeHandleCall printingBase sampleLib constructorTree standardRuntime importConverter 3
       importedCall initialState
     = (Normal (VBool true), asked initialState importedCallee)
  /\ ruleCalls (asked initialState importedCallee) = []
  /\ ~ (exists handler context s2,
          locatesCallRule printingBase sampleLib constructorTree importConverter 3
            importedCall initialState handler context s2).
Proof.
  assert (Hloc : getFileAndName printingBase sampleLib constructorTree importConverter 3
                   importedCall importedAsPush (asked initialState importedCallee)
                 = (Normal (Some {| fileName := "constructor"; qname := "is" |}),
                    asked initialState importedCallee))
    by (vm_compute; reflexivity).
  assert (Hnone : callHandlers importConverter !! "constructor" = None)
    by (vm_compute; reflexivity).
  split; [exact Hloc|]. split; [exact Hnone|].
  split; [vm_compute; reflexivity|]. split; [reflexivity|].
  intros (handler & context & s2 & _ & symbol & s1 & loc & fileSubs & Hinfo & Hloc' & Hfile
          & _).
  assert (Hinfo' : getCallInformation importConverter importedCall initialState
                   = (Normal (None, Some importedAsPush), asked initialState importedCallee))
    by (vm_compute; reflexivity).
  rewrite Hinfo' in Hinfo. injection Hinfo as <- <- <-.
  rewrite Hloc in Hloc'. injection Hloc' as <- <-.
  change (callHandlers importConverter !! "constructor" = Some fileSubs) in Hfile.
  rewrite Hnone in Hfile. discriminate Hfile.
Qed.

(** C2. The claim fails on the code.  For the candidate type name [Promise]
    at a place where the checker finds no symbol, [visitTypeName] reports
    the missing-type diagnostic and returns at once: the identifier's own
    text is not emitted.  The other failure of the same method is treated as
    the claim says: when the symbol is found but has no declaration, the
    diagnostic is reported and the identifier's own text is emitted. *)
Theorem visitTypeName_unresolved_emits_nothing :
  isGenericMethodTypeParameterName sampleLib sampleTree sampleConverter
    unresolvedPromise initialState = (Normal false, initialState)
  /\ visitTypeName printingBase sampleLib sampleTree standardRuntime sampleConverter 3
       unresolvedPromise initialState
     = (Normal tt, reported (asked initialState unresolvedPromise) unresolvedPromise
                     (missingTypeMessage "Promise"))
  /\ output (world (reported (asked initialState unresolvedPromise) unresolvedPromise
                      (missingTypeMessage "Promise")))
     = []
  /\ visitTypeName printingBase sampleLib constructorTree standardRuntime importConverter 3
       undeclaredPromise initialState
     = (Normal tt,
        emitted (reported (asked initialState undeclaredPromise) undeclaredPromise
                   "no declarations for symbol ghost")
          "Promise").
Proof.
  split; [reflexivity|].
  split; [vm_compute; reflexivity|].
  split; [reflexivity|].
  vm_compute. reflexivity.
Qed.

(** C5. The claim fails on the code.  [isNamedType] is only ever asked for
    the module [lib].  Its first test lets a symbol located in [lib.es6]
    pass for an expected [lib], and its [else] branch then compares the two
    names as plain strings and answers [false]: an array of [lib.es6.d.ts]
    is not taken for an [Array] of [lib], while an array of [lib.d.ts]
    is. *)
Theorem isNamedType_lib_expected_es6_located :
  getFileAndName printingBase sampleLib sampleTree sampleConverter 3
    arrayEs6Expression arrayEs6Symbol initialState
  = (Normal (Some {| fileName := "lib.es6"; qname := "Array" |}), initialState)
  /\ isNamedType printingBase sampleLib sampleTree sampleConverter 3
       arrayEs6Expression "lib" "Array" initialState
     = (Normal false, initialState)
  /\ isNamedType printingBase sampleLib sampleTree sampleConverter 3
       arrayExpression "lib" "Array" initialState
     = (Normal true, initialState).
Proof. repeat split; vm_compute; reflexivity. Qed.

(** C8. The claim fails on the code.  An arrow function whose body is an
    expression is not handed to [visitFunctionLike]: [visitNode] emits its
    parameters, the arrow and the body itself, and never enters a generic
    scope.  For [<T>(x) => x] the parameters and the body are visited at
    depth zero although the function declares a type parameter, while for
    the same function with a block as body they are visited inside the
    generic scope. *)
Theorem generic_arrow_expression_body_at_depth_zero :
  typeParameters (genericArrow expressionBody) = Some [typeParameterT]
  /\ visitNode probingBase sampleLib sampleTree (fun _ => ret false)
       (genericArrow expressionBody) initialState
     = (Normal true,
        emittedAll initialState ["("; "x at depth 0"; ")"; "=>"; "x at depth 0"])
  /\ visitNode probingBase sampleLib sampleTree (fun _ => ret false)
       (genericArrow blockBody) initialState
     = (Normal true,
        emittedAll initialState
          ["/*<"; "T"; ">*/"; "("; "x in a generic scope"; ")";
           "{ return x; } in a generic scope"]).
Proof. repeat split; vm_compute; reflexivity. Qed.
